(** * GradeCalc: the grade model of [src/course.py], [src/grade_category.py]
    and the requirement solver, the editing handlers and the GPA table of
    [src/main.py]

    Conventions of the embedding.

    - A Python [float] is an exact rational ([Qc], canonical fractions with
      Leibniz equality): rounding, infinities and NaN are not modelled.  A
      Python [int] is a [Z].  The input fields of the handlers do tell the
      texts "nan" and "inf" apart from a number ([MainWindow.field]); an
      edit that stores a NaN ends in [MainWindow.StoredNan].
    - A Python [dict] is an association list in insertion order whose keys
      are pairwise distinct ([Dict.wf]).
    - A Python exception is a constructor of [exn]; code that may raise
      returns a [result]. *)

From Stdlib Require Import ZArith QArith Qcanon List String Bool Lia.
From Stdlib Require Import Permutation Sorted Orders Mergesort.
Import ListNotations.

Local Open Scope string_scope.
Local Open Scope Z_scope.
Local Open Scope Qc_scope.
Local Open Scope list_scope.

(** ** Numbers *)

Module Num.

  (** [float(z)] for an [int] [z]. *)
Definition of_Z (z : Z) : Qc := Q2Qc (inject_Z z).

  (** [len(l)] as a float, as it is used in a true division. *)
Definition len {A} (l : list A) : Qc := of_Z (Z.of_nat (List.length l)).

(** [float(x)] for a float [x]. *)
Definition float (x : Qc) : Qc := x.

Definition leb (x y : Qc) : bool := Qle_bool x y.
Definition ltb (x y : Qc) : bool := negb (Qle_bool y x).
Definition eqb (x y : Qc) : bool := Qeq_bool x y.

  (** [sum(l)]: Python adds from the left, starting at [0]. *)
Definition sum (l : list Qc) : Qc := fold_left Qcplus l 0.

  (** [sum(l) / len(l)], also [np.mean(l)], for a non-empty [l]. *)
Definition mean (l : list Qc) : Qc := sum l / len l.

  (** [sum(grades) / len(grades) if grades else 0.0] *)
Definition mean_or_zero (l : list Qc) : Qc :=
    match l with
    | [] => 0
    | _ :: _ => mean l
    end.

Module QcOrder <: TotalLeBool.
Definition t := Qc.
Definition leb := leb.
Theorem leb_total : forall x y, leb x y = true \/ leb y x = true.
Proof.
      intros x y. unfold leb, Num.leb.
      destruct (Qlt_le_dec x y) as [H | H].
      - left. apply Qle_bool_iff. apply Qlt_le_weak. exact H.
      - right. apply Qle_bool_iff. exact H.
Qed.
End QcOrder.

Module QcSort := Sort QcOrder.

  (** [sorted(l)] on floats: the ascending rearrangement of [l]. *)
Definition sorted (l : list Qc) : list Qc := QcSort.sort l.

  (** The slice [l[d:]] for an [int] [d > 0]. *)
Definition slice_from (d : Z) (l : list Qc) : list Qc := skipn (Z.to_nat d) l.

End Num.

(** ** Python dictionaries *)

Module Dict.

Section WithKey.
Context {K V : Type} (eqb : K -> K -> bool).

Definition t := list (K * V).

Definition keys (d : t) : list K := map fst d.

    (** [d.get(k)] *)
Fixpoint get (k : K) (d : t) : option V :=
      match d with
      | [] => None
      | (k', v) :: rest => if eqb k k' then Some v else get k rest
      end.

    (** [k in d] *)
Definition mem (k : K) (d : t) : bool :=
      match get k d with
      | Some _ => true
      | None => false
      end.

    (** [d[k] = v]: an existing key keeps its place, a new one goes last. *)
Fixpoint set (k : K) (v : V) (d : t) : t :=
      match d with
      | [] => [(k, v)]
      | (k', v') :: rest =>
          if eqb k k' then (k', v) :: rest else (k', v') :: set k v rest
      end.

    (** The keys of a dictionary are pairwise distinct. *)
Definition wf (d : t) : Prop := NoDup (keys d).

End WithKey.

Arguments t : clear implicits.

(** A dictionary comprehension [{f(k): g(v) for k, v in d.items()}]. *)
Definition comprehension {K V K' V'} (eqb : K' -> K' -> bool)
    (f : K -> K') (g : K -> V -> V') (d : t K V) : t K' V' :=
  fold_left (fun acc kv => set eqb (f (fst kv)) (g (fst kv) (snd kv)) acc) d [].

End Dict.

(** ** Exceptions *)

Inductive exn : Type :=
| ZeroDivisionError
| KeyError (key : string)
| ValueError (msg : string).

Inductive result (A : Type) : Type :=
| Ok (a : A)
| Raise (e : exn).

Arguments Ok {A} a.
Arguments Raise {A} e.

Definition bind {A B} (m : result A) (f : A -> result B) : result B :=
  match m with
  | Ok a => f a
  | Raise e => Raise e
  end.

Declare Scope result_scope.
Delimit Scope result_scope with result.
Notation "x <- m ;; k" := (bind m (fun x => k))
  (at level 61, m at next level, right associativity) : result_scope.
Notation "' p <- m ;; k" := (bind m (fun x => let p := x in k))
  (at level 61, p pattern, m at next level, right associativity) : result_scope.

(** [for a in l: s = f(s, a)], stopping at the first exception. *)
Fixpoint foldM {A S} (f : S -> A -> result S) (l : list A) (s : S) : result S :=
  match l with
  | [] => Ok s
  | a :: rest => bind (f s a) (foldM f rest)
  end.

(** ** [src/grade_category.py] *)

Module GradeCategory.

Record t : Type := mk {
    name : string;
    weight : Qc;
    total_assignments : Z;
    drops : Z;
    grades : list Qc
  }.

  (** The dictionary [to_dict] builds, one field per key. *)
Record dict : Type := mk_dict {
    d_name : string;
    d_weight : Qc;
    d_total_assignments : Z;
    d_drops : Z;
    d_grades : list Qc
  }.

  (** [GradeCategory(name, weight, total_assignments, drops)] *)
Definition init (name : string) (weight : Qc) (total_assignments drops : Z) : t :=
    mk name (Num.float weight) total_assignments drops [].

Definition to_dict (self : t) : dict :=
    mk_dict self.(name) (Num.float self.(weight)) self.(total_assignments) self.(drops)
            (map Num.float self.(grades)).

Definition from_dict (data : dict) : t :=
    let category :=
      init data.(d_name) (Num.float data.(d_weight)) data.(d_total_assignments)
           data.(d_drops) in
    mk category.(name) category.(weight) category.(total_assignments)
       category.(drops) (map Num.float data.(d_grades)).

End GradeCategory.


(** ** [src/course.py] *)

Module Course.

Record t : Type := mk {
  name : string;
  credit_hours : Qc;
  categories : Dict.t string GradeCategory.t;
  grade_boundaries : Dict.t Qc Qc;
  semester : string;
  final_policy : string
}.

(** The dictionary [to_dict] builds, one field per key. *)
Record dict : Type := mk_dict {
  d_name : string;
  d_credit_hours : Qc;
  d_semester : string;
  d_categories : Dict.t string GradeCategory.dict;
  d_grade_boundaries : Dict.t Qc Qc;
  d_final_policy : string
}.

(** [Course(name, credit_hours)] *)
Definition init (name : string) (credit_hours : Qc) : t :=
  mk name (Num.float credit_hours) [] [] "" "No Replacement".

Definition to_dict (self : t) : dict :=
  mk_dict self.(name)
          (Num.float self.(credit_hours))
          self.(semester)
          (Dict.comprehension String.eqb (fun name => name)
             (fun _ cat => GradeCategory.to_dict cat) self.(categories))
          (Dict.comprehension Num.eqb Num.float (fun _ v => Num.float v)
             self.(grade_boundaries))
          self.(final_policy).

Definition from_dict (data : dict) : t :=
  let course := init data.(d_name) (Num.float data.(d_credit_hours)) in
  let course :=
    mk course.(name) course.(credit_hours) course.(categories)
       course.(grade_boundaries) data.(d_semester) course.(final_policy) in
  let course :=
    mk course.(name) course.(credit_hours) course.(categories)
       (Dict.comprehension Num.eqb Num.float (fun _ v => Num.float v)
          data.(d_grade_boundaries))
       course.(semester) course.(final_policy) in
  let course :=
    mk course.(name) course.(credit_hours) course.(categories)
       course.(grade_boundaries) course.(semester) data.(d_final_policy) in
  fold_left
    (fun course kv =>
       mk course.(name) course.(credit_hours)
          (Dict.set String.eqb (fst kv) (GradeCategory.from_dict (snd kv))
             course.(categories))
          course.(grade_boundaries) course.(semester) course.(final_policy))
    data.(d_categories) course.

(** The final-exam step of [calculate_category_average] ("Handle final exam
    replacement if applicable"), on the grades left after the drops. *)
Definition final_exam_replacement (self : t) (category_name : string)
    (grades : list Qc) : list Qc :=
  if (category_name =? "Test")%string
     && Dict.mem String.eqb "Final" self.(categories)
     && negb (self.(final_policy) =? "No Replacement")%string
  then
    match Dict.get String.eqb "Final" self.(categories) with
    | None => grades
    | Some final =>
        let final_grades := map Num.float final.(GradeCategory.grades) in
        match final_grades with
        | [] => grades
        | final_grade :: _ =>
            if (self.(final_policy) =? "Replace Lowest Test")%string then
              match grades with
              | g0 :: rest =>
                  if Num.ltb g0 final_grade then final_grade :: rest else grades
              | [] => grades
              end
            else if (self.(final_policy) =? "Average with Lowest Test")%string then
              match grades with
              | g0 :: rest => ((g0 + final_grade) / Num.of_Z 2) :: rest
              | [] => grades
              end
            else grades
        end
    end
  else grades.

Definition calculate_category_average (self : t) (category_name : string) : Qc :=
  match Dict.get String.eqb category_name self.(categories) with
  | None => 0
  | Some category =>
      match category.(GradeCategory.grades) with
      | [] => 0
      | _ :: _ =>
          let grades := map Num.float (Num.sorted category.(GradeCategory.grades)) in
          let grades :=
            if (0 <? category.(GradeCategory.drops))%Z
            then Num.slice_from category.(GradeCategory.drops) grades
            else grades in
          let grades := final_exam_replacement self category_name grades in
          Num.mean_or_zero grades
      end
  end.

(** The loop of [calculate_current_grade]: the state is
    [(total_weighted_score, total_weight_used)]. *)
Definition current_grade_step (self : t) (acc : Qc * Qc)
    (item : string * GradeCategory.t) : Qc * Qc :=
  let '(total_weighted_score, total_weight_used) := acc in
  let '(name, category) := item in
  match category.(GradeCategory.grades) with
  | [] => acc
  | _ :: _ =>
      let average := Num.float (calculate_category_average self name) in
      let weight := Num.float category.(GradeCategory.weight) / Num.of_Z 100 in
      (total_weighted_score + average * weight, total_weight_used + weight)
  end.

Definition calculate_current_grade (self : t) : Qc :=
  let '(total_weighted_score, total_weight_used) :=
    fold_left (current_grade_step self) self.(categories) (0, 0) in
  if Num.ltb 0 total_weight_used
  then total_weighted_score / total_weight_used
  else 0.

(** [sorted(pairs, reverse=True)]: pairs of floats in descending
    lexicographic order. *)
Definition pair_geb (a b : Qc * Qc) : bool :=
  Num.ltb (fst b) (fst a) || (Num.eqb (fst a) (fst b) && Num.leb (snd b) (snd a)).

Fixpoint insert_desc (a : Qc * Qc) (l : list (Qc * Qc)) : list (Qc * Qc) :=
  match l with
  | [] => [a]
  | b :: rest => if pair_geb a b then a :: l else b :: insert_desc a rest
  end.

Definition sorted_reverse (l : list (Qc * Qc)) : list (Qc * Qc) :=
  fold_right insert_desc [] l.

Fixpoint first_boundary (percentage : Qc) (l : list (Qc * Qc)) : Qc :=
  match l with
  | [] => 0
  | (gpa, minimum) :: rest =>
      if Num.leb minimum percentage then Num.float gpa
      else first_boundary percentage rest
  end.

Definition get_gpa_points (self : t) (percentage : Qc) : Qc :=
  match self.(grade_boundaries) with
  | [] => 0
  | _ :: _ =>
      let percentage := Num.float percentage in
      first_boundary percentage
        (sorted_reverse
           (map (fun kv => (Num.float (fst kv), Num.float (snd kv)))
              self.(grade_boundaries)))
  end.

End Course.

(** ** [src/main.py]: the requirement solver of [GPACalculator] *)

Module GPACalculator.

(** The entries of [final_policy_combo] ([setup_final_policy_section]). *)
Definition final_policy_items : list string :=
  [ "No Replacement";
    "Replace Lowest Test (Experimental, use at own risk)";
    "Average with Lowest Test (Experimental, use at own risk)" ].

(** [d[k]], raising [KeyError] on a missing key. *)
Definition getitem {V} (k : string) (d : Dict.t string V) : result V :=
  match Dict.get String.eqb k d with
  | Some v => Ok v
  | None => Raise (KeyError k)
  end.

(** [x / n] for a float [x] and an int [n]. *)
Definition truediv (x : Qc) (n : Z) : result Qc :=
  if (n =? 0)%Z then Raise ZeroDivisionError else Ok (x / Num.of_Z n).

Definition msg_final : string :=
  "Cannot achieve the target grade with the remaining Final".
Definition msg_no_solution : string := "Could not find a valid solution".
Definition msg_range : string := "Required grades would be outside possible range".

(** What the loop "Group by category" carries. *)
Record grouping : Type := mk_grouping {
  categories_needing_grades : list string;
  remaining_weights : list Qc;
  num_remaining : list nat;
  current_category : option string;
  count : nat
}.

Section Solver.

(** [self.current_course] and [self.final_policy_combo.currentText()]. *)
Variable current_course : Course.t.
Variable final_policy_text : string.

(** [np.round(minimize(objective, initial_guess, method='SLSQP', ...).x, 2)],
    or [None] when [result.success] is false.  The arguments are what the
    objective, the constraint and the initial guess are built from:
    [all_remaining_grades], [remaining_weights], [target_grade] and
    [current_contribution]. *)
Variable minimize :
  list (string * Qc) -> list Qc -> Qc -> Qc -> option (list Qc).

Definition drops_of (category : string) : result Z :=
  bind (getitem category current_course.(Course.categories))
       (fun c => Ok c.(GradeCategory.drops)).

(** "Process drops first": one turn of the loop over [current_grades]. *)
Definition process_drops_step (processed_grades : Dict.t string (list Qc))
    (item : string * list Qc) : result (Dict.t string (list Qc)) :=
  let '(category, grades) := item in
  match grades with
  | _ :: _ =>
      let sorted_grades := Num.sorted grades in
      bind (drops_of category) (fun drops =>
      let sorted_grades :=
        if (0 <? drops)%Z && (drops <? Z.of_nat (List.length sorted_grades))%Z
        then Num.slice_from drops sorted_grades
        else sorted_grades in
      Ok (Dict.set String.eqb category sorted_grades processed_grades))
  | [] => Ok (Dict.set String.eqb category [] processed_grades)
  end.

Definition process_drops (current_grades : Dict.t string (list Qc))
  : result (Dict.t string (list Qc)) :=
  foldM process_drops_step current_grades [].

(** [total_assignments[category] - self.current_course.categories[category].drops] *)
Definition effective_total_of (total_assignments : Dict.t string Z)
    (category : string) : result Z :=
  bind (getitem category total_assignments) (fun total =>
  bind (drops_of category) (fun drops =>
  Ok (total - drops)%Z)).

(** "Calculate current contribution": one turn of the loop over
    [processed_grades].  The state is [(current_contribution,
    total_weight_used, np)]; [np] records that [current_contribution] has
    become a NumPy float (it starts as the Python int [0] and [avg] is a
    [np.float64]), which decides what a later division by zero does. *)
Definition contribution_step (weights : Dict.t string Qc)
    (total_assignments : Dict.t string Z) (acc : Qc * Qc * bool)
    (item : string * list Qc) : result (Qc * Qc * bool) :=
  let '(current_contribution, total_weight_used, np) := acc in
  let '(category, grades) := item in
  match grades with
  | [] => Ok acc
  | _ :: _ =>
      let avg := Num.mean grades in
      bind (effective_total_of total_assignments category) (fun effective_total =>
      bind (getitem category weights) (fun weight =>
      bind (truediv (Num.len grades) effective_total) (fun fraction =>
      let completed_weight := weight * fraction in
      Ok (current_contribution + avg * completed_weight,
          total_weight_used + completed_weight,
          true))))
  end.

Definition calculate_current_contribution
    (processed_grades : Dict.t string (list Qc)) (weights : Dict.t string Qc)
    (total_assignments : Dict.t string Z) : result (Qc * Qc * bool) :=
  bind (foldM (contribution_step weights total_assignments) processed_grades
          (0, 0, false))
       (fun '(current_contribution, total_weight_used, np) =>
          if Num.ltb 0 total_weight_used
          then Ok (current_contribution / total_weight_used * total_weight_used,
                   total_weight_used, np)
          else Ok (current_contribution, total_weight_used, np)).

(** The slots a category named "Final" adds under [apply_final_policy]. *)
Definition final_slots (weights : Dict.t string Qc)
    (total_assignments : Dict.t string Z) (final_weight : Qc)
  : result (list (string * Qc)) :=
  if (final_policy_text =? "Replace Lowest Test")%string then
    if Dict.mem String.eqb "Test" weights
       && Dict.mem String.eqb "Test" total_assignments
    then
      bind (getitem "Test" weights) (fun w =>
      bind (getitem "Test" total_assignments) (fun n =>
      bind (truediv w n) (fun test_weight =>
      Ok [("Final", final_weight + test_weight)])))
    else Ok [("Final", final_weight)]
  else if (final_policy_text =? "Average with Lowest Test")%string then
    if Dict.mem String.eqb "Test" weights
       && Dict.mem String.eqb "Test" total_assignments
    then
      bind (getitem "Test" weights) (fun w =>
      bind (getitem "Test" total_assignments) (fun n =>
      bind (truediv w n) (fun test_weight =>
      Ok [("Final", final_weight); ("Test", test_weight / Num.of_Z 2)])))
    else Ok [("Final", final_weight)]
  else Ok [("Final", final_weight)].

(** "Calculate remaining assignments needed": one turn of the loop over
    [weights]. *)
Definition remaining_step (processed_grades : Dict.t string (list Qc))
    (weights : Dict.t string Qc) (total_assignments : Dict.t string Z)
    (apply_final_policy : bool) (all_remaining_grades : list (string * Qc))
    (item : string * Qc) : result (list (string * Qc)) :=
  let '(category, weight) := item in
  bind (effective_total_of total_assignments category) (fun effective_total =>
  bind (getitem category processed_grades) (fun grades =>
  let current_count := Z.of_nat (List.length grades) in
  let remaining := Z.max 0 (effective_total - current_count) in
  if (0 <? remaining)%Z then
    if (category =? "Test")%string && apply_final_policy then
      bind (truediv weight effective_total) (fun weight_per =>
      Ok (all_remaining_grades
            ++ repeat (category, weight_per) (Z.to_nat (remaining - 1))))
    else if (category =? "Final")%string && apply_final_policy then
      bind (truediv weight effective_total) (fun final_weight =>
      bind (final_slots weights total_assignments final_weight) (fun slots =>
      Ok (all_remaining_grades ++ slots)))
    else
      bind (truediv weight effective_total) (fun weight_per =>
      Ok (all_remaining_grades
            ++ repeat (category, weight_per) (Z.to_nat remaining)))
  else Ok all_remaining_grades)).

Definition remaining_slots (processed_grades : Dict.t string (list Qc))
    (weights : Dict.t string Qc) (total_assignments : Dict.t string Z)
    (apply_final_policy : bool) : result (list (string * Qc)) :=
  foldM (remaining_step processed_grades weights total_assignments
           apply_final_policy) weights [].

(** "Check if only the Final is remaining": [needed_grade].  Dividing a
    Python float by [0.0] raises; dividing a NumPy float by it gives an
    infinity or NaN, which the range test then rejects. *)
Definition only_final (target_grade current_contribution : Qc) (np : bool)
    (final_weight : Qc) : result (Dict.t string (list Qc)) :=
  if Num.eqb final_weight 0 then
    if np then Raise (ValueError msg_final) else Raise ZeroDivisionError
  else
    let needed_grade := (target_grade - current_contribution) / final_weight in
    if Num.leb 0 needed_grade && Num.leb needed_grade (Num.of_Z 100)
    then Ok [("Final", [needed_grade])]
    else Raise (ValueError msg_final).

(** "Group by category and collect weights", and "Add the last category". *)
Definition group_step (g : grouping) (slot : string * Qc) : grouping :=
  let '(category, weight) := slot in
  let g :=
    match g.(current_category) with
    | Some current =>
        if (category =? current)%string
        then mk_grouping g.(categories_needing_grades) g.(remaining_weights)
               g.(num_remaining) g.(current_category) (S g.(count))
        else mk_grouping (g.(categories_needing_grades) ++ [current])
               g.(remaining_weights) (g.(num_remaining) ++ [g.(count)])
               (Some category) 1
    | None =>
        mk_grouping g.(categories_needing_grades) g.(remaining_weights)
          g.(num_remaining) (Some category) 1
    end in
  mk_grouping g.(categories_needing_grades) (g.(remaining_weights) ++ [weight])
    g.(num_remaining) g.(current_category) g.(count).

Definition group_by_category (all_remaining_grades : list (string * Qc))
  : grouping :=
  let g := fold_left group_step all_remaining_grades
             (mk_grouping [] [] [] None 0) in
  match g.(current_category) with
  | Some current =>
      mk_grouping (g.(categories_needing_grades) ++ [current])
        g.(remaining_weights) (g.(num_remaining) ++ [g.(count)])
        g.(current_category) g.(count)
  | None => g
  end.

(** "Format results": [results[cat] = list(grades[idx:idx+num])]. *)
Definition format_step (grades : list Qc)
    (acc : Dict.t string (list Qc) * nat) (item : string * nat)
  : Dict.t string (list Qc) * nat :=
  let '(results, idx) := acc in
  let '(cat, num) := item in
  (Dict.set String.eqb cat (firstn num (skipn idx grades)) results,
   (idx + num)%nat).

Definition format_results (g : grouping) (grades : list Qc)
  : Dict.t string (list Qc) :=
  fst (fold_left (format_step grades)
         (combine g.(categories_needing_grades) g.(num_remaining)) ([], 0%nat)).

Definition find_minimum_balanced_grades
    (current_grades : Dict.t string (list Qc)) (weights : Dict.t string Qc)
    (total_assignments : Dict.t string Z) (target_grade : Qc)
    (apply_final_policy : bool) : result (Dict.t string (list Qc)) :=
  bind (process_drops current_grades) (fun processed_grades =>
  bind (calculate_current_contribution processed_grades weights
          total_assignments)
       (fun '(current_contribution, total_weight_used, np) =>
  bind (remaining_slots processed_grades weights total_assignments
          apply_final_policy) (fun all_remaining_grades =>
  match all_remaining_grades with
  | [] => Ok []
  | (category, final_weight) :: rest =>
      if (List.length all_remaining_grades =? 1)%nat
         && (category =? "Final")%string
      then only_final target_grade current_contribution np final_weight
      else
        let g := group_by_category all_remaining_grades in
        match minimize all_remaining_grades g.(remaining_weights) target_grade
                current_contribution with
        | None => Raise (ValueError msg_no_solution)
        | Some grades =>
            if existsb (fun x => Num.ltb x 0) grades
               || existsb (fun x => Num.ltb (Num.of_Z 100) x) grades
            then Raise (ValueError msg_range)
            else Ok (format_results g grades)
        end
  end))).

(** [calculate_required_grades]: the dictionaries handed to the solver. *)
Definition current_grades_of : Dict.t string (list Qc) :=
  Dict.comprehension String.eqb (fun name => name)
    (fun _ category => category.(GradeCategory.grades))
    current_course.(Course.categories).

Definition weights_of : Dict.t string Qc :=
  Dict.comprehension String.eqb (fun name => name)
    (fun _ category => category.(GradeCategory.weight) / Num.of_Z 100)
    current_course.(Course.categories).

Definition total_assignments_of : Dict.t string Z :=
  Dict.comprehension String.eqb (fun name => name)
    (fun _ category => category.(GradeCategory.total_assignments))
    current_course.(Course.categories).

(** [lowest_test_grade is not None] *)
Definition has_lowest_test_grade : bool :=
  match Dict.get String.eqb "Test" current_grades_of with
  | Some (_ :: _) => true
  | _ => false
  end.

(** [calculate_required_grades]: the call it makes for one grade boundary. *)
Definition required_grades_for (boundary : Qc)
  : result (Dict.t string (list Qc)) :=
  let policy := final_policy_text in
  if negb (policy =? "No Replacement")%string
     && Dict.mem String.eqb "Test" current_grades_of
     && has_lowest_test_grade
  then find_minimum_balanced_grades current_grades_of weights_of
         total_assignments_of (Num.float boundary) true
  else find_minimum_balanced_grades current_grades_of weights_of
         total_assignments_of (Num.float boundary) false.

End Solver.

End GPACalculator.

(** ** The query operations on the object store

    [Course] above reads a course as a value.  Here the course is a Python
    object: every [grades] attribute is a reference to a list object in a
    store, several names may hold the same reference, and [l[i] = v] writes
    into the list the reference names.  The three query methods of
    [src/course.py] are written again as programs over that store. *)

Module Store.

Definition ref : Type := nat.

(** The list objects, by allocation order. *)
Definition t : Type := list (list Qc).

Definition read (r : ref) (h : t) : list Qc := nth r h [].

Fixpoint write (r : ref) (l : list Qc) (h : t) : t :=
  match h, r with
  | [], _ => []
  | _ :: rest, O => l :: rest
  | x :: rest, S r' => x :: write r' l rest
  end.

(** [l[0] = v] on a list value; a no-op stands for the [IndexError] of an
    empty list, which the callers below exclude by a test. *)
Definition setitem0 (v : Qc) (l : list Qc) : list Qc :=
  match l with
  | [] => []
  | _ :: rest => v :: rest
  end.

(** [h'] has every list object of [h], with the same contents, and maybe
    newer ones. *)
Definition extends (h h' : t) : Prop := exists newer, h' = h ++ newer.

End Store.

Module CourseObject.

Record category : Type := mk_category {
  name : string;
  weight : Qc;
  total_assignments : Z;
  drops : Z;
  grades : Store.ref
}.

Record course : Type := mk_course {
  course_name : string;
  credit_hours : Qc;
  categories : Dict.t string category;
  grade_boundaries : Dict.t Qc Qc;
  semester : string;
  final_policy : string
}.

(** The attributes of [self] and of its categories, and the list objects. *)
Record state : Type := mk_state {
  self : course;
  lists : Store.t
}.

Definition M (A : Type) : Type := state -> A * state.

Definition ret {A} (a : A) : M A := fun s => (a, s).

Definition bindM {A B} (m : M A) (f : A -> M B) : M B :=
  fun s => let '(a, s') := m s in f a s'.

(** Reading an attribute of [self]. *)
Definition attr {A} (f : course -> A) : M A := fun s => (f s.(self), s).

(** A new list object holding [l]. *)
Definition new_list (l : list Qc) : M Store.ref :=
  fun s => (List.length s.(lists), mk_state s.(self) (s.(lists) ++ [l])).

Definition read_list (r : Store.ref) : M (list Qc) :=
  fun s => (Store.read r s.(lists), s).

(** [r[0] = v] *)
Definition setitem0 (r : Store.ref) (v : Qc) : M unit :=
  fun s =>
    (tt, mk_state s.(self)
           (Store.write r (Store.setitem0 v (Store.read r s.(lists))) s.(lists))).

Declare Scope store_scope.
Delimit Scope store_scope with store.
Notation "x <- m ;; k" := (bindM m (fun x => k))
  (at level 61, m at next level, right associativity) : store_scope.

Local Open Scope store_scope.

(** "Handle final exam replacement if applicable"; [grades] is the local
    variable of [calculate_category_average]. *)
Definition final_exam_replacement (category_name : string) (grades : Store.ref)
  : M unit :=
  cats <- attr categories ;;
  policy <- attr final_policy ;;
  if (category_name =? "Test")%string
     && Dict.mem String.eqb "Final" cats
     && negb (policy =? "No Replacement")%string
  then
    match Dict.get String.eqb "Final" cats with
    | None => ret tt
    | Some final =>
        recorded <- read_list final.(CourseObject.grades) ;;
        final_grades <- new_list (map Num.float recorded) ;;
        fg <- read_list final_grades ;;
        match fg with
        | [] => ret tt
        | final_grade :: _ =>
            g <- read_list grades ;;
            if (policy =? "Replace Lowest Test")%string then
              match g with
              | g0 :: _ =>
                  if Num.ltb g0 final_grade
                  then setitem0 grades final_grade
                  else ret tt
              | [] => ret tt
              end
            else if (policy =? "Average with Lowest Test")%string then
              match g with
              | g0 :: _ => setitem0 grades ((g0 + final_grade) / Num.of_Z 2)
              | [] => ret tt
              end
            else ret tt
        end
    end
  else ret tt.

Definition calculate_category_average (category_name : string) : M Qc :=
  cats <- attr categories ;;
  match Dict.get String.eqb category_name cats with
  | None => ret 0
  | Some category =>
      recorded <- read_list category.(CourseObject.grades) ;;
      match recorded with
      | [] => ret 0
      | _ :: _ =>
          sorted <- new_list (Num.sorted recorded) ;;
          s <- read_list sorted ;;
          grades <- new_list (map Num.float s) ;;
          grades <-
            (if (0 <? category.(drops))%Z
             then g <- read_list grades ;;
                  new_list (Num.slice_from category.(drops) g)
             else ret grades) ;;
          _ <- final_exam_replacement category_name grades ;;
          g <- read_list grades ;;
          ret (Num.mean_or_zero g)
      end
  end.

(** [for name, category in self.categories.items()] of
    [calculate_current_grade]. *)
Fixpoint current_grade_loop (items : list (string * category)) (acc : Qc * Qc)
  : M (Qc * Qc) :=
  match items with
  | [] => ret acc
  | (name, category) :: rest =>
      recorded <- read_list category.(CourseObject.grades) ;;
      match recorded with
      | [] => current_grade_loop rest acc
      | _ :: _ =>
          average <- calculate_category_average name ;;
          let weight := Num.float category.(weight) / Num.of_Z 100 in
          current_grade_loop rest
            (fst acc + Num.float average * weight, snd acc + weight)
      end
  end.

Definition calculate_current_grade : M Qc :=
  cats <- attr categories ;;
  totals <- current_grade_loop cats (0, 0) ;;
  if Num.ltb 0 (snd totals) then ret (fst totals / snd totals) else ret 0.

Definition get_gpa_points (percentage : Qc) : M Qc :=
  boundaries <- attr grade_boundaries ;;
  match boundaries with
  | [] => ret 0
  | _ :: _ =>
      let percentage := Num.float percentage in
      ret (Course.first_boundary percentage
             (Course.sorted_reverse
                (map (fun kv => (Num.float (fst kv), Num.float (snd kv)))
                   boundaries)))
  end.

(** The course a state holds, read as a value. *)
Definition snapshot_category (h : Store.t) (c : category) : GradeCategory.t :=
  GradeCategory.mk c.(name) c.(weight) c.(total_assignments) c.(drops)
    (Store.read c.(grades) h).

Definition snapshot (s : state) : Course.t :=
  Course.mk s.(self).(course_name) s.(self).(credit_hours)
    (map (fun kv => (fst kv, snapshot_category s.(lists) (snd kv)))
       s.(self).(categories))
    s.(self).(grade_boundaries) s.(self).(semester) s.(self).(final_policy).

(** No attribute was assigned and no list object that existed was changed. *)
Definition unchanged (s s' : state) : Prop :=
  s'.(self) = s.(self) /\ Store.extends s.(lists) s'.(lists).

(** Every [grades] attribute names a list object of the store. *)
Definition valid (s : state) : Prop :=
  forall item, In item s.(self).(categories) ->
    (grades (snd item) < List.length s.(lists))%nat.

End CourseObject.

(** ** [src/main.py]: the handlers that edit a course

    A handler reads its input fields, checks them and either edits
    [self.current_course] or shows a message box and returns.  The text of a
    field is taken as read by [float()] or [int()]; the widgets, the tables
    and the formatting of the messages are left out. *)

Module MainWindow.

(** The stripped text of an input field: empty, refused by [float()] or
    [int()] with a [ValueError], or the finite number it denotes.
    [float()] also accepts "nan" ([ParsedNan]) and the infinities
    ([ParsedInf]: "inf", "-inf", and a literal beyond the doubles such as
    "1e999"); [int()] refuses these texts as it refuses a malformed one. *)
Inductive field (A : Type) : Type :=
| Blank
| Malformed
| Parsed (a : A)
| ParsedNan
| ParsedInf (negative : bool).

Arguments Blank {A}.
Arguments Malformed {A}.
Arguments Parsed {A} a.
Arguments ParsedNan {A}.
Arguments ParsedInf {A} negative.

(** What [float()] returns: a finite number, NaN or an infinity. *)
Inductive float_value : Type :=
| Finite (x : Qc)
| Nan
| Infinite (negative : bool).

(** [float(text)]; [None] is its [ValueError]. *)
Definition read_float (text : field Qc) : option float_value :=
  match text with
  | Blank => None
  | Malformed => None
  | Parsed x => Some (Finite x)
  | ParsedNan => Some Nan
  | ParsedInf negative => Some (Infinite negative)
  end.

(** [int(text)]; [None] is its [ValueError]. *)
Definition read_int (text : field Z) : option Z :=
  match text with
  | Parsed n => Some n
  | _ => None
  end.

(** [x < 0 or x > 100]: a comparison with NaN is false. *)
Definition outside_0_100 (x : float_value) : bool :=
  match x with
  | Finite x => Num.ltb x 0 || Num.ltb (Num.of_Z 100) x
  | Nan => false
  | Infinite _ => true
  end.

(** [x >= y] on floats. *)
Definition float_geb (x y : float_value) : bool :=
  match x, y with
  | Nan, _ => false
  | _, Nan => false
  | Finite a, Finite b => Num.leb b a
  | Finite _, Infinite negative => negative
  | Infinite negative, Finite _ => negb negative
  | Infinite negative, Infinite negative' => negb negative || negative'
  end.

(** The message boxes of the handlers below. *)
Inductive message : Type :=
| NoCourseSelected
| FillAllRequiredFields
| NotANumber
| WeightOutOfRange
| TotalAssignmentsNegative
| DropsOutOfRange
| CategoryAlreadyExists
| SelectCategory
| EnterGrade
| GradeOutOfRange
| NoMoreAssignments (total_assignments : Z)
| ErrorRemovingGrade
| EnterBoundary (gpa : Qc)
| BoundaryOutOfRange (gpa : Qc)
| BoundariesNotDescending.

(** How a handler ends: the edited course, a message box (nothing edited), a
    plain [return] (nothing edited), an exception no [except] catches, or
    [StoredNan]: the handler went through and stored a NaN (as a weight, a
    grade or a boundary), so that the edited course is not a value of this
    model, whose numbers are rationals. *)
Inductive outcome : Type :=
| Updated (course : Course.t)
| Shown (m : message)
| Returned
| Uncaught (e : exn)
| StoredNan.

Definition is_blank {A} (f : field A) : bool :=
  match f with
  | Blank => true
  | _ => false
  end.

Definition with_categories (course : Course.t)
    (categories : Dict.t string GradeCategory.t) : Course.t :=
  Course.mk course.(Course.name) course.(Course.credit_hours) categories
    course.(Course.grade_boundaries) course.(Course.semester)
    course.(Course.final_policy).

Definition with_grades (category : GradeCategory.t) (grades : list Qc)
  : GradeCategory.t :=
  GradeCategory.mk category.(GradeCategory.name) category.(GradeCategory.weight)
    category.(GradeCategory.total_assignments) category.(GradeCategory.drops)
    grades.

(** [add_category] *)
Definition add_category (current_course : option Course.t) (name : string)
    (weight_text : field Qc) (assignments_text drops_text : field Z) : outcome :=
  match current_course with
  | None => Shown NoCourseSelected
  | Some course =>
      if (name =? "")%string || is_blank weight_text || is_blank assignments_text
      then Shown FillAllRequiredFields
      else
        match read_float weight_text with
        | None => Shown NotANumber
        | Some weight =>
        match read_int assignments_text with
        | None => Shown NotANumber
        | Some total_assignments =>
        match (if is_blank drops_text then Some 0%Z else read_int drops_text) with
        | None => Shown NotANumber
        | Some drops =>
            if outside_0_100 weight
            then Shown WeightOutOfRange
            else if (total_assignments <? 0)%Z
            then Shown TotalAssignmentsNegative
            else if (drops <? 0)%Z || (total_assignments <=? drops)%Z
            then Shown DropsOutOfRange
            else if Dict.mem String.eqb name course.(Course.categories)
            then Shown CategoryAlreadyExists
            else
              match weight with
              | Finite weight =>
                  Updated
                    (with_categories course
                       (Dict.set String.eqb name
                          (GradeCategory.init name weight total_assignments
                             drops)
                          course.(Course.categories)))
              | _ => StoredNan
              end
        end end end
  end.

(** [add_grade]; [category] is the text of the category box. *)
Definition add_grade (current_course : option Course.t) (category : string)
    (grade_text : field Qc) : outcome :=
  match current_course with
  | None => Shown NoCourseSelected
  | Some course =>
      if (category =? "")%string then Shown SelectCategory
      else if is_blank grade_text then Shown EnterGrade
      else
        match read_float grade_text with
        | None => Shown NotANumber
        | Some grade =>
            if outside_0_100 grade
            then Shown GradeOutOfRange
            else
              match Dict.get String.eqb category course.(Course.categories) with
              | None => Uncaught (KeyError category)
              | Some category_obj =>
                  if (category_obj.(GradeCategory.total_assignments)
                      <=? Z.of_nat (List.length category_obj.(GradeCategory.grades)))%Z
                  then Shown (NoMoreAssignments
                                category_obj.(GradeCategory.total_assignments))
                  else
                    match grade with
                    | Finite grade =>
                        Updated
                          (with_categories course
                             (Dict.set String.eqb category
                                (with_grades category_obj
                                   (category_obj.(GradeCategory.grades)
                                    ++ [grade]))
                                course.(Course.categories)))
                    | _ => StoredNan
                    end
              end
        end
  end.

(** [l.remove(x)]: without the first item equal to [x]; [None] is the
    [ValueError] of a list that has none. *)
Fixpoint list_remove (x : Qc) (l : list Qc) : option (list Qc) :=
  match l with
  | [] => None
  | y :: rest =>
      if Num.eqb y x then Some rest
      else match list_remove x rest with
           | Some rest' => Some (y :: rest')
           | None => None
           end
  end.

(** [delete_grade] *)
Definition delete_grade (current_course : option Course.t)
    (category_name : string) (grade : Qc) : outcome :=
  match current_course with
  | None => Returned
  | Some course =>
      match Dict.get String.eqb category_name course.(Course.categories) with
      | Some category_obj =>
          match list_remove grade category_obj.(GradeCategory.grades) with
          | Some grades =>
              Updated
                (with_categories course
                   (Dict.set String.eqb category_name
                      (with_grades category_obj grades)
                      course.(Course.categories)))
          | None => Shown ErrorRemovingGrade
          end
      | None => Returned
      end
  end.

(** [del d[k]] for a key the dictionary has. *)
Fixpoint delitem {V} (k : string) (d : Dict.t string V) : Dict.t string V :=
  match d with
  | [] => []
  | (k', v) :: rest =>
      if (k =? k')%string then rest else (k', v) :: delitem k rest
  end.

(** [delete_category]; [yes] is the answer to the confirmation box. *)
Definition delete_category (current_course : option Course.t) (name : string)
    (yes : bool) : outcome :=
  match current_course with
  | None => Returned
  | Some course =>
      if Dict.mem String.eqb name course.(Course.categories) then
        if yes
        then Updated (with_categories course
                        (delitem name course.(Course.categories)))
        else Returned
      else Returned
  end.

(** [update_final_policy] *)
Definition update_final_policy (current_course : option Course.t)
    (policy : string) : outcome :=
  match current_course with
  | None => Returned
  | Some course =>
      Updated (Course.mk course.(Course.name) course.(Course.credit_hours)
                 course.(Course.categories) course.(Course.grade_boundaries)
                 course.(Course.semester) policy)
  end.

(** The GPA points [setup_boundaries_section] makes an input field for. *)
Definition gpa_points : list Qc :=
  [ Num.of_Z 4; Num.of_Z 7 / Num.of_Z 2; Num.of_Z 3; Num.of_Z 5 / Num.of_Z 2;
    Num.of_Z 2 ].

(** [save_boundaries]: the first loop, which reads the fields.  A NaN
    passes the range test and is stored. *)
Fixpoint read_boundaries (inputs : Dict.t Qc (field Qc))
    (new_boundaries : Dict.t Qc float_value)
  : message + Dict.t Qc float_value :=
  match inputs with
  | [] => inr new_boundaries
  | (gpa, input_field) :: rest =>
      if is_blank input_field then inl (EnterBoundary gpa)
      else
        match read_float input_field with
        | None => inl NotANumber
        | Some value =>
            if outside_0_100 value
            then inl (BoundaryOutOfRange gpa)
            else read_boundaries rest
                   (Dict.set Num.eqb gpa value new_boundaries)
        end
  end.

(** [save_boundaries]: "Verify boundaries are in descending order", over the
    keys in descending order, from [prev_value].  A NaN is not [>=] the
    value before it, and no value after it is [>=] the NaN. *)
Fixpoint descending_from (new_boundaries : Dict.t Qc float_value)
    (keys : list Qc) (prev_value : float_value) : bool :=
  match keys with
  | [] => true
  | gpa :: rest =>
      match Dict.get Num.eqb gpa new_boundaries with
      | None => false
      | Some value =>
          if float_geb value prev_value then false
          else descending_from new_boundaries rest value
      end
  end.

(** The boundaries read, when none of them is a NaN. *)
Fixpoint finite_boundaries (new_boundaries : Dict.t Qc float_value)
  : option (Dict.t Qc Qc) :=
  match new_boundaries with
  | [] => Some []
  | (gpa, Finite value) :: rest =>
      match finite_boundaries rest with
      | Some boundaries => Some ((gpa, value) :: boundaries)
      | None => None
      end
  | _ => None
  end.

(** [sorted(l, reverse=True)] on floats. *)
Definition sorted_descending (l : list Qc) : list Qc := rev (Num.sorted l).

(** [save_boundaries]; [boundary_inputs] maps each GPA point to its field. *)
Definition save_boundaries (current_course : option Course.t)
    (boundary_inputs : Dict.t Qc (field Qc)) : outcome :=
  match current_course with
  | None => Shown NoCourseSelected
  | Some course =>
      match read_boundaries boundary_inputs [] with
      | inl m => Shown m
      | inr new_boundaries =>
          if descending_from new_boundaries
               (sorted_descending (Dict.keys new_boundaries))
               (Finite (Num.of_Z 101))
          then
            match finite_boundaries new_boundaries with
            | Some boundaries =>
                Updated
                  (Course.mk course.(Course.name) course.(Course.credit_hours)
                     course.(Course.categories) boundaries
                     course.(Course.semester) course.(Course.final_policy))
            | None => StoredNan
            end
          else Shown BoundariesNotDescending
      end
  end.

(** One row of a semester in [update_gpa]. *)
Record course_row : Type := mk_row {
  row_name : string;
  row_credit_hours : Qc;
  row_current_grade : Qc;
  row_gpa_points : Qc
}.

(** An entry of [semester_data]. *)
Record semester_entry : Type := mk_entry {
  entry_courses : list course_row;
  entry_total_points : Qc;
  entry_total_hours : Qc
}.

(** [update_gpa]: one turn of the loop over [self.courses]; the state is
    [(semester_data, total_points, total_hours)]. *)
Definition gpa_step (acc : Dict.t string semester_entry * Qc * Qc)
    (item : string * Course.t) : Dict.t string semester_entry * Qc * Qc :=
  let '(semester_data, total_points, total_hours) := acc in
  let '(course_name, course) := item in
  let semester := course.(Course.semester) in
  let semester_data :=
    if Dict.mem String.eqb semester semester_data then semester_data
    else Dict.set String.eqb semester (mk_entry [] 0 0) semester_data in
  let current_grade := Course.calculate_current_grade course in
  let gpa_points := Course.get_gpa_points course current_grade in
  let semester_data :=
    match Dict.get String.eqb semester semester_data with
    | Some entry =>
        Dict.set String.eqb semester
          (mk_entry
             (entry.(entry_courses)
              ++ [mk_row course_name course.(Course.credit_hours) current_grade
                    gpa_points])
             (entry.(entry_total_points)
              + gpa_points * course.(Course.credit_hours))
             (entry.(entry_total_hours) + course.(Course.credit_hours)))
          semester_data
    | None => semester_data
    end in
  (semester_data,
   total_points + gpa_points * course.(Course.credit_hours),
   total_hours + course.(Course.credit_hours)).

(** [update_gpa]: the data it collects before drawing the table. *)
Definition gpa_totals (courses : Dict.t string Course.t)
  : Dict.t string semester_entry * Qc * Qc :=
  fold_left gpa_step courses ([], 0, 0).

(** [total_points / total_hours] when [total_hours > 0], else no row. *)
Definition gpa_of (total_points total_hours : Qc) : option Qc :=
  if Num.ltb 0 total_hours then Some (total_points / total_hours) else None.

(** The "Overall GPA" row of [update_gpa]. *)
Definition overall_gpa (courses : Dict.t string Course.t) : option Qc :=
  let '(_, total_points, total_hours) := gpa_totals courses in
  gpa_of total_points total_hours.

(** The "Semester GPA" row of a semester. *)
Definition semester_gpa (entry : semester_entry) : option Qc :=
  gpa_of entry.(entry_total_points) entry.(entry_total_hours).

End MainWindow.

(** ** Notions the statements use *)

(** The final-exam substitution applies to the average of [category_name]:
    the category is "Test", the policy is not "No Replacement", and a
    category "Final" has a recorded grade. *)
Definition final_exam_applies (self : Course.t) (category_name : string) : bool :=
  (category_name =? "Test")%string
  && negb (self.(Course.final_policy) =? "No Replacement")%string
  && match Dict.get String.eqb "Final" self.(Course.categories) with
     | Some final =>
         match final.(GradeCategory.grades) with
         | [] => false
         | _ :: _ => true
         end
     | None => false
     end.

(** The grades of a category that count: the ascending grades without the
    lowest [drops]. *)
Definition effective_grades (category : GradeCategory.t) : list Qc :=
  skipn (Z.to_nat category.(GradeCategory.drops))
        (Num.sorted category.(GradeCategory.grades)).

Definition has_grades (item : string * GradeCategory.t) : bool :=
  match (snd item).(GradeCategory.grades) with
  | [] => false
  | _ :: _ => true
  end.

(** What a graded category adds to the two sums of
    [calculate_current_grade]. *)
Definition weighted_average_term (self : Course.t)
    (item : string * GradeCategory.t) : Qc :=
  Course.calculate_category_average self (fst item)
  * ((snd item).(GradeCategory.weight) / Num.of_Z 100).

Definition weight_term (item : string * GradeCategory.t) : Qc :=
  (snd item).(GradeCategory.weight) / Num.of_Z 100.

(** Descending GPA points, as [sorted(..., reverse=True)] leaves the pairs. *)
Definition gpa_desc (a b : Qc * Qc) : Prop := fst b <= fst a.

(** The minimum percentages descend strictly as the GPA points descend. *)
Definition descending_boundaries (boundaries : Dict.t Qc Qc) : Prop :=
  forall gpa1 minimum1 gpa2 minimum2,
    In (gpa1, minimum1) boundaries -> In (gpa2, minimum2) boundaries ->
    gpa2 < gpa1 -> minimum2 < minimum1.

(** [effective_total] of the solver: the capacity without the drops. *)
Definition effective_total (category : GradeCategory.t) : Z :=
  (category.(GradeCategory.total_assignments) - category.(GradeCategory.drops))%Z.

(** The grades of a category the solver keeps ("Process drops first"): the
    ascending grades, without the lowest [drops] only when more than [drops]
    grades are recorded. *)
Definition kept_grades (category : GradeCategory.t) : list Qc :=
  match category.(GradeCategory.grades) with
  | [] => []
  | _ :: _ =>
      let sorted_grades := Num.sorted category.(GradeCategory.grades) in
      if (0 <? category.(GradeCategory.drops))%Z
         && (category.(GradeCategory.drops)
             <? Z.of_nat (List.length sorted_grades))%Z
      then Num.slice_from category.(GradeCategory.drops) sorted_grades
      else sorted_grades
  end.

(** The share of a category's slots that the kept grades fill. *)
Definition completed_fraction (category : GradeCategory.t) : Qc :=
  Num.len (kept_grades category) / Num.of_Z (effective_total category).

(** What a category adds to [current_contribution] and to
    [total_weight_used]. *)
Definition contribution_term (self : Course.t)
    (item : string * GradeCategory.t) : Qc :=
  if has_grades item
  then Course.calculate_category_average self (fst item)
       * ((snd item).(GradeCategory.weight) / Num.of_Z 100
          * completed_fraction (snd item))
  else 0.

Definition completed_weight_term (item : string * GradeCategory.t) : Qc :=
  if has_grades item
  then (snd item).(GradeCategory.weight) / Num.of_Z 100
       * completed_fraction (snd item)
  else 0.

(** What the solver's loop adds for a category: the mean of its kept grades
    times its completed weight. *)
Definition solver_term (item : string * GradeCategory.t) : Qc :=
  if has_grades item
  then Num.mean (kept_grades (snd item))
       * ((snd item).(GradeCategory.weight) / Num.of_Z 100
          * completed_fraction (snd item))
  else 0.

(** Step 1 of the solver on the dictionaries [calculate_required_grades]
    hands it: [(current_contribution, total_weight_used, np)]. *)
Definition solver_contribution (self : Course.t) : result (Qc * Qc * bool) :=
  bind (GPACalculator.process_drops self (GPACalculator.current_grades_of self))
       (fun processed_grades =>
          GPACalculator.calculate_current_contribution self processed_grades
            (GPACalculator.weights_of self)
            (GPACalculator.total_assignments_of self)).

(** Step 2 of the solver on the same dictionaries: [all_remaining_grades]. *)
Definition solver_slots (self : Course.t) (final_policy_text : string)
    (apply_final_policy : bool) : result (list (string * Qc)) :=
  bind (GPACalculator.process_drops self (GPACalculator.current_grades_of self))
       (fun processed_grades =>
          GPACalculator.remaining_slots self final_policy_text processed_grades
            (GPACalculator.weights_of self)
            (GPACalculator.total_assignments_of self) apply_final_policy).

(** Every recorded grade of the course lies in [0, 100]. *)
Definition grades_in_range (self : Course.t) : Prop :=
  forall name c g,
    In (name, c) self.(Course.categories) ->
    In g c.(GradeCategory.grades) ->
    0 <= g /\ g <= Num.of_Z 100.

(** What the handlers check of a category: its name is its key, the weight
    lies in [0, 100], the drops are fewer than the assignments, no more
    grades are recorded than assignments, and every grade lies in
    [0, 100]. *)
Definition consistent_category (name : string) (c : GradeCategory.t) : Prop :=
  c.(GradeCategory.name) = name
  /\ (0 <= c.(GradeCategory.weight)
      /\ c.(GradeCategory.weight) <= Num.of_Z 100)
  /\ (0 <= c.(GradeCategory.drops)
      /\ c.(GradeCategory.drops) < c.(GradeCategory.total_assignments))%Z
  /\ (Z.of_nat (List.length c.(GradeCategory.grades))
      <= c.(GradeCategory.total_assignments))%Z
  /\ (forall g, In g c.(GradeCategory.grades) ->
                0 <= g /\ g <= Num.of_Z 100).

Definition consistent (course : Course.t) : Prop :=
  Dict.wf course.(Course.categories)
  /\ forall name c, In (name, c) course.(Course.categories) ->
                    consistent_category name c.

(** The courses the handlers make out of a new course. *)
Inductive reachable : Course.t -> Prop :=
| reach_new (name : string) (credit_hours : Qc) :
    reachable (Course.init name credit_hours)
| reach_add_category course course' name weight_text assignments_text drops_text :
    reachable course ->
    MainWindow.add_category (Some course) name weight_text assignments_text
      drops_text = MainWindow.Updated course' ->
    reachable course'
| reach_add_grade course course' category grade_text :
    reachable course ->
    MainWindow.add_grade (Some course) category grade_text
    = MainWindow.Updated course' ->
    reachable course'
| reach_delete_grade course course' category grade :
    reachable course ->
    MainWindow.delete_grade (Some course) category grade
    = MainWindow.Updated course' ->
    reachable course'
| reach_delete_category course course' name yes :
    reachable course ->
    MainWindow.delete_category (Some course) name yes
    = MainWindow.Updated course' ->
    reachable course'
| reach_update_final_policy course course' policy :
    reachable course ->
    MainWindow.update_final_policy (Some course) policy
    = MainWindow.Updated course' ->
    reachable course'
| reach_save_boundaries course course' boundary_inputs :
    reachable course ->
    MainWindow.save_boundaries (Some course) boundary_inputs
    = MainWindow.Updated course' ->
    reachable course'.

(** The open slots of a category: effective total minus grades kept, never
    negative. *)
Definition remaining_of (c : GradeCategory.t) : Z :=
  Z.max 0 (effective_total c - Z.of_nat (List.length (kept_grades c))).

(** The weight of one slot of a category. *)
Definition slot_weight (c : GradeCategory.t) : Qc :=
  c.(GradeCategory.weight) / Num.of_Z 100 / Num.of_Z (effective_total c).

(** The slots one category adds to [all_remaining_grades], read off the
    category itself. *)
Definition category_slots (self : Course.t) (final_policy_text : string)
    (apply_final_policy : bool) (item : string * GradeCategory.t)
  : list (string * Qc) :=
  let '(name, c) := item in
  if (0 <? remaining_of c)%Z then
    if (name =? "Test")%string && apply_final_policy then
      repeat (name, slot_weight c) (Z.to_nat (remaining_of c - 1))
    else if (name =? "Final")%string && apply_final_policy then
      match Dict.get String.eqb "Test" self.(Course.categories) with
      | Some test =>
          let test_weight :=
            test.(GradeCategory.weight) / Num.of_Z 100
            / Num.of_Z test.(GradeCategory.total_assignments) in
          if (final_policy_text =? "Replace Lowest Test")%string
          then [("Final", slot_weight c + test_weight)]
          else if (final_policy_text =? "Average with Lowest Test")%string
          then [("Final", slot_weight c); ("Test", test_weight / Num.of_Z 2)]
          else [("Final", slot_weight c)]
      | None => [("Final", slot_weight c)]
      end
    else repeat (name, slot_weight c) (Z.to_nat (remaining_of c))
  else [].

(** The grades of the category "Final" the substitution reads. *)
Definition final_grades_of (self : Course.t) : list Qc :=
  match Dict.get String.eqb "Final" self.(Course.categories) with
  | Some final => final.(GradeCategory.grades)
  | None => []
  end.

(** [update_gpa]: the row of a course in the table, the courses of a
    semester, and the points a row adds. *)
Definition row_of (item : string * Course.t) : MainWindow.course_row :=
  let current_grade := Course.calculate_current_grade (snd item) in
  MainWindow.mk_row (fst item) (snd item).(Course.credit_hours) current_grade
    (Course.get_gpa_points (snd item) current_grade).

Definition in_semester (semester : string) (item : string * Course.t) : bool :=
  ((snd item).(Course.semester) =? semester)%string.

Definition row_points (row : MainWindow.course_row) : Qc :=
  row.(MainWindow.row_gpa_points) * row.(MainWindow.row_credit_hours).

(** What the loop of [update_gpa] has collected once it has gone through
    [processed]. *)
Definition gpa_collected (processed : Dict.t string Course.t)
    (acc : Dict.t string MainWindow.semester_entry * Qc * Qc) : Prop :=
  let '(semester_data, total_points, total_hours) := acc in
  Dict.wf semester_data
  /\ (forall item, In item processed ->
        Dict.mem String.eqb (snd item).(Course.semester) semester_data = true)
  /\ (forall semester entry,
        Dict.get String.eqb semester semester_data = Some entry ->
        entry.(MainWindow.entry_courses)
        = map row_of (filter (in_semester semester) processed)
        /\ entry.(MainWindow.entry_total_points)
           = Num.sum (map row_points entry.(MainWindow.entry_courses))
        /\ entry.(MainWindow.entry_total_hours)
           = Num.sum (map MainWindow.row_credit_hours
                        entry.(MainWindow.entry_courses)))
  /\ total_points
     = Num.sum (map (fun kv => (snd kv).(MainWindow.entry_total_points))
                  semester_data)
  /\ total_hours
     = Num.sum (map (fun kv => (snd kv).(MainWindow.entry_total_hours))
                  semester_data).

(** The categories with open slots, in the order of the course, each with
    the number of its open slots. *)
Definition open_slots (self : Course.t) : list (string * nat) :=
  map (fun item => (fst item, Z.to_nat (remaining_of (snd item))))
    (filter (fun item => (0 <? remaining_of (snd item))%Z)
       self.(Course.categories)).

(** Slots in blocks: [(name, weight, count)] stands for [count] slots
    [(name, weight)]. *)
Definition slot_blocks (blocks : list (string * Qc * nat)) : list (string * Qc) :=
  flat_map (fun b => repeat (fst b) (snd b)) blocks.

(** The slices [grades[idx:idx+num]] that "Format results" takes, one after
    the other. *)
Fixpoint segments (grades : list Qc) (idx : nat) (items : list (string * nat))
  : Dict.t string (list Qc) :=
  match items with
  | [] => []
  | (cat, num) :: rest =>
      (cat, firstn num (skipn idx grades)) :: segments grades (idx + num) rest
  end.

(** ** Example courses *)

Module Examples.

Definition q (z : Z) : Qc := Num.of_Z z.

Definition category (name : string) (weight total drops : Z) (grades : list Z)
  : string * GradeCategory.t :=
  (name, GradeCategory.mk name (q weight) total drops (map q grades)).

Definition course (categories : Dict.t string GradeCategory.t)
    (boundaries : Dict.t Qc Qc) (policy : string) : Course.t :=
  Course.mk "Course" (q 3) categories boundaries "Fall" policy.

Definition boundaries : Dict.t Qc Qc := [(q 4, q 90); (q 3, q 80)].

(** Homework, weight 40, four assignments, one drop, all four recorded. *)
Definition homework : Course.t :=
  course [category "Homework" 40 4 1 [60; 80; 90; 100]%Z] boundaries
    "No Replacement".

(** Quiz, weight 100, two assignments, one recorded. *)
Definition quiz : Course.t :=
  course [category "Quiz" 100 2 0 [85]%Z] boundaries "No Replacement".

(** Homework with one drop and three of four grades recorded. *)
Definition three_of_four : Course.t :=
  course [category "Homework" 100 4 1 [60; 80; 90]%Z] boundaries
    "No Replacement".

(** Every assignment recorded. *)
Definition complete : Course.t :=
  course [category "Homework" 100 2 0 [80; 90]%Z] boundaries "No Replacement".

(** Only the final exam is left. *)
Definition final_left : Course.t :=
  course [category "Homework" 40 1 0 [80]%Z; category "Final" 60 1 0 []]
    boundaries "No Replacement".

(** A test recorded, a test and the final exam left. *)
Definition test_and_final : Course.t :=
  course [category "Test" 40 2 0 [70]%Z; category "Final" 60 1 0 []]
    boundaries "Replace Lowest Test (Experimental, use at own risk)".

(** As [test_and_final], with three tests of which one is dropped. *)
Definition test_with_drop : Course.t :=
  course [category "Test" 40 3 1 [70]%Z; category "Final" 60 1 0 []]
    boundaries "Replace Lowest Test".

(** Two tests and a final exam recorded. *)
Definition tests_and_final_recorded (policy : string) : Course.t :=
  course [category "Test" 40 2 0 [90; 70]%Z; category "Final" 60 1 0 [95]%Z]
    boundaries policy.

(** Only a final exam, of weight 0. *)
Definition weightless_final : Course.t :=
  course [category "Final" 0 1 0 []] boundaries "No Replacement".

(** A recorded homework and a final exam of weight 0. *)
Definition graded_weightless_final : Course.t :=
  course [category "Homework" 100 1 0 [80]%Z; category "Final" 0 1 0 []]
    boundaries "No Replacement".

(** A single boundary with a negative GPA point. *)
Definition negative_gpa : Course.t :=
  course [] [(q (-1), q 50)] "No Replacement".

(** The [homework] course as objects: one category whose [grades] names the
    only list of the store. *)
Definition homework_state : CourseObject.state :=
  CourseObject.mk_state
    (CourseObject.mk_course "Course" (q 3)
       [("Homework", CourseObject.mk_category "Homework" (q 40) 4 1 0%nat)]
       boundaries "Fall" "No Replacement")
    [map q [60; 80; 90; 100]%Z].

(** A course made through the handlers: new, one category added, one grade
    recorded. *)
Definition after (o : MainWindow.outcome) (otherwise : Course.t) : Course.t :=
  match o with
  | MainWindow.Updated course => course
  | _ => otherwise
  end.

Definition edited0 : Course.t := Course.init "Math" (q 3).

Definition edited1 : Course.t :=
  after (MainWindow.add_category (Some edited0) "Homework"
           (MainWindow.Parsed (q 40)) (MainWindow.Parsed 4%Z)
           (MainWindow.Parsed 1%Z)) edited0.

Definition edited2 : Course.t :=
  after (MainWindow.add_grade (Some edited1) "Homework"
           (MainWindow.Parsed (q 90))) edited1.

(** An optimizer that never converges. *)
Definition no_solution
  : list (string * Qc) -> list Qc -> Qc -> Qc -> option (list Qc) :=
  fun _ _ _ _ => None.

End Examples.

(** * Facts about numbers, sorting and dictionaries *)

Section NumFacts.

Lemma leb_le (x y : Qc) : Num.leb x y = true <-> x <= y.
Proof. unfold Num.leb, Qcle. apply Qle_bool_iff. Qed.

Lemma ltb_lt (x y : Qc) : Num.ltb x y = true <-> x < y.
Proof.
  unfold Num.ltb, Qclt. rewrite negb_true_iff.
  split; intros H.
  - apply Qnot_le_lt. intros Hle. apply Qle_bool_iff in Hle. congruence.
  - destruct (Qle_bool y x) eqn:E; [|reflexivity].
    apply Qle_bool_iff in E. exfalso. exact (Qlt_not_le _ _ H E).
Qed.

Lemma ltb_ge (x y : Qc) : Num.ltb x y = false <-> y <= x.
Proof.
  unfold Num.ltb. rewrite negb_false_iff. apply leb_le.
Qed.

Lemma eqb_eq (x y : Qc) : Num.eqb x y = true <-> x = y.
Proof.
  unfold Num.eqb. rewrite Qeq_bool_iff. split; intros H.
  - apply Qc_is_canon. exact H.
  - subst. reflexivity.
Qed.

Lemma fold_plus_acc (l : list Qc) (a : Qc) :
  fold_left Qcplus l a = a + Num.sum l.
Proof.
  unfold Num.sum. revert a.
  induction l as [|x l IH]; intros a; simpl.
  - ring.
  - rewrite IH. rewrite (IH (0 + x)). ring.
Qed.

Lemma sum_cons (x : Qc) (l : list Qc) : Num.sum (x :: l) = x + Num.sum l.
Proof.
  unfold Num.sum at 1. simpl. rewrite fold_plus_acc. ring.
Qed.

Lemma sum_app (l1 l2 : list Qc) : Num.sum (l1 ++ l2) = Num.sum l1 + Num.sum l2.
Proof.
  induction l1 as [|x l1 IH]; simpl.
  - unfold Num.sum at 2. simpl. ring.
  - rewrite !sum_cons, IH. ring.
Qed.

Lemma sum_permutation (l1 l2 : list Qc) :
  Permutation l1 l2 -> Num.sum l1 = Num.sum l2.
Proof.
  induction 1 as [|x l1 l2 _ IH|x y l|l1 l2 l3 _ IH1 _ IH2].
  - reflexivity.
  - rewrite !sum_cons, IH. reflexivity.
  - rewrite !sum_cons. ring.
  - congruence.
Qed.

Lemma sorted_permutation (l : list Qc) : Permutation (Num.sorted l) l.
Proof. symmetry. apply Num.QcSort.Permuted_sort. Qed.

Lemma sorted_ascending (l : list Qc) : StronglySorted Qcle (Num.sorted l).
Proof.
  assert (T : Transitive (fun x y => is_true (Num.QcOrder.leb x y))).
  { intros x y z Hxy Hyz. unfold is_true in *.
    apply leb_le. apply leb_le in Hxy. apply leb_le in Hyz.
    eapply Qcle_trans; eassumption. }
  pose proof (Num.QcSort.StronglySorted_sort l T) as S.
  unfold Num.sorted.
  induction S as [|x l' S IH Hx]; constructor.
  - exact IH.
  - rewrite Forall_forall in *. intros y Hy. apply leb_le. apply Hx. exact Hy.
Qed.

Lemma sorted_length (l : list Qc) : List.length (Num.sorted l) = List.length l.
Proof. apply Permutation_length. apply sorted_permutation. Qed.

Lemma sorted_nil_inv (l : list Qc) : Num.sorted l = [] -> l = [].
Proof.
  intros H. apply length_zero_iff_nil. rewrite <- sorted_length, H. reflexivity.
Qed.

Lemma map_float (l : list Qc) : map Num.float l = l.
Proof. unfold Num.float. apply map_id. Qed.

Lemma mean_permutation (l1 l2 : list Qc) :
  Permutation l1 l2 -> Num.mean l1 = Num.mean l2.
Proof.
  intros P. unfold Num.mean, Num.len.
  rewrite (sum_permutation _ _ P), (Permutation_length P). reflexivity.
Qed.

End NumFacts.

(** Equations between computed values: rationals are compared by their
    canonical fractions. *)
Ltac qc_eq_rec :=
  lazymatch goal with
  | |- @eq Qc _ _ => apply Qc_is_canon; vm_compute; reflexivity
  | |- _ => first [ reflexivity | progress f_equal; qc_eq_rec ]
  end.

Ltac qc_eq := vm_compute; qc_eq_rec.

Ltac qc_le := apply leb_le; vm_compute; reflexivity.
Ltac qc_lt := apply ltb_lt; vm_compute; reflexivity.

(** * [Course]: category average and current grade *)

Section CourseFacts.

Lemma drop_step (d : Z) (l : list Qc) :
  (if (0 <? d)%Z then Num.slice_from d l else l) = skipn (Z.to_nat d) l.
Proof.
  unfold Num.slice_from. destruct (0 <? d)%Z eqn:E; [reflexivity|].
  apply Z.ltb_ge in E. replace (Z.to_nat d) with O by lia. reflexivity.
Qed.

Lemma final_exam_replacement_nil (self : Course.t) (name : string) :
  Course.final_exam_replacement self name [] = [].
Proof.
  unfold Course.final_exam_replacement.
  repeat match goal with
         | |- context [if ?b then _ else _] => destruct b
         | |- context [match ?x with _ => _ end] => destruct x
         end; reflexivity.
Qed.

Lemma final_exam_replacement_skip (self : Course.t) (name : string)
    (grades : list Qc) :
  final_exam_applies self name = false ->
  Course.final_exam_replacement self name grades = grades.
Proof.
  unfold final_exam_applies, Course.final_exam_replacement, Dict.mem.
  destruct (name =? "Test")%string; simpl; [|reflexivity].
  destruct (Dict.get String.eqb "Final" (Course.categories self)) as [final|];
    simpl; [|reflexivity].
  destruct (Course.final_policy self =? "No Replacement")%string; simpl;
    [reflexivity|].
  destruct (GradeCategory.grades final); simpl; [reflexivity|discriminate].
Qed.

(** The average of a category the course has, as one expression. *)
Lemma calculate_category_average_eq (self : Course.t) (name : string)
    (category : GradeCategory.t) :
  Dict.get String.eqb name self.(Course.categories) = Some category ->
  Course.calculate_category_average self name
  = Num.mean_or_zero
      (Course.final_exam_replacement self name (effective_grades category)).
Proof.
  intros Hget. unfold Course.calculate_category_average, effective_grades.
  rewrite Hget.
  destruct (GradeCategory.grades category) as [|g gs] eqn:Eg.
  - change (Num.sorted []) with (@nil Qc). rewrite skipn_nil.
    rewrite final_exam_replacement_nil. reflexivity.
  - cbv zeta. rewrite map_float, drop_step. reflexivity.
Qed.

End CourseFacts.

(** C3. For a category with at least one recorded grade to which no final-exam
    substitution applies, [calculate_category_average] is the arithmetic mean
    of the grades left after sorting ascending and removing the lowest
    [drops]; it is [0] when none is left; with [drops = 0] it is the mean of
    all recorded grades. *)
Theorem category_average_mean_after_drops
    (self : Course.t) (name : string) (category : GradeCategory.t)
    (Hget : Dict.get String.eqb name self.(Course.categories) = Some category)
    (Hrecorded : category.(GradeCategory.grades) <> [])
    (Hfinal : final_exam_applies self name = false) :
  let recorded := category.(GradeCategory.grades) in
  let effective := skipn (Z.to_nat category.(GradeCategory.drops))
                         (Num.sorted recorded) in
  StronglySorted Qcle (Num.sorted recorded)
  /\ Permutation (Num.sorted recorded) recorded
  /\ (effective <> [] ->
      Course.calculate_category_average self name
      = Num.sum effective / Num.len effective)
  /\ (effective = [] -> Course.calculate_category_average self name = 0)
  /\ (category.(GradeCategory.drops) = 0%Z ->
      Course.calculate_category_average self name
      = Num.sum recorded / Num.len recorded).
Proof.
  intros recorded effective.
  pose proof (calculate_category_average_eq self name category Hget) as E.
  rewrite (final_exam_replacement_skip _ _ _ Hfinal) in E.
  fold recorded in E. unfold effective_grades in E. fold recorded effective in E.
  split; [apply sorted_ascending|].
  split; [apply sorted_permutation|].
  split; [|split].
  - intros Hne. rewrite E. destruct effective; [congruence|reflexivity].
  - intros Hnil. rewrite E, Hnil. reflexivity.
  - intros Hd. rewrite E. subst effective. rewrite Hd. simpl.
    destruct (Num.sorted recorded) eqn:Es.
    + apply sorted_nil_inv in Es. contradiction.
    + change (Num.mean (q :: l) = Num.mean recorded). rewrite <- Es.
      apply (mean_permutation _ _ (sorted_permutation recorded)).
Qed.

Lemma StronglySorted_skipn {A} (R : A -> A -> Prop) (n : nat) (l : list A) :
  StronglySorted R l -> StronglySorted R (skipn n l).
Proof.
  revert l. induction n as [|n IH]; intros l S; [exact S|].
  destruct l as [|x l]; [exact S|].
  simpl. apply IH. inversion S; assumption.
Qed.

(** C4. When "Test" is queried, "Final" has a recorded grade and the policy is
    not "No Replacement", only the first Final grade is used: under "Replace
    Lowest Test" it takes the place of the lowest grade left after the drops
    exactly when it is strictly greater; under "Average with Lowest Test" the
    lowest grade left is replaced by its mean with the final grade. *)
Theorem final_exam_substitution
    (self : Course.t) (test final : GradeCategory.t)
    (final_grade : Qc) (later : list Qc)
    (Htest : Dict.get String.eqb "Test" self.(Course.categories) = Some test)
    (Hfinal : Dict.get String.eqb "Final" self.(Course.categories) = Some final)
    (Hgrade : final.(GradeCategory.grades) = final_grade :: later) :
  let effective := skipn (Z.to_nat test.(GradeCategory.drops))
                         (Num.sorted test.(GradeCategory.grades)) in
  let average := Course.calculate_category_average self "Test" in
  (effective = [] -> average = 0)
  /\ forall lowest rest, effective = lowest :: rest ->
       (forall g, In g rest -> lowest <= g)
       /\ (self.(Course.final_policy) = "Replace Lowest Test" ->
           (lowest < final_grade ->
            average = Num.sum (final_grade :: rest) / Num.len (final_grade :: rest))
           /\ (final_grade <= lowest ->
               average = Num.sum (lowest :: rest) / Num.len (lowest :: rest)))
       /\ (self.(Course.final_policy) = "Average with Lowest Test" ->
           let mixed := (lowest + final_grade) / Num.of_Z 2 in
           average = Num.sum (mixed :: rest) / Num.len (mixed :: rest)).
Proof.
  intros effective average. subst average.
  rewrite (calculate_category_average_eq self "Test" test Htest).
  unfold effective_grades. fold effective.
  split.
  - intros ->. rewrite final_exam_replacement_nil. reflexivity.
  - intros lowest rest E. rewrite E.
    split.
    { pose proof (StronglySorted_skipn Qcle
                    (Z.to_nat test.(GradeCategory.drops)) _
                    (sorted_ascending test.(GradeCategory.grades))) as S.
      fold effective in S. rewrite E in S. inversion S as [|? ? _ Hall].
      intros g Hg. rewrite Forall_forall in Hall. apply Hall. exact Hg. }
    unfold Course.final_exam_replacement, Dict.mem.
    rewrite Hfinal, Hgrade. simpl andb. cbv zeta. rewrite map_float.
    split.
    + intros Hp. rewrite Hp. simpl.
      split; intros H.
      * apply ltb_lt in H. rewrite H. reflexivity.
      * apply ltb_ge in H. rewrite H. reflexivity.
    + intros Hp. rewrite Hp. simpl. reflexivity.
Qed.

Section CurrentGrade.

Variable self : Course.t.

Lemma current_grade_fold (items : list (string * GradeCategory.t)) (a b : Qc) :
  fold_left (Course.current_grade_step self) items (a, b)
  = (a + Num.sum (map (weighted_average_term self) (filter has_grades items)),
     b + Num.sum (map weight_term (filter has_grades items))).
Proof.
  revert a b. induction items as [|[name category] items IH]; intros a b.
  - simpl. f_equal; unfold Num.sum; simpl; ring.
  - cbn [fold_left filter].
    assert (Hh : has_grades (name, category)
                 = match GradeCategory.grades category with
                   | [] => false
                   | _ :: _ => true
                   end) by reflexivity.
    assert (Hs : Course.current_grade_step self (a, b) (name, category)
                 = match GradeCategory.grades category with
                   | [] => (a, b)
                   | _ :: _ =>
                       (a + weighted_average_term self (name, category),
                        b + weight_term (name, category))
                   end).
    { unfold Course.current_grade_step.
      destruct (GradeCategory.grades category); reflexivity. }
    rewrite Hh, Hs.
    destruct (GradeCategory.grades category) as [|g gs].
    + apply IH.
    + rewrite IH. cbn [map]. rewrite !sum_cons. f_equal; ring.
Qed.

End CurrentGrade.

Lemma filter_has_grades_nil (items : list (string * GradeCategory.t)) :
  (forall name category,
     In (name, category) items -> category.(GradeCategory.grades) = []) ->
  filter has_grades items = [].
Proof.
  induction items as [|[n c] l IH]; intros Hnone; [reflexivity|].
  simpl. unfold has_grades at 1. cbn [snd].
  rewrite (Hnone n c (or_introl eq_refl)).
  apply IH. intros n' c' Hin. apply (Hnone n' c'). right. exact Hin.
Qed.

Lemma calculate_current_grade_eq (self : Course.t) :
  Course.calculate_current_grade self
  = let graded := filter has_grades self.(Course.categories) in
    let total_weighted_score := Num.sum (map (weighted_average_term self) graded) in
    let total_weight_used := Num.sum (map weight_term graded) in
    if Num.ltb 0 total_weight_used
    then total_weighted_score / total_weight_used
    else 0.
Proof.
  unfold Course.calculate_current_grade. rewrite current_grade_fold. cbv zeta.
  replace (0 + Num.sum (map weight_term
                          (filter has_grades (Course.categories self))))
    with (Num.sum (map weight_term (filter has_grades (Course.categories self))))
    by ring.
  replace (0 + Num.sum (map (weighted_average_term self)
                          (filter has_grades (Course.categories self))))
    with (Num.sum (map (weighted_average_term self)
                     (filter has_grades (Course.categories self))))
    by ring.
  reflexivity.
Qed.

(** C5. [calculate_current_grade] is the sum, over the categories with a
    recorded grade, of average times weight/100, divided by the sum of
    weight/100 over the same categories when that sum is positive, and [0]
    otherwise; categories without grades count in neither sum, so the grade
    is [0] when no category has a grade. *)
Theorem current_grade_weighted_average (self : Course.t) :
  let graded := filter has_grades self.(Course.categories) in
  let total_weighted_score :=
    Num.sum (map (fun item =>
                    Course.calculate_category_average self (fst item)
                    * ((snd item).(GradeCategory.weight) / Num.of_Z 100))
                 graded) in
  let total_weight_used :=
    Num.sum (map (fun item => (snd item).(GradeCategory.weight) / Num.of_Z 100)
                 graded) in
  (0 < total_weight_used ->
   Course.calculate_current_grade self = total_weighted_score / total_weight_used)
  /\ (~ 0 < total_weight_used -> Course.calculate_current_grade self = 0)
  /\ ((forall name category,
         In (name, category) self.(Course.categories) ->
         category.(GradeCategory.grades) = []) ->
      Course.calculate_current_grade self = 0).
Proof.
  intros graded tws twu.
  assert (E : Course.calculate_current_grade self
              = if Num.ltb 0 twu then tws / twu else 0).
  { rewrite calculate_current_grade_eq. reflexivity. }
  split; [|split].
  - intros H. rewrite E. apply ltb_lt in H. rewrite H. reflexivity.
  - intros H. rewrite E. destruct (Num.ltb 0 twu) eqn:El; [|reflexivity].
    apply ltb_lt in El. contradiction.
  - intros Hnone. rewrite E.
    assert (G : graded = []) by (apply filter_has_grades_nil; exact Hnone).
    subst twu. rewrite G. reflexivity.
Qed.

(** * [Course.get_gpa_points] *)

Section GpaPoints.

Lemma pair_geb_true (a b : Qc * Qc) : Course.pair_geb a b = true -> gpa_desc a b.
Proof.
  unfold Course.pair_geb, gpa_desc. intros H.
  apply orb_true_iff in H. destruct H as [H | H].
  - apply ltb_lt in H. apply Qclt_le_weak. exact H.
  - apply andb_true_iff in H. destruct H as [H _].
    apply eqb_eq in H. rewrite H. apply Qcle_refl.
Qed.

Lemma pair_geb_false (a b : Qc * Qc) : Course.pair_geb a b = false -> gpa_desc b a.
Proof.
  unfold Course.pair_geb, gpa_desc. intros H.
  apply orb_false_iff in H. destruct H as [H _].
  apply ltb_ge in H. exact H.
Qed.

Lemma insert_desc_permutation (a : Qc * Qc) (l : list (Qc * Qc)) :
  Permutation (Course.insert_desc a l) (a :: l).
Proof.
  induction l as [|b l IH]; simpl; [reflexivity|].
  destruct (Course.pair_geb a b); [reflexivity|].
  rewrite IH. apply perm_swap.
Qed.

Lemma insert_desc_sorted (a : Qc * Qc) (l : list (Qc * Qc)) :
  StronglySorted gpa_desc l -> StronglySorted gpa_desc (Course.insert_desc a l).
Proof.
  induction 1 as [|b l S IH Hb]; simpl.
  - repeat constructor.
  - destruct (Course.pair_geb a b) eqn:E.
    + constructor; [constructor; assumption|].
      apply pair_geb_true in E. constructor; [exact E|].
      rewrite Forall_forall in *. intros c Hc.
      unfold gpa_desc in *. eapply Qcle_trans; [apply Hb; exact Hc|exact E].
    + constructor; [exact IH|].
      apply pair_geb_false in E.
      rewrite Forall_forall in *. intros c Hc.
      apply (Permutation_in _ (insert_desc_permutation a l)) in Hc.
      destruct Hc as [<- | Hc]; [exact E|apply Hb; exact Hc].
Qed.

Lemma sorted_reverse_permutation (l : list (Qc * Qc)) :
  Permutation (Course.sorted_reverse l) l.
Proof.
  induction l as [|a l IH]; simpl; [reflexivity|].
  rewrite insert_desc_permutation. constructor. exact IH.
Qed.

Lemma sorted_reverse_sorted (l : list (Qc * Qc)) :
  StronglySorted gpa_desc (Course.sorted_reverse l).
Proof.
  induction l as [|a l IH]; simpl; [constructor|].
  apply insert_desc_sorted. exact IH.
Qed.

Lemma first_boundary_cases (p : Qc) (l : list (Qc * Qc)) :
  Course.first_boundary p l = 0
  \/ exists a, In a l /\ Course.first_boundary p l = fst a.
Proof.
  induction l as [|[gpa minimum] l IH]; simpl; [left; reflexivity|].
  destruct (Num.leb minimum p).
  - right. exists (gpa, minimum). split; [left; reflexivity|reflexivity].
  - destruct IH as [IH | [a [Ha IH]]]; [left; exact IH|].
    right. exists a. split; [right; exact Ha|exact IH].
Qed.

Lemma first_boundary_monotone (p1 p2 : Qc) (l : list (Qc * Qc)) :
  StronglySorted gpa_desc l ->
  (forall a, In a l -> 0 <= fst a) ->
  p1 <= p2 ->
  Course.first_boundary p1 l <= Course.first_boundary p2 l.
Proof.
  intros S Hpos Hle.
  induction S as [|[gpa minimum] l S IH Hall]; simpl; [apply Qcle_refl|].
  destruct (Num.leb minimum p2) eqn:E2.
  - destruct (Num.leb minimum p1) eqn:E1; [apply Qcle_refl|].
    unfold Num.float.
    destruct (first_boundary_cases p1 l) as [-> | [a [Ha ->]]].
    + apply (Hpos (gpa, minimum)). left. reflexivity.
    + rewrite Forall_forall in Hall. apply (Hall a Ha).
  - destruct (Num.leb minimum p1) eqn:E1.
    + apply leb_le in E1.
      assert (H : Num.leb minimum p2 = true).
      { apply leb_le. eapply Qcle_trans; eassumption. }
      congruence.
    + apply IH. intros a Ha. apply Hpos. right. exact Ha.
Qed.

End GpaPoints.

(** C6, as amended. For a boundary set whose GPA points are not negative,
    [get_gpa_points] is monotone in the percentage; the lookup returns the
    first GPA point, in descending order of GPA points, whose minimum is at
    most the percentage, and [0] when the set is empty or nothing matches. *)
Theorem gpa_points_monotone (self : Course.t) (p1 p2 : Qc)
    (Hnonneg : forall gpa minimum,
        In (gpa, minimum) self.(Course.grade_boundaries) -> 0 <= gpa)
    (Hle : p1 <= p2) :
  Course.get_gpa_points self p1 <= Course.get_gpa_points self p2
  /\ exists ordered,
       Permutation ordered self.(Course.grade_boundaries)
       /\ StronglySorted (fun a b => fst b <= fst a) ordered
       /\ forall p, Course.get_gpa_points self p = Course.first_boundary p ordered.
Proof.
  assert (E : forall p,
             Course.get_gpa_points self p
             = Course.first_boundary p
                 (Course.sorted_reverse self.(Course.grade_boundaries))).
  { intros p. unfold Course.get_gpa_points, Num.float.
    rewrite (map_ext _ (fun kv => kv)) by (intros [? ?]; reflexivity).
    rewrite map_id.
    destruct (Course.grade_boundaries self); reflexivity. }
  split.
  - rewrite !E. apply first_boundary_monotone.
    + apply sorted_reverse_sorted.
    + intros [gpa minimum] Ha.
      apply (Permutation_in _ (sorted_reverse_permutation _)) in Ha.
      apply (Hnonneg gpa minimum Ha).
    + exact Hle.
  - exists (Course.sorted_reverse self.(Course.grade_boundaries)).
    split; [apply sorted_reverse_permutation|].
    split; [apply sorted_reverse_sorted|exact E].
Qed.

(** * Dictionaries built by assignment *)

Section DictFacts.

Context {K : Type} (eqb : K -> K -> bool).
Hypothesis eqb_spec : forall x y, eqb x y = true <-> x = y.

Lemma get_none_not_in {V} (k : K) (d : Dict.t K V) :
  Dict.get eqb k d = None <-> ~ In k (Dict.keys d).
Proof.
  induction d as [|[k' v] d IH]; simpl.
  - split; [intros _ []|reflexivity].
  - destruct (eqb k k') eqn:E.
    + apply eqb_spec in E. subst. split; [discriminate|].
      intros H. exfalso. apply H. left. reflexivity.
    + rewrite IH. split.
      * intros H [H' | H']; [|exact (H H')].
        subst. assert (T : eqb k k = true) by (apply eqb_spec; reflexivity).
        congruence.
      * intros H H'. apply H. right. exact H'.
Qed.

Lemma get_in {V} (k : K) (v : V) (d : Dict.t K V) :
  Dict.wf d -> In (k, v) d -> Dict.get eqb k d = Some v.
Proof.
  unfold Dict.wf. induction d as [|[k' v'] d IH]; simpl; intros ND Hin; [easy|].
  inversion ND as [|? ? Hk ND']; subst.
  destruct Hin as [Hin | Hin].
  - inversion Hin; subst.
    assert (T : eqb k k = true) by (apply eqb_spec; reflexivity).
    rewrite T. reflexivity.
  - destruct (eqb k k') eqn:E.
    + apply eqb_spec in E. subst. exfalso. apply Hk.
      change k' with (fst (k', v)). apply in_map. exact Hin.
    + apply IH; assumption.
Qed.

Lemma get_map {V W} (f : K -> V -> W) (k : K) (d : Dict.t K V) :
  Dict.get eqb k (map (fun kv => (fst kv, f (fst kv) (snd kv))) d)
  = match Dict.get eqb k d with
    | Some v => Some (f k v)
    | None => None
    end.
Proof.
  induction d as [|[k' v] d IH]; simpl; [reflexivity|].
  destruct (eqb k k') eqn:E; [|exact IH].
  apply eqb_spec in E. subst. reflexivity.
Qed.

Lemma keys_map {V W} (f : K -> V -> W) (d : Dict.t K V) :
  Dict.keys (map (fun kv => (fst kv, f (fst kv) (snd kv))) d) = Dict.keys d.
Proof.
  unfold Dict.keys. rewrite map_map. reflexivity.
Qed.

Lemma set_fresh {V} (k : K) (v : V) (d : Dict.t K V) :
  ~ In k (Dict.keys d) -> Dict.set eqb k v d = d ++ [(k, v)].
Proof.
  induction d as [|[k' v'] d IH]; simpl; intros H; [reflexivity|].
  destruct (eqb k k') eqn:E.
  - apply eqb_spec in E. subst. exfalso. apply H. left. reflexivity.
  - rewrite IH; [reflexivity|]. intros H'. apply H. right. exact H'.
Qed.

(** Assigning the items of a dictionary one after the other to new keys
    appends them in order. *)
Lemma fold_set_fresh {V W} (f : K -> V -> W) (l : Dict.t K V)
    (acc : Dict.t K W) :
  NoDup (Dict.keys l) ->
  (forall k, In k (Dict.keys l) -> ~ In k (Dict.keys acc)) ->
  fold_left (fun acc kv => Dict.set eqb (fst kv) (f (fst kv) (snd kv)) acc) l acc
  = acc ++ map (fun kv => (fst kv, f (fst kv) (snd kv))) l.
Proof.
  revert acc. induction l as [|[k v] l IH]; intros acc ND Hfresh; simpl.
  - rewrite app_nil_r. reflexivity.
  - simpl in ND. inversion ND as [|? ? Hk ND']; subst.
    rewrite set_fresh by (apply Hfresh; left; reflexivity).
    rewrite IH.
    + rewrite <- app_assoc. reflexivity.
    + exact ND'.
    + intros k' Hk' Hin. unfold Dict.keys in Hin. rewrite map_app in Hin.
      apply in_app_or in Hin. destruct Hin as [Hin | [Hin | []]].
      * apply (Hfresh k'); [right; exact Hk'|exact Hin].
      * simpl in Hin. subst. exact (Hk Hk').
Qed.

Lemma comprehension_map {V W} (f : K -> V -> W) (d : Dict.t K V) :
  Dict.wf d ->
  Dict.comprehension eqb (fun k => k) f d
  = map (fun kv => (fst kv, f (fst kv) (snd kv))) d.
Proof.
  intros ND. unfold Dict.comprehension.
  rewrite fold_set_fresh; [reflexivity|exact ND|intros k _ []].
Qed.

End DictFacts.

(** * Serialization *)

Section RoundTrip.

Lemma category_round_trip (category : GradeCategory.t) :
  GradeCategory.from_dict (GradeCategory.to_dict category) = category.
Proof.
  destruct category as [n w t d g].
  unfold GradeCategory.from_dict, GradeCategory.to_dict, GradeCategory.init.
  simpl. rewrite !map_float. reflexivity.
Qed.

Lemma from_dict_fold (items : Dict.t string GradeCategory.dict) (course : Course.t) :
  fold_left
    (fun course kv =>
       Course.mk course.(Course.name) course.(Course.credit_hours)
         (Dict.set String.eqb (fst kv) (GradeCategory.from_dict (snd kv))
            course.(Course.categories))
         course.(Course.grade_boundaries) course.(Course.semester)
         course.(Course.final_policy))
    items course
  = Course.mk course.(Course.name) course.(Course.credit_hours)
      (fold_left
         (fun acc kv =>
            Dict.set String.eqb (fst kv) (GradeCategory.from_dict (snd kv)) acc)
         items course.(Course.categories))
      course.(Course.grade_boundaries) course.(Course.semester)
      course.(Course.final_policy).
Proof.
  revert course. induction items as [|kv items IH]; intros course; simpl.
  - destruct course; reflexivity.
  - rewrite IH. reflexivity.
Qed.

End RoundTrip.

(** C9. [Course.from_dict(course.to_dict())] is a course equal to the
    original in every field: name, credit hours, semester, the categories
    with their weights, capacities, drops and ordered grades, the grade
    boundaries and the final policy. *)
Theorem course_round_trip (course : Course.t)
    (Hcategories : Dict.wf course.(Course.categories))
    (Hboundaries : Dict.wf course.(Course.grade_boundaries)) :
  Course.from_dict (Course.to_dict course) = course.
Proof.
  destruct course as [n ch cats bounds sem pol]. simpl in *.
  unfold Course.from_dict, Course.to_dict, Course.init. simpl.
  rewrite from_dict_fold. simpl. unfold Num.float.
  rewrite (comprehension_map String.eqb String.eqb_eq _ cats Hcategories).
  rewrite (comprehension_map Num.eqb eqb_eq _ bounds Hboundaries).
  assert (Eb : map (fun kv : Qc * Qc => (fst kv, snd kv)) bounds = bounds).
  { rewrite (map_ext _ (fun kv => kv)) by (intros [? ?]; reflexivity).
    apply map_id. }
  rewrite Eb.
  rewrite (comprehension_map Num.eqb eqb_eq _ bounds Hboundaries), Eb.
  rewrite (fold_set_fresh String.eqb String.eqb_eq
             (fun _ d => GradeCategory.from_dict d)).
  - simpl. rewrite map_map. simpl.
    rewrite (map_ext _ (fun kv => kv)).
    + rewrite map_id. reflexivity.
    + intros [k c]. simpl. rewrite category_round_trip. reflexivity.
  - rewrite (keys_map (fun _ c => GradeCategory.to_dict c)). exact Hcategories.
  - intros k _ [].
Qed.

(** * The query methods leave the objects as they were *)

Section Frame.

Import CourseObject.

Lemma extends_refl (h : Store.t) : Store.extends h h.
Proof. exists []. rewrite app_nil_r. reflexivity. Qed.

Lemma extends_trans (h1 h2 h3 : Store.t) :
  Store.extends h1 h2 -> Store.extends h2 h3 -> Store.extends h1 h3.
Proof.
  intros [n1 ->] [n2 ->]. exists (n1 ++ n2). rewrite app_assoc. reflexivity.
Qed.

Lemma extends_new (h h' : Store.t) (l : list Qc) :
  Store.extends h h' -> Store.extends h (h' ++ [l]).
Proof.
  intros [n ->]. exists (n ++ [l]). rewrite app_assoc. reflexivity.
Qed.

Lemma extends_length (h h' : Store.t) :
  Store.extends h h' -> (List.length h <= List.length h')%nat.
Proof. intros [n ->]. rewrite length_app. lia. Qed.

Lemma write_app (h newer : Store.t) (i : nat) (l : list Qc) :
  Store.write (List.length h + i)%nat l (h ++ newer) = h ++ Store.write i l newer.
Proof.
  induction h as [|x h IH]; simpl.
  - destruct newer, i; reflexivity.
  - rewrite IH. reflexivity.
Qed.

(** Writing into a list object allocated later leaves the older ones. *)
Lemma extends_write (h h' : Store.t) (r : Store.ref) (l : list Qc) :
  Store.extends h h' -> (List.length h <= r)%nat ->
  Store.extends h (Store.write r l h').
Proof.
  intros [n ->] Hr.
  replace r with (List.length h + (r - List.length h))%nat by lia.
  rewrite write_app. eexists. reflexivity.
Qed.

Lemma extends_read (h h' : Store.t) (r : Store.ref) :
  Store.extends h h' -> (r < List.length h)%nat ->
  Store.read r h' = Store.read r h.
Proof.
  intros [n ->] Hr. unfold Store.read. apply app_nth1. exact Hr.
Qed.

Lemma unchanged_refl (s : state) : unchanged s s.
Proof. split; [reflexivity|apply extends_refl]. Qed.

Lemma unchanged_trans (s1 s2 s3 : state) :
  unchanged s1 s2 -> unchanged s2 s3 -> unchanged s1 s3.
Proof.
  intros [E1 X1] [E2 X2]. split; [congruence|].
  eapply extends_trans; eassumption.
Qed.

Ltac store_frame :=
  repeat first
    [ apply extends_refl
    | apply extends_new
    | apply extends_write; [|rewrite ?length_app; simpl; lia] ].

Lemma final_exam_replacement_unchanged (name : string) (grades : Store.ref)
    (s0 s : state) :
  unchanged s0 s -> (List.length s0.(lists) <= grades)%nat ->
  unchanged s0 (snd (final_exam_replacement name grades s)).
Proof.
  intros [Es X] Hg. destruct s as [c h]. simpl in *.
  unfold final_exam_replacement, bindM, attr, read_list, new_list, setitem0, ret.
  simpl.
  repeat match goal with
         | |- context [if ?b then _ else _] => destruct b; simpl
         | |- context [match ?x with _ => _ end] => destruct x; simpl
         end;
    (split; simpl; [exact Es|]);
    repeat first
      [ exact X
      | apply extends_new
      | apply extends_write; [|exact Hg] ].
Qed.

Lemma calculate_category_average_unchanged (name : string) (s : state) :
  unchanged s (snd (calculate_category_average name s)).
Proof.
  destruct s as [c h].
  unfold calculate_category_average, bindM at 1, attr at 1. simpl.
  destruct (Dict.get String.eqb name (categories c)) as [category|];
    [|apply unchanged_refl].
  unfold bindM at 1, read_list at 1. simpl.
  destruct (Store.read (grades category) h) as [|g gs]; [apply unchanged_refl|].
  unfold bindM at 1, new_list at 1. simpl.
  unfold bindM at 1, read_list at 1. simpl.
  unfold bindM at 1, new_list at 1. simpl.
  destruct (0 <? drops category)%Z.
  - unfold bindM at 1. unfold bindM at 1. unfold read_list at 1, new_list at 1.
    simpl. unfold bindM at 1.
    match goal with
    | |- context [final_exam_replacement name ?r ?st] =>
        pose proof (final_exam_replacement_unchanged name r
                      (mk_state c h) st) as F;
        destruct (final_exam_replacement name r st) as [u s']
    end.
    simpl in *. unfold bindM, read_list, ret. simpl.
    apply F.
    + split; [reflexivity|]. simpl. store_frame.
    + rewrite !length_app. simpl. lia.
  - unfold bindM at 1. unfold ret at 1. unfold bindM at 1.
    match goal with
    | |- context [final_exam_replacement name ?r ?st] =>
        pose proof (final_exam_replacement_unchanged name r
                      (mk_state c h) st) as F;
        destruct (final_exam_replacement name r st) as [u s']
    end.
    simpl in *. unfold bindM, read_list, ret. simpl.
    apply F.
    + split; [reflexivity|]. simpl. store_frame.
    + rewrite !length_app. simpl. lia.
Qed.

Lemma current_grade_loop_unchanged (items : list (string * category))
    (acc : Qc * Qc) (s : state) :
  unchanged s (snd (current_grade_loop items acc s)).
Proof.
  revert acc s. induction items as [|[name c] items IH]; intros acc s.
  - apply unchanged_refl.
  - simpl. unfold bindM at 1, read_list at 1. simpl.
    destruct (Store.read (grades c) (lists s)); [apply IH|].
    unfold bindM.
    pose proof (calculate_category_average_unchanged name s) as F.
    destruct (calculate_category_average name s) as [average s1]. simpl in F.
    eapply unchanged_trans; [exact F|apply IH].
Qed.

Lemma calculate_current_grade_unchanged (s : state) :
  unchanged s (snd (calculate_current_grade s)).
Proof.
  unfold calculate_current_grade, bindM at 1, attr at 1. simpl.
  unfold bindM.
  pose proof (current_grade_loop_unchanged (categories (self s)) (0, 0) s) as F.
  destruct (current_grade_loop (categories (self s)) (0, 0) s) as [totals s1].
  simpl in F. destruct (Num.ltb 0 (snd totals)); exact F.
Qed.

Lemma get_gpa_points_unchanged (percentage : Qc) (s : state) :
  unchanged s (snd (get_gpa_points percentage s)).
Proof.
  unfold get_gpa_points, bindM, attr, ret. simpl.
  destruct (grade_boundaries (self s)); apply unchanged_refl.
Qed.

End Frame.

(** C10. [calculate_category_average], [calculate_current_grade] and
    [get_gpa_points] assign no attribute of the course or of a category and
    change no list object: the categories mapping, every grades list with
    its order, the grade boundaries and the final policy are afterwards what
    they were (the average sorts and edits lists of its own).  The average of
    a name the course does not have is [0]. *)
Theorem queries_leave_course_unchanged
    (s : CourseObject.state) (name : string) (percentage : Qc) :
  let after_average := snd (CourseObject.calculate_category_average name s) in
  let after_current := snd (CourseObject.calculate_current_grade s) in
  let after_gpa := snd (CourseObject.get_gpa_points percentage s) in
  (forall s', s' = after_average \/ s' = after_current \/ s' = after_gpa ->
     s'.(CourseObject.self) = s.(CourseObject.self)
     /\ Store.extends s.(CourseObject.lists) s'.(CourseObject.lists)
     /\ forall r, (r < List.length s.(CourseObject.lists))%nat ->
          Store.read r s'.(CourseObject.lists)
          = Store.read r s.(CourseObject.lists))
  /\ (Dict.get String.eqb name s.(CourseObject.self).(CourseObject.categories)
      = None ->
      fst (CourseObject.calculate_category_average name s) = 0).
Proof.
  intros after_average after_current after_gpa. split.
  - assert (U : forall s', CourseObject.unchanged s s' ->
                  s'.(CourseObject.self) = s.(CourseObject.self)
                  /\ Store.extends s.(CourseObject.lists) s'.(CourseObject.lists)
                  /\ forall r, (r < List.length s.(CourseObject.lists))%nat ->
                       Store.read r s'.(CourseObject.lists)
                       = Store.read r s.(CourseObject.lists)).
    { intros s' [E X]. split; [exact E|]. split; [exact X|].
      intros r Hr. apply extends_read; assumption. }
    intros s' [-> | [-> | ->]]; apply U.
    + apply calculate_category_average_unchanged.
    + apply calculate_current_grade_unchanged.
    + apply get_gpa_points_unchanged.
  - intros Hnone.
    unfold CourseObject.calculate_category_average, CourseObject.bindM,
      CourseObject.attr. simpl. rewrite Hnone. reflexivity.
Qed.

(** * The solver on the dictionaries of [calculate_required_grades] *)

Section SolverFacts.

Variable course : Course.t.
Hypothesis Hwf : Dict.wf course.(Course.categories).

Local Abbreviation cats := (course.(Course.categories)).

Lemma current_grades_of_map :
  GPACalculator.current_grades_of course
  = map (fun kv => (fst kv, (snd kv).(GradeCategory.grades))) cats.
Proof.
  unfold GPACalculator.current_grades_of.
  apply (comprehension_map String.eqb String.eqb_eq
           (fun _ c => c.(GradeCategory.grades))). exact Hwf.
Qed.

Lemma weights_of_map :
  GPACalculator.weights_of course
  = map (fun kv => (fst kv, (snd kv).(GradeCategory.weight) / Num.of_Z 100)) cats.
Proof.
  unfold GPACalculator.weights_of.
  apply (comprehension_map String.eqb String.eqb_eq
           (fun _ c => c.(GradeCategory.weight) / Num.of_Z 100)). exact Hwf.
Qed.

Lemma total_assignments_of_map :
  GPACalculator.total_assignments_of course
  = map (fun kv => (fst kv, (snd kv).(GradeCategory.total_assignments))) cats.
Proof.
  unfold GPACalculator.total_assignments_of.
  apply (comprehension_map String.eqb String.eqb_eq
           (fun _ c => c.(GradeCategory.total_assignments))). exact Hwf.
Qed.

Lemma getitem_map {W} (f : GradeCategory.t -> W) (name : string)
    (c : GradeCategory.t) :
  Dict.get String.eqb name cats = Some c ->
  GPACalculator.getitem name (map (fun kv => (fst kv, f (snd kv))) cats) = Ok (f c).
Proof.
  intros H. unfold GPACalculator.getitem.
  rewrite (get_map String.eqb String.eqb_eq (fun _ => f)). rewrite H. reflexivity.
Qed.

Lemma drops_of_get (name : string) (c : GradeCategory.t) :
  Dict.get String.eqb name cats = Some c ->
  GPACalculator.drops_of course name = Ok c.(GradeCategory.drops).
Proof.
  intros H. unfold GPACalculator.drops_of, GPACalculator.getitem.
  fold cats. rewrite H. reflexivity.
Qed.

Lemma effective_total_of_get (name : string) (c : GradeCategory.t) :
  Dict.get String.eqb name cats = Some c ->
  GPACalculator.effective_total_of course
    (map (fun kv => (fst kv, (snd kv).(GradeCategory.total_assignments))) cats)
    name
  = Ok (effective_total c).
Proof.
  intros H. unfold GPACalculator.effective_total_of.
  rewrite (getitem_map GradeCategory.total_assignments name c H).
  simpl. rewrite (drops_of_get name c H). reflexivity.
Qed.

Lemma process_drops_step_get (acc : Dict.t string (list Qc)) (name : string)
    (c : GradeCategory.t) :
  Dict.get String.eqb name cats = Some c ->
  GPACalculator.process_drops_step course acc (name, c.(GradeCategory.grades))
  = Ok (Dict.set String.eqb name (kept_grades c) acc).
Proof.
  intros H. unfold GPACalculator.process_drops_step, kept_grades.
  destruct (GradeCategory.grades c) as [|g gs]; [reflexivity|].
  rewrite (drops_of_get name c H). reflexivity.
Qed.

Lemma process_drops_fold (l : Dict.t string GradeCategory.t)
    (acc : Dict.t string (list Qc)) :
  (forall name c, In (name, c) l -> Dict.get String.eqb name cats = Some c) ->
  NoDup (Dict.keys l) ->
  (forall k, In k (Dict.keys l) -> ~ In k (Dict.keys acc)) ->
  foldM (GPACalculator.process_drops_step course)
        (map (fun kv => (fst kv, (snd kv).(GradeCategory.grades))) l) acc
  = Ok (acc ++ map (fun kv => (fst kv, kept_grades (snd kv))) l).
Proof.
  revert acc. induction l as [|[name c] l IH]; intros acc Hget ND Hfresh.
  - simpl. rewrite app_nil_r. reflexivity.
  - cbn [map foldM fst snd].
    rewrite (process_drops_step_get acc name c (Hget name c (or_introl eq_refl))).
    cbn [bind].
    simpl in ND. inversion ND as [|? ? Hk ND']; subst.
    rewrite (set_fresh String.eqb String.eqb_eq)
      by (apply Hfresh; left; reflexivity).
    rewrite IH.
    + rewrite <- app_assoc. reflexivity.
    + intros n' c' Hin. apply Hget. right. exact Hin.
    + exact ND'.
    + intros k' Hk' Hin. unfold Dict.keys in Hin. rewrite map_app in Hin.
      apply in_app_or in Hin. destruct Hin as [Hin | [Hin | []]].
      * apply (Hfresh k'); [right; exact Hk'|exact Hin].
      * simpl in Hin. subst. exact (Hk Hk').
Qed.

Lemma get_of_in (name : string) (c : GradeCategory.t) :
  In (name, c) cats -> Dict.get String.eqb name cats = Some c.
Proof. apply (get_in String.eqb String.eqb_eq). exact Hwf. Qed.

Lemma process_drops_eq :
  GPACalculator.process_drops course (GPACalculator.current_grades_of course)
  = Ok (map (fun kv => (fst kv, kept_grades (snd kv))) cats).
Proof.
  unfold GPACalculator.process_drops. rewrite current_grades_of_map.
  rewrite process_drops_fold; [reflexivity| |exact Hwf|intros k _ []].
  intros name c Hin. apply get_of_in. exact Hin.
Qed.

Lemma skipn_not_nil {A} (n : nat) (l : list A) :
  (n < List.length l)%nat -> skipn n l <> [].
Proof.
  intros H E. apply (f_equal (@List.length A)) in E.
  rewrite length_skipn in E. simpl in E. lia.
Qed.

Lemma kept_grades_not_nil (c : GradeCategory.t) :
  c.(GradeCategory.grades) <> [] -> kept_grades c <> [].
Proof.
  unfold kept_grades. destruct (GradeCategory.grades c) as [|g gs] eqn:Eg;
    [congruence|]. intros _. cbv zeta.
  destruct ((0 <? GradeCategory.drops c)%Z
            && (GradeCategory.drops c
                <? Z.of_nat (List.length (Num.sorted (g :: gs))))%Z) eqn:E.
  - apply andb_true_iff in E. destruct E as [E1 E2].
    apply Z.ltb_lt in E1. apply Z.ltb_lt in E2.
    unfold Num.slice_from. apply skipn_not_nil. lia.
  - intros H. apply sorted_nil_inv in H. discriminate.
Qed.

Lemma kept_grades_effective (c : GradeCategory.t) :
  (c.(GradeCategory.drops) < Z.of_nat (List.length c.(GradeCategory.grades)))%Z ->
  kept_grades c = effective_grades c.
Proof.
  intros Hd. unfold kept_grades, effective_grades.
  destruct (GradeCategory.grades c) as [|g gs] eqn:Eg.
  - change (Num.sorted []) with (@nil Qc). rewrite skipn_nil. reflexivity.
  - cbv zeta. rewrite sorted_length.
    destruct (0 <? GradeCategory.drops c)%Z eqn:E1; cbn [andb].
    + assert (E2 : (GradeCategory.drops c <? Z.of_nat (List.length (g :: gs)))%Z
                   = true) by (apply Z.ltb_lt; exact Hd).
      rewrite E2. reflexivity.
    + apply Z.ltb_ge in E1.
      replace (Z.to_nat (GradeCategory.drops c)) with O by lia. reflexivity.
Qed.

Lemma ok_triple (a a' b b' : Qc) (np : bool) :
  a = a' -> b = b' -> @Ok (Qc * Qc * bool) (a, b, np) = Ok (a', b', np).
Proof. intros -> ->. reflexivity. Qed.

Lemma contribution_step_get (a b : Qc) (np : bool) (name : string)
    (c : GradeCategory.t) :
  Dict.get String.eqb name cats = Some c ->
  (c.(GradeCategory.grades) <> [] -> effective_total c <> 0%Z) ->
  GPACalculator.contribution_step course
    (map (fun kv => (fst kv, (snd kv).(GradeCategory.weight) / Num.of_Z 100)) cats)
    (map (fun kv => (fst kv, (snd kv).(GradeCategory.total_assignments))) cats)
    (a, b, np) (name, kept_grades c)
  = Ok (a + solver_term (name, c), b + completed_weight_term (name, c),
        np || has_grades (name, c)).
Proof.
  intros Hget Hne. unfold solver_term, completed_weight_term, has_grades.
  cbn [fst snd]. unfold GPACalculator.contribution_step.
  destruct (GradeCategory.grades c) as [|g gs] eqn:Eg.
  - assert (K : kept_grades c = []) by (unfold kept_grades; rewrite Eg; reflexivity).
    rewrite K, orb_false_r. apply ok_triple; ring.
  - assert (K : kept_grades c <> []) by (apply kept_grades_not_nil; congruence).
    destruct (kept_grades c) as [|k ks] eqn:Ek; [congruence|].
    rewrite (effective_total_of_get name c Hget). cbn [bind].
    rewrite (getitem_map (fun c => GradeCategory.weight c / Num.of_Z 100)
               name c Hget). cbn [bind].
    unfold GPACalculator.truediv.
    assert (Ez : (effective_total c =? 0)%Z = false).
    { apply Z.eqb_neq. apply Hne. congruence. }
    rewrite Ez. cbn [bind]. rewrite orb_true_r.
    unfold completed_fraction. rewrite Ek. reflexivity.
Qed.

Lemma contribution_fold (l : Dict.t string GradeCategory.t) (a b : Qc)
    (np : bool) :
  (forall name c, In (name, c) l ->
     Dict.get String.eqb name cats = Some c
     /\ (c.(GradeCategory.grades) <> [] -> effective_total c <> 0%Z)) ->
  foldM (GPACalculator.contribution_step course
           (map (fun kv => (fst kv, (snd kv).(GradeCategory.weight) / Num.of_Z 100))
              cats)
           (map (fun kv => (fst kv, (snd kv).(GradeCategory.total_assignments)))
              cats))
        (map (fun kv => (fst kv, kept_grades (snd kv))) l) (a, b, np)
  = Ok (a + Num.sum (map solver_term l),
        b + Num.sum (map completed_weight_term l),
        np || existsb has_grades l).
Proof.
  revert a b np. induction l as [|[name c] l IH]; intros a b np H.
  - simpl. rewrite orb_false_r. unfold Num.sum. simpl.
    apply ok_triple; ring.
  - cbn [map foldM fst snd].
    destruct (H name c (or_introl eq_refl)) as [Hget Hne].
    rewrite (contribution_step_get a b np name c Hget Hne). cbn [bind].
    rewrite IH by (intros n' c' Hin; apply H; right; exact Hin).
    cbn [existsb]. rewrite !sum_cons, orb_assoc.
    apply ok_triple; ring.
Qed.

Lemma div_mul_cancel (x y : Qc) : 0 < y -> x / y * y = x.
Proof.
  intros H. field. intros E. apply (Qclt_not_eq _ _ H). symmetry. exact E.
Qed.

Lemma solver_contribution_eq :
  (forall name c, In (name, c) cats ->
     c.(GradeCategory.grades) <> [] -> effective_total c <> 0%Z) ->
  solver_contribution course
  = Ok (Num.sum (map solver_term cats),
        Num.sum (map completed_weight_term cats),
        existsb has_grades cats).
Proof.
  intros H. unfold solver_contribution. rewrite process_drops_eq. cbn [bind].
  unfold GPACalculator.calculate_current_contribution.
  rewrite weights_of_map, total_assignments_of_map.
  rewrite contribution_fold.
  - cbn [bind orb].
    replace (0 + Num.sum (map solver_term cats))
      with (Num.sum (map solver_term cats)) by ring.
    replace (0 + Num.sum (map completed_weight_term cats))
      with (Num.sum (map completed_weight_term cats)) by ring.
    destruct (Num.ltb 0 (Num.sum (map completed_weight_term cats))) eqn:E;
      [|reflexivity].
    apply ltb_lt in E. rewrite (div_mul_cancel _ _ E). reflexivity.
  - intros name c Hin. split; [apply get_of_in; exact Hin|apply (H name c Hin)].
Qed.

Lemma remaining_step_none (text : string) (weights : Dict.t string Qc)
    (apply_final_policy : bool) (acc : list (string * Qc)) (name : string)
    (weight : Qc) (c : GradeCategory.t) :
  Dict.get String.eqb name cats = Some c ->
  (effective_total c - Z.of_nat (List.length (kept_grades c)) <= 0)%Z ->
  GPACalculator.remaining_step course text
    (map (fun kv => (fst kv, kept_grades (snd kv))) cats) weights
    (map (fun kv => (fst kv, (snd kv).(GradeCategory.total_assignments))) cats)
    apply_final_policy acc (name, weight)
  = Ok acc.
Proof.
  intros Hget Hle. unfold GPACalculator.remaining_step.
  rewrite (effective_total_of_get name c Hget). cbn [bind].
  rewrite (getitem_map kept_grades name c Hget). cbn [bind]. cbv zeta.
  replace (Z.max 0 (effective_total c - Z.of_nat (List.length (kept_grades c))))
    with 0%Z by lia.
  reflexivity.
Qed.

Lemma remaining_fold_none (text : string) (weights : Dict.t string Qc)
    (apply_final_policy : bool) (l : Dict.t string GradeCategory.t)
    (acc : list (string * Qc)) :
  (forall name c, In (name, c) l ->
     Dict.get String.eqb name cats = Some c
     /\ (effective_total c - Z.of_nat (List.length (kept_grades c)) <= 0)%Z) ->
  foldM (GPACalculator.remaining_step course text
           (map (fun kv => (fst kv, kept_grades (snd kv))) cats) weights
           (map (fun kv => (fst kv, (snd kv).(GradeCategory.total_assignments)))
              cats)
           apply_final_policy)
        (map (fun kv => (fst kv, (snd kv).(GradeCategory.weight) / Num.of_Z 100)) l)
        acc
  = Ok acc.
Proof.
  induction l as [|[name c] l IH]; intros H; [reflexivity|].
  cbn [map foldM fst snd].
  destruct (H name c (or_introl eq_refl)) as [Hget Hle].
  rewrite (remaining_step_none text weights apply_final_policy acc name _ c
             Hget Hle).
  cbn [bind]. apply IH. intros n' c' Hin. apply H. right. exact Hin.
Qed.

Lemma solver_slots_none (text : string) (apply_final_policy : bool) :
  (forall name c, In (name, c) cats ->
     (effective_total c - Z.of_nat (List.length (kept_grades c)) <= 0)%Z) ->
  solver_slots course text apply_final_policy = Ok [].
Proof.
  intros H. unfold solver_slots. rewrite process_drops_eq. cbn [bind].
  unfold GPACalculator.remaining_slots.
  rewrite total_assignments_of_map. rewrite weights_of_map at 2.
  apply remaining_fold_none.
  intros name c Hin. split; [apply get_of_in; exact Hin|apply (H name c Hin)].
Qed.

Lemma find_minimum_balanced_grades_none
    (text : string)
    (minimize : list (string * Qc) -> list Qc -> Qc -> Qc -> option (list Qc))
    (target_grade : Qc) (apply_final_policy : bool) :
  (forall name c, In (name, c) cats ->
     (effective_total c - Z.of_nat (List.length (kept_grades c)) <= 0)%Z
     /\ (c.(GradeCategory.grades) <> [] -> effective_total c <> 0%Z)) ->
  GPACalculator.find_minimum_balanced_grades course text minimize
    (GPACalculator.current_grades_of course) (GPACalculator.weights_of course)
    (GPACalculator.total_assignments_of course) target_grade apply_final_policy
  = Ok [].
Proof.
  intros H.
  assert (Hc := solver_contribution_eq
                  (fun name c Hin => proj2 (H name c Hin))).
  assert (Hs := solver_slots_none text apply_final_policy
                  (fun name c Hin => proj1 (H name c Hin))).
  unfold solver_contribution in Hc. unfold solver_slots in Hs.
  unfold GPACalculator.find_minimum_balanced_grades.
  destruct (GPACalculator.process_drops course
              (GPACalculator.current_grades_of course)) as [pg|e];
    [|discriminate].
  cbn [bind] in *. rewrite Hc. cbn [bind]. rewrite Hs. reflexivity.
Qed.

End SolverFacts.

(** * Instances: the theorems above at example courses *)

Lemma category_average_mean_after_drops_witness :
  Course.calculate_category_average Examples.homework "Homework"
  = Num.sum (map Examples.q [80; 90; 100]%Z)
    / Num.len (map Examples.q [80; 90; 100]%Z).
Proof.
  pose proof (category_average_mean_after_drops Examples.homework "Homework"
                (snd (Examples.category "Homework" 40 4 1 [60; 80; 90; 100]%Z))
                eq_refl ltac:(discriminate) eq_refl) as H.
  destruct H as [_ [_ [H _]]].
  rewrite H; [qc_eq|]. vm_compute. discriminate.
Defined.

Lemma final_exam_substitution_witness :
  Course.calculate_category_average
    (Examples.tests_and_final_recorded "Replace Lowest Test") "Test"
  = Num.sum (map Examples.q [95; 90]%Z) / Num.len (map Examples.q [95; 90]%Z)
  /\ Course.calculate_category_average
       (Examples.tests_and_final_recorded "Average with Lowest Test") "Test"
     = Num.sum [(Examples.q 70 + Examples.q 95) / Num.of_Z 2; Examples.q 90]
       / Num.len [(Examples.q 70 + Examples.q 95) / Num.of_Z 2; Examples.q 90].
Proof.
  split.
  - pose proof (final_exam_substitution
                  (Examples.tests_and_final_recorded "Replace Lowest Test")
                  (snd (Examples.category "Test" 40 2 0 [90; 70]%Z))
                  (snd (Examples.category "Final" 60 1 0 [95]%Z))
                  (Examples.q 95) [] eq_refl eq_refl eq_refl) as [_ H].
    destruct (H (Examples.q 70) [Examples.q 90] eq_refl) as [_ [R _]].
    destruct (R eq_refl) as [R1 _]. apply R1. qc_lt.
  - pose proof (final_exam_substitution
                  (Examples.tests_and_final_recorded "Average with Lowest Test")
                  (snd (Examples.category "Test" 40 2 0 [90; 70]%Z))
                  (snd (Examples.category "Final" 60 1 0 [95]%Z))
                  (Examples.q 95) [] eq_refl eq_refl eq_refl) as [_ H].
    destruct (H (Examples.q 70) [Examples.q 90] eq_refl) as [_ [_ A]].
    apply A. reflexivity.
Defined.

Lemma gpa_points_monotone_witness :
  Course.get_gpa_points Examples.homework (Examples.q 85)
  <= Course.get_gpa_points Examples.homework (Examples.q 95).
Proof.
  refine (proj1 (gpa_points_monotone Examples.homework (Examples.q 85)
                   (Examples.q 95) _ _)).
  - intros gpa minimum [H | [H | []]]; inversion H; subst; qc_le.
  - qc_le.
Defined.

(** C6 as stated fails: with the single boundary (-1, 50), which descends
    trivially, 10 <= 60 but the lookup gives 0 at 10 and -1 at 60. *)
Lemma gpa_points_not_monotone :
  descending_boundaries Examples.negative_gpa.(Course.grade_boundaries)
  /\ Examples.q 10 <= Examples.q 60
  /\ Course.get_gpa_points Examples.negative_gpa (Examples.q 10) = Examples.q 0
  /\ Course.get_gpa_points Examples.negative_gpa (Examples.q 60) = Examples.q (-1)
  /\ ~ (Course.get_gpa_points Examples.negative_gpa (Examples.q 10)
        <= Course.get_gpa_points Examples.negative_gpa (Examples.q 60)).
Proof.
  split; [|split; [|split; [|split]]].
  - intros g1 m1 g2 m2 [H1 | []] [H2 | []] Hlt.
    inversion H1; inversion H2; subst.
    exfalso. exact (Qclt_not_eq _ _ Hlt eq_refl).
  - qc_le.
  - qc_eq.
  - qc_eq.
  - intros H. apply leb_le in H. vm_compute in H. discriminate.
Qed.

Lemma course_round_trip_witness :
  Course.from_dict (Course.to_dict Examples.homework) = Examples.homework.
Proof.
  apply (course_round_trip Examples.homework).
  - repeat constructor; simpl; intuition discriminate.
  - repeat constructor; simpl.
    + intros [H | []]. apply (f_equal this) in H. vm_compute in H. discriminate.
    + intros [].
Defined.

(** * The solver's claims *)

(** For a graded category with more grades than drops and no final-exam
    substitution, the mean the solver takes is the category average. *)
Lemma solver_term_average (course : Course.t)
    (Hwf : Dict.wf course.(Course.categories))
    (name : string) (c : GradeCategory.t) :
  In (name, c) course.(Course.categories) ->
  (c.(GradeCategory.grades) <> [] ->
   (c.(GradeCategory.drops)
    < Z.of_nat (List.length c.(GradeCategory.grades)))%Z
   /\ final_exam_applies course name = false) ->
  solver_term (name, c) = contribution_term course (name, c).
Proof.
  intros Hin H.
  unfold solver_term, contribution_term, has_grades. cbn [fst snd].
  destruct (GradeCategory.grades c) as [|g gs] eqn:Eg; [reflexivity|].
  assert (Hne : GradeCategory.grades c <> []) by congruence.
  rewrite <- Eg in H. destruct (H Hne) as [Hd Hf].
  rewrite (calculate_category_average_eq course name c
             (get_of_in course Hwf name c Hin)).
  rewrite (final_exam_replacement_skip _ _ _ Hf).
  rewrite <- (kept_grades_effective c Hd).
  pose proof (kept_grades_not_nil c Hne) as K.
  destruct (kept_grades c); [congruence|reflexivity].
Qed.

(** C1, as amended. On a course whose graded categories have more recorded
    grades than drops, a non-zero effective total and no final-exam
    substitution, the solver's [current_contribution] is the sum over the
    graded categories of [calculate_category_average] times weight/100 times
    the completed fraction (grades kept after the drops over the effective
    total); [total_weight_used] is the sum of those completed weights.  It is
    the numerator of the current grade with every term scaled by its
    completed fraction, and is not divided by the weight used. *)
Theorem current_contribution_by_terms (course : Course.t)
    (Hwf : Dict.wf course.(Course.categories))
    (Hgraded : forall name c,
        In (name, c) course.(Course.categories) ->
        c.(GradeCategory.grades) <> [] ->
        (c.(GradeCategory.drops)
         < Z.of_nat (List.length c.(GradeCategory.grades)))%Z
        /\ effective_total c <> 0%Z
        /\ final_exam_applies course name = false) :
  solver_contribution course
  = Ok (Num.sum (map (contribution_term course) course.(Course.categories)),
        Num.sum (map completed_weight_term course.(Course.categories)),
        existsb has_grades course.(Course.categories)).
Proof.
  rewrite (solver_contribution_eq course Hwf).
  - apply ok_triple; [|reflexivity].
    f_equal. apply map_ext_in. intros [name c] Hin.
    apply (solver_term_average course Hwf name c Hin).
    intros Hne. destruct (Hgraded name c Hin Hne) as [Hd [_ Hf]].
    split; assumption.
  - intros name c Hin Hne. apply (Hgraded name c Hin Hne).
Qed.

Lemma current_contribution_by_terms_witness :
  solver_contribution Examples.quiz
  = Ok (Examples.q 85 / Examples.q 2, Examples.q 1 / Examples.q 2, true).
Proof.
  rewrite (current_contribution_by_terms Examples.quiz).
  - qc_eq.
  - repeat constructor; simpl; intuition discriminate.
  - intros name c [H | []] _. inversion H; subst.
    split; [reflexivity|]. split; [discriminate|reflexivity].
Defined.

(** C1 as stated fails: for one quiz of two recorded at 85 the solver's
    contribution is 42.5 while the weighted average of completed work, the
    current grade, is 85. *)
Lemma contribution_is_not_current_grade :
  solver_contribution Examples.quiz
  = Ok (Examples.q 85 / Examples.q 2, Examples.q 1 / Examples.q 2, true)
  /\ Course.calculate_current_grade Examples.quiz = Examples.q 85
  /\ Examples.q 85 / Examples.q 2 <> Examples.q 85.
Proof.
  split; [|split].
  - unfold solver_contribution. qc_eq.
  - qc_eq.
  - intros H. apply (f_equal this) in H. vm_compute in H. discriminate.
Qed.

(** C2 fails on the code.  The policy box only ever shows the three entries
    of [final_policy_items], and with "Replace Lowest Test (Experimental, use
    at own risk)" selected the Final slot gets its own per-slot weight 0.6,
    not 0.6 + 0.2.  With the text "Replace Lowest Test" itself, the Test
    share added is weight / total_assignments (0.4 / 3), not the per-slot
    weight over the effective total (0.4 / 2). *)
Theorem final_slot_weight_evaluated :
  In "Replace Lowest Test (Experimental, use at own risk)"
     GPACalculator.final_policy_items
  /\ ~ In "Replace Lowest Test" GPACalculator.final_policy_items
  /\ solver_slots Examples.test_and_final
       "Replace Lowest Test (Experimental, use at own risk)" true
     = Ok [("Final", Examples.q 60 / Examples.q 100)]
  /\ solver_slots Examples.test_with_drop "Replace Lowest Test" true
     = Ok [("Final", Examples.q 60 / Examples.q 100
                     + Examples.q 40 / Examples.q 100 / Examples.q 3)]
  /\ Examples.q 60 / Examples.q 100
       + Examples.q 40 / Examples.q 100 / Examples.q 3
     <> Examples.q 60 / Examples.q 100
        + Examples.q 40 / Examples.q 100 / Examples.q 2.
Proof.
  split; [right; left; reflexivity|].
  split; [simpl; intuition discriminate|].
  split; [unfold solver_slots; qc_eq|].
  split; [unfold solver_slots; qc_eq|].
  intros H. apply (f_equal this) in H. vm_compute in H. discriminate.
Qed.

(** C7 fails on the code.  A course whose only category is a "Final" of
    weight 0 with one assignment, which [add_category] accepts, has exactly
    one slot left, the one of "Final", with weight 0.  No grade is recorded,
    so [current_contribution] is still the Python number [0] and the solver
    divides two Python floats: it raises [ZeroDivisionError], neither a value
    nor the "Cannot achieve" error, for every policy text, optimizer and
    boundary.  With a recorded grade elsewhere [current_contribution] is a
    NumPy float, the quotient is an infinity or NaN, and the same weight
    gives the "Cannot achieve" error. *)
Theorem final_weight_zero_raises (text : string)
    (minimize : list (string * Qc) -> list Qc -> Qc -> Qc -> option (list Qc))
    (boundary : Qc) :
  solver_slots Examples.weightless_final text false = Ok [("Final", 0)]
  /\ GPACalculator.required_grades_for Examples.weightless_final text minimize
       boundary
     = Raise ZeroDivisionError
  /\ solver_slots Examples.graded_weightless_final text false
     = Ok [("Final", 0)]
  /\ GPACalculator.required_grades_for Examples.graded_weightless_final text
       minimize boundary
     = Raise (ValueError GPACalculator.msg_final).
Proof.
  split; [unfold solver_slots; qc_eq|].
  split.
  { unfold GPACalculator.required_grades_for.
    change (Dict.mem String.eqb "Test"
              (GPACalculator.current_grades_of Examples.weightless_final))
      with false.
    rewrite andb_false_r. cbn [andb]. vm_compute. reflexivity. }
  split; [unfold solver_slots; qc_eq|].
  unfold GPACalculator.required_grades_for.
  change (Dict.mem String.eqb "Test"
            (GPACalculator.current_grades_of Examples.graded_weightless_final))
    with false.
  rewrite andb_false_r. cbn [andb]. vm_compute. reflexivity.
Qed.

(** C8, as amended. When no category has a slot left, counting the grades
    the solver keeps after its drop step (effective total minus kept grades
    is at most zero in every category), and no graded category has a zero
    effective total, the solver returns the empty result for every target,
    policy text and optimizer. *)
Theorem nothing_left_returns_empty
    (course : Course.t) (text : string)
    (minimize : list (string * Qc) -> list Qc -> Qc -> Qc -> option (list Qc))
    (boundary : Qc)
    (Hwf : Dict.wf course.(Course.categories))
    (Hnone : forall name c,
        In (name, c) course.(Course.categories) ->
        (effective_total c - Z.of_nat (List.length (kept_grades c)) <= 0)%Z
        /\ (c.(GradeCategory.grades) <> [] -> effective_total c <> 0%Z)) :
  GPACalculator.required_grades_for course text minimize boundary = Ok [].
Proof.
  unfold GPACalculator.required_grades_for.
  destruct (negb (text =? "No Replacement")%string
            && Dict.mem String.eqb "Test" (GPACalculator.current_grades_of course)
            && GPACalculator.has_lowest_test_grade course);
    apply find_minimum_balanced_grades_none; assumption.
Qed.

Lemma nothing_left_returns_empty_witness :
  GPACalculator.required_grades_for Examples.complete "No Replacement"
    Examples.no_solution (Examples.q 90)
  = Ok [].
Proof.
  apply (nothing_left_returns_empty Examples.complete).
  - repeat constructor; simpl; intuition discriminate.
  - intros name c [H | []]. inversion H; subst.
    split; [vm_compute; discriminate|]. intros _. discriminate.
Defined.

(** C8 as stated fails: with four assignments, one drop and three grades
    recorded, effective total minus recorded count is 0, yet the solver keeps
    two grades, sees one slot left and does not return the empty result,
    whatever the optimizer answers. *)
Lemma recorded_count_is_not_kept_count :
  (forall name c,
     In (name, c) Examples.three_of_four.(Course.categories) ->
     (effective_total c - Z.of_nat (List.length c.(GradeCategory.grades)) <= 0)%Z)
  /\ solver_slots Examples.three_of_four "No Replacement" false
     = Ok [("Homework", Examples.q 1 / Examples.q 3)]
  /\ forall minimize boundary,
       GPACalculator.required_grades_for Examples.three_of_four
         "No Replacement" minimize boundary
       <> Ok [].
Proof.
  split; [|split].
  - intros name c [H | []]. inversion H; subst. vm_compute. discriminate.
  - unfold solver_slots. qc_eq.
  - intros minimize boundary.
    unfold GPACalculator.required_grades_for.
    change (negb ("No Replacement" =? "No Replacement")%string) with false.
    cbn [andb].
    pose proof (process_drops_eq Examples.three_of_four) as Hd.
    unfold GPACalculator.find_minimum_balanced_grades.
    rewrite Hd by (repeat constructor; simpl; intuition discriminate).
    cbn [bind].
    destruct (GPACalculator.calculate_current_contribution _ _ _ _)
      as [[[cc twu] np]|e]; [|discriminate].
    cbn [bind].
    assert (Hs : solver_slots Examples.three_of_four "No Replacement" false
                 = Ok [("Homework", Examples.q 1 / Examples.q 3)])
      by (unfold solver_slots; qc_eq).
    unfold solver_slots in Hs.
    rewrite Hd in Hs by (repeat constructor; simpl; intuition discriminate).
    cbn [bind] in Hs. rewrite Hs. cbn [bind].
    cbn -[GPACalculator.group_by_category GPACalculator.format_results Num.ltb].
    match goal with
    | |- context [match ?m with Some _ => _ | None => _ end] => destruct m as [grades|]
    end; [|discriminate].
    match goal with
    | |- context [if ?b then _ else _] => destruct b
    end; [discriminate|].
    vm_compute. discriminate.
Qed.

(** * The programs over the store compute what [Course] computes *)

Section Agreement.

Import CourseObject.

Lemma read_new (h : Store.t) (l : list Qc) :
  Store.read (List.length h) (h ++ [l]) = l.
Proof. unfold Store.read. apply nth_middle. Qed.

Lemma read_old (h newer : Store.t) (r : Store.ref) :
  (r < List.length h)%nat -> Store.read r (h ++ newer) = Store.read r h.
Proof. intros H. unfold Store.read. apply app_nth1. exact H. Qed.

Lemma read_write (h : Store.t) (r : Store.ref) (l : list Qc) :
  (r < List.length h)%nat -> Store.read r (Store.write r l h) = l.
Proof.
  revert r. induction h as [|x h IH]; intros r H; simpl in H; [lia|].
  destruct r as [|r]; simpl; [reflexivity|].
  unfold Store.read in *. simpl. apply IH. lia.
Qed.

Lemma get_snapshot (h : Store.t) (name : string)
    (cats : Dict.t string category) :
  Dict.get String.eqb name
    (map (fun kv => (fst kv, snapshot_category h (snd kv))) cats)
  = match Dict.get String.eqb name cats with
    | Some c => Some (snapshot_category h c)
    | None => None
    end.
Proof.
  apply (get_map String.eqb String.eqb_eq (fun _ => snapshot_category h)).
Qed.

Lemma get_some_in {V} (name : string) (v : V) (d : Dict.t string V) :
  Dict.get String.eqb name d = Some v -> In (name, v) d.
Proof.
  induction d as [|[k v'] d IH]; simpl; [discriminate|].
  destruct (String.eqb name k) eqn:E.
  - apply String.eqb_eq in E. subst. intros H. inversion H. left. reflexivity.
  - intros H. right. apply IH. exact H.
Qed.

Lemma final_exam_replacement_value (name : string) (r : Store.ref)
    (c : course) (h h' : Store.t) :
  Store.extends h h' -> valid (mk_state c h) ->
  (r < List.length h')%nat ->
  Store.read r
    (lists (snd (final_exam_replacement name r (mk_state c h'))))
  = Course.final_exam_replacement (snapshot (mk_state c h)) name
      (Store.read r h').
Proof.
  intros X V Hr.
  unfold final_exam_replacement, Course.final_exam_replacement, Dict.mem.
  unfold bindM at 1, attr at 1. cbn [self lists snd fst].
  unfold bindM at 1, attr at 1. cbn [self lists snd fst].
  unfold snapshot. cbn [Course.categories Course.final_policy self lists].
  rewrite get_snapshot.
  destruct ((name =? "Test")%string); cbn [andb]; [|reflexivity].
  destruct (Dict.get String.eqb "Final" (categories c)) as [final|] eqn:Ef;
    cbn [andb]; [|reflexivity].
  destruct (negb (final_policy c =? "No Replacement")%string); [|reflexivity].
  assert (Hf : Store.read (grades final) h' = Store.read (grades final) h).
  { destruct X as [newer ->]. apply read_old.
    apply (V ("Final", final)). simpl. apply get_some_in. exact Ef. }
  unfold bindM at 1, read_list at 1. cbn [self lists snd fst].
  unfold bindM at 1, new_list at 1. cbn [self lists snd fst].
  unfold bindM at 1, read_list at 1. cbn [self lists snd fst].
  rewrite read_new, Hf. cbn [snapshot_category GradeCategory.grades].
  destruct (map Num.float (Store.read (grades final) h)) as [|final_grade later].
  { simpl. apply read_old. exact Hr. }
  unfold bindM at 1, read_list at 1. cbn [self lists snd fst].
  rewrite (read_old h' _ r Hr).
  assert (Hr' : (r < List.length (h' ++ [final_grade :: later]))%nat)
    by (rewrite length_app; simpl; lia).
  destruct (final_policy c =? "Replace Lowest Test")%string.
  { destruct (Store.read r h') as [|g0 rest] eqn:Eg.
    - simpl. rewrite (read_old h' _ r Hr). exact Eg.
    - destruct (Num.ltb g0 final_grade).
      + unfold setitem0. cbn [self lists snd fst].
        rewrite (read_write _ r _ Hr'). rewrite (read_old h' _ r Hr), Eg.
        reflexivity.
      + simpl. rewrite (read_old h' _ r Hr). exact Eg. }
  destruct (final_policy c =? "Average with Lowest Test")%string.
  { destruct (Store.read r h') as [|g0 rest] eqn:Eg.
    - simpl. rewrite (read_old h' _ r Hr). exact Eg.
    - unfold setitem0. cbn [self lists snd fst].
      rewrite (read_write _ r _ Hr'). rewrite (read_old h' _ r Hr), Eg.
      reflexivity. }
  simpl. apply read_old. exact Hr.
Qed.

Lemma calculate_category_average_value (name : string) (s : state) :
  valid s ->
  fst (calculate_category_average name s)
  = Course.calculate_category_average (snapshot s) name.
Proof.
  intros V. destruct s as [c h].
  unfold calculate_category_average, Course.calculate_category_average.
  unfold bindM at 1, attr at 1. cbn [self lists snd fst].
  unfold snapshot at 1. cbn [Course.categories self lists].
  rewrite get_snapshot.
  destruct (Dict.get String.eqb name (categories c)) as [category|];
    [|reflexivity].
  unfold bindM at 1, read_list at 1. cbn [self lists snd fst].
  cbn [snapshot_category GradeCategory.grades GradeCategory.drops].
  destruct (Store.read (grades category) h) as [|g gs] eqn:Er; [reflexivity|].
  cbv zeta.
  unfold bindM at 1, new_list at 1. cbn [self lists snd fst].
  unfold bindM at 1, read_list at 1. cbn [self lists snd fst].
  rewrite read_new.
  unfold bindM at 1, new_list at 1. cbn [self lists snd fst].
  destruct (0 <? drops category)%Z.
  - unfold bindM at 1. unfold bindM at 1.
    unfold read_list at 1, new_list at 1. cbn [self lists snd fst].
    rewrite read_new.
    unfold bindM at 1.
    match goal with
    | |- context [final_exam_replacement name ?r (mk_state c ?h')] =>
        pose proof (final_exam_replacement_value name r c h h') as F;
        destruct (final_exam_replacement name r (mk_state c h')) as [u s']
    end.
    cbn [snd fst] in *. unfold bindM, read_list, ret. cbn [fst snd].
    rewrite F.
    + rewrite read_new. reflexivity.
    + eexists. rewrite <- !app_assoc. reflexivity.
    + exact V.
    + rewrite !length_app. simpl. lia.
  - unfold bindM at 1. unfold ret at 1. unfold bindM at 1.
    match goal with
    | |- context [final_exam_replacement name ?r (mk_state c ?h')] =>
        pose proof (final_exam_replacement_value name r c h h') as F;
        destruct (final_exam_replacement name r (mk_state c h')) as [u s']
    end.
    cbn [snd fst] in *. unfold bindM, read_list, ret. cbn [fst snd].
    rewrite F.
    + rewrite read_new. reflexivity.
    + eexists. rewrite <- !app_assoc. reflexivity.
    + exact V.
    + rewrite !length_app. simpl. lia.
Qed.

Lemma snapshot_unchanged (s s' : state) :
  valid s -> unchanged s s' -> snapshot s' = snapshot s /\ valid s'.
Proof.
  intros V [E [newer X]]. destruct s as [c h], s' as [c' h']. simpl in *. subst.
  split.
  - unfold snapshot. cbn [self lists]. f_equal.
    apply map_ext_in. intros item Hin. f_equal.
    unfold snapshot_category. f_equal. apply read_old. apply (V item Hin).
  - intros item Hin. pose proof (V item Hin) as Hv.
    cbn [self lists] in *. rewrite length_app. lia.
Qed.

Lemma current_grade_loop_value (items : list (string * category))
    (acc : Qc * Qc) (s0 s : state) :
  valid s0 -> unchanged s0 s ->
  (forall item, In item items -> In item s0.(self).(categories)) ->
  fst (current_grade_loop items acc s)
  = fold_left (Course.current_grade_step (snapshot s0))
      (map (fun kv => (fst kv, snapshot_category s0.(lists) (snd kv))) items)
      acc.
Proof.
  revert acc s. induction items as [|[name c] items IH]; intros acc s V U Hin.
  - reflexivity.
  - destruct (snapshot_unchanged s0 s V U) as [Es Vs].
    cbn [current_grade_loop map fold_left fst snd].
    unfold bindM at 1, read_list at 1. cbn [fst snd].
    assert (Hr : Store.read (grades c) (lists s)
                 = Store.read (grades c) (lists s0)).
    { destruct U as [_ X]. apply extends_read; [exact X|].
      apply (V (name, c)). apply Hin. left. reflexivity. }
    rewrite Hr.
    unfold Course.current_grade_step at 2. destruct acc as [a b].
    cbn [snapshot_category GradeCategory.grades GradeCategory.weight].
    destruct (Store.read (grades c) (lists s0)) as [|g gs].
    + apply IH; [exact V|exact U|]. intros item Hi. apply Hin. right. exact Hi.
    + unfold bindM.
      pose proof (calculate_category_average_value name s Vs) as Ev.
      pose proof (calculate_category_average_unchanged name s) as Us.
      destruct (calculate_category_average name s) as [average s1].
      cbn [fst snd] in *. rewrite Ev, Es.
      apply IH; [exact V|eapply unchanged_trans; eassumption|].
      intros item Hi. apply Hin. right. exact Hi.
Qed.

Lemma calculate_current_grade_value (s : state) :
  valid s ->
  fst (calculate_current_grade s) = Course.calculate_current_grade (snapshot s).
Proof.
  intros V. unfold calculate_current_grade, Course.calculate_current_grade.
  unfold bindM at 1, attr at 1. cbn [fst snd]. unfold bindM.
  pose proof (current_grade_loop_value (categories (self s)) (0, 0) s s V
                (unchanged_refl s) (fun item H => H)) as E.
  destruct (current_grade_loop (categories (self s)) (0, 0) s) as [totals s1].
  cbn [fst snd] in E. unfold snapshot at 2. cbn [Course.categories].
  rewrite <- E. destruct totals as [a b]. cbn [fst snd].
  destruct (Num.ltb 0 b); reflexivity.
Qed.

Lemma get_gpa_points_value (percentage : Qc) (s : state) :
  fst (get_gpa_points percentage s)
  = Course.get_gpa_points (snapshot s) percentage.
Proof.
  unfold get_gpa_points, Course.get_gpa_points, bindM, attr, ret, snapshot.
  cbn [fst snd Course.grade_boundaries].
  destruct (grade_boundaries (self s)); reflexivity.
Qed.

End Agreement.

(** The three query programs over the store return what the functions of
    [Course] return on the course the store holds. *)
Theorem store_queries_agree (s : CourseObject.state) (name : string)
    (percentage : Qc) (Hvalid : CourseObject.valid s) :
  fst (CourseObject.calculate_category_average name s)
  = Course.calculate_category_average (CourseObject.snapshot s) name
  /\ fst (CourseObject.calculate_current_grade s)
     = Course.calculate_current_grade (CourseObject.snapshot s)
  /\ fst (CourseObject.get_gpa_points percentage s)
     = Course.get_gpa_points (CourseObject.snapshot s) percentage.
Proof.
  split; [apply calculate_category_average_value; exact Hvalid|].
  split; [apply calculate_current_grade_value; exact Hvalid|].
  apply get_gpa_points_value.
Qed.

Lemma store_queries_agree_witness :
  fst (CourseObject.calculate_category_average "Homework"
         Examples.homework_state)
  = Examples.q 90
  /\ fst (CourseObject.calculate_current_grade Examples.homework_state)
     = Examples.q 90
  /\ fst (CourseObject.get_gpa_points (Examples.q 85) Examples.homework_state)
     = Examples.q 3.
Proof.
  assert (V : CourseObject.valid Examples.homework_state).
  { intros item [H | []]. subst. simpl. lia. }
  destruct (store_queries_agree Examples.homework_state "Homework"
              (Examples.q 85) V) as [E1 [E2 E3]].
  rewrite E1, E2, E3. repeat split; qc_eq.
Defined.

(** * A fully recorded course *)

Section CompleteCourse.

Lemma of_Z_not_zero (z : Z) : z <> 0%Z -> Num.of_Z z <> 0.
Proof.
  intros Hz E. unfold Num.of_Z in E. change 0 with (Q2Qc 0%Q) in E.
  apply Q2Qc_eq_iff in E. unfold Qeq, inject_Z in E. simpl in E. lia.
Qed.

Lemma completed_fraction_one (c : GradeCategory.t) :
  Z.of_nat (List.length (kept_grades c)) = effective_total c ->
  effective_total c <> 0%Z ->
  completed_fraction c = 1.
Proof.
  intros E Hz. unfold completed_fraction, Num.len. rewrite E.
  field. apply of_Z_not_zero. exact Hz.
Qed.

Lemma sum_map_filter {A} (p : A -> bool) (f : A -> Qc) (l : list A) :
  Num.sum (map (fun x => if p x then f x else 0) l)
  = Num.sum (map f (filter p l)).
Proof.
  induction l as [|x l IH]; [reflexivity|].
  cbn [map filter]. rewrite sum_cons.
  destruct (p x).
  - cbn [map]. rewrite sum_cons, IH. reflexivity.
  - rewrite IH. ring.
Qed.

End CompleteCourse.

(** When, besides the conditions of C1, every graded category is fully
    recorded (the grades kept fill the effective total) and the weight used
    is positive, the solver's [current_contribution] is the current grade
    times the weight used. *)
Theorem complete_course_contribution (course : Course.t)
    (Hwf : Dict.wf course.(Course.categories))
    (Hgraded : forall name c,
        In (name, c) course.(Course.categories) ->
        c.(GradeCategory.grades) <> [] ->
        (c.(GradeCategory.drops)
         < Z.of_nat (List.length c.(GradeCategory.grades)))%Z
        /\ effective_total c <> 0%Z
        /\ final_exam_applies course name = false
        /\ Z.of_nat (List.length (kept_grades c)) = effective_total c)
    (Hused : 0 < Num.sum (map weight_term
                            (filter has_grades course.(Course.categories)))) :
  let weight_used :=
    Num.sum (map weight_term (filter has_grades course.(Course.categories))) in
  solver_contribution course
  = Ok (Course.calculate_current_grade course * weight_used, weight_used,
        existsb has_grades course.(Course.categories)).
Proof.
  intros weight_used.
  assert (Hne : forall name c, has_grades (name, c) = true ->
                               GradeCategory.grades c <> []).
  { intros name c Eh. unfold has_grades in Eh. cbn [snd] in Eh.
    destruct (GradeCategory.grades c); [discriminate|congruence]. }
  rewrite (solver_contribution_eq course Hwf).
  - assert (E1 : map solver_term course.(Course.categories)
                 = map (fun item => if has_grades item
                                    then weighted_average_term course item
                                    else 0) course.(Course.categories)).
    { apply map_ext_in. intros [name c] Hin.
      rewrite (solver_term_average course Hwf name c Hin).
      - unfold contribution_term, weighted_average_term.
        destruct (has_grades (name, c)) eqn:Eh; [|reflexivity].
        cbn [fst snd].
        destruct (Hgraded name c Hin (Hne name c Eh)) as [_ [Hz [_ Hc]]].
        rewrite (completed_fraction_one c Hc Hz). ring.
      - intros Hg. destruct (Hgraded name c Hin Hg) as [Hd [_ [Hf _]]].
        split; assumption. }
    assert (E2 : map completed_weight_term course.(Course.categories)
                 = map (fun item => if has_grades item then weight_term item
                                    else 0) course.(Course.categories)).
    { apply map_ext_in. intros [name c] Hin.
      unfold completed_weight_term, weight_term.
      destruct (has_grades (name, c)) eqn:Eh; [|reflexivity].
      cbn [fst snd].
      destruct (Hgraded name c Hin (Hne name c Eh)) as [_ [Hz [_ Hc]]].
      rewrite (completed_fraction_one c Hc Hz). ring. }
    rewrite E1, E2, !sum_map_filter. fold weight_used.
    rewrite calculate_current_grade_eq. cbv zeta. fold weight_used.
    assert (L : Num.ltb 0 weight_used = true) by (apply ltb_lt; exact Hused).
    rewrite L. apply ok_triple; [|reflexivity].
    symmetry. apply div_mul_cancel. exact Hused.
  - intros name c Hin Hg.
    destruct (Hgraded name c Hin Hg) as [_ [H2 _]]. exact H2.
Qed.

Lemma complete_course_contribution_witness :
  solver_contribution Examples.complete
  = Ok (Examples.q 85, Examples.q 1, true).
Proof.
  rewrite (complete_course_contribution Examples.complete).
  - qc_eq.
  - repeat constructor; simpl; intuition discriminate.
  - intros name c [H | []] _. inversion H; subst.
    split; [reflexivity|]. split; [discriminate|].
    split; reflexivity.
  - qc_lt.
Defined.

(** * Further properties of [Course] *)

Section PairFacts.

Lemma map_pair_id {A B} (l : list (A * B)) :
  map (fun kv => (fst kv, snd kv)) l = l.
Proof.
  rewrite (map_ext _ (fun kv => kv)) by (intros [? ?]; reflexivity).
  apply map_id.
Qed.

End PairFacts.

Section GpaLookup.

Lemma first_boundary_highest (p : Qc) (l : list (Qc * Qc)) :
  StronglySorted gpa_desc l ->
  (exists a, In a l /\ snd a <= p) ->
  (exists minimum, In (Course.first_boundary p l, minimum) l /\ minimum <= p)
  /\ forall a, In a l -> snd a <= p -> fst a <= Course.first_boundary p l.
Proof.
  induction 1 as [|[gpa minimum] l S IH Hall]; intros [a [Ha Hp]]; [destruct Ha|].
  simpl. destruct (Num.leb minimum p) eqn:E.
  - apply leb_le in E. unfold Num.float. split.
    + exists minimum. split; [left; reflexivity|exact E].
    + intros b [<- | Hb] _; [apply Qcle_refl|].
      rewrite Forall_forall in Hall. apply (Hall b Hb).
  - assert (Hl : exists a, In a l /\ snd a <= p).
    { destruct Ha as [<- | Ha].
      - simpl in Hp. apply leb_le in Hp. congruence.
      - exists a. split; assumption. }
    destruct (IH Hl) as [[m [Hm Hmp]] Hmax]. split.
    + exists m. split; [right; exact Hm|exact Hmp].
    + intros b [<- | Hb] Hbp.
      * simpl in Hbp. apply leb_le in Hbp. congruence.
      * apply Hmax; assumption.
Qed.

Lemma first_boundary_none (p : Qc) (l : list (Qc * Qc)) :
  (forall a, In a l -> ~ snd a <= p) -> Course.first_boundary p l = 0.
Proof.
  induction l as [|[gpa minimum] l IH]; intros H; [reflexivity|].
  simpl. destruct (Num.leb minimum p) eqn:E.
  - apply leb_le in E. exfalso. apply (H (gpa, minimum)); [left; reflexivity|exact E].
  - apply IH. intros a Ha. apply H. right. exact Ha.
Qed.

Lemma get_gpa_points_sorted (self : Course.t) (p : Qc) :
  Course.get_gpa_points self p
  = Course.first_boundary p (Course.sorted_reverse self.(Course.grade_boundaries)).
Proof.
  unfold Course.get_gpa_points, Num.float. rewrite map_pair_id.
  destruct (Course.grade_boundaries self); reflexivity.
Qed.

End GpaLookup.

(** [get_gpa_points] returns the highest GPA point whose minimum the
    percentage reaches: when some boundary is reached, the result is the GPA
    point of a reached boundary and no reached boundary has a higher one;
    when none is reached (or there is none), the result is [0]. *)
Theorem gpa_points_highest_reached (self : Course.t) (p : Qc) :
  ((exists gpa minimum,
      In (gpa, minimum) self.(Course.grade_boundaries) /\ minimum <= p) ->
   (exists minimum,
      In (Course.get_gpa_points self p, minimum) self.(Course.grade_boundaries)
      /\ minimum <= p)
   /\ forall gpa minimum,
        In (gpa, minimum) self.(Course.grade_boundaries) -> minimum <= p ->
        gpa <= Course.get_gpa_points self p)
  /\ ((forall gpa minimum,
         In (gpa, minimum) self.(Course.grade_boundaries) -> ~ minimum <= p) ->
      Course.get_gpa_points self p = 0).
Proof.
  rewrite get_gpa_points_sorted.
  pose proof (sorted_reverse_permutation self.(Course.grade_boundaries)) as P.
  split.
  - intros [gpa [minimum [Hin Hp]]].
    destruct (first_boundary_highest p _
                (sorted_reverse_sorted self.(Course.grade_boundaries)))
      as [[m [Hm Hmp]] Hmax].
    { exists (gpa, minimum). split; [|exact Hp].
      apply (Permutation_in _ (Permutation_sym P)). exact Hin. }
    split.
    + exists m. split; [|exact Hmp]. apply (Permutation_in _ P). exact Hm.
    + intros g m' Hg Hm'. apply (Hmax (g, m')); [|exact Hm'].
      apply (Permutation_in _ (Permutation_sym P)). exact Hg.
  - intros Hnone. apply first_boundary_none.
    intros [g m] Ha. apply (Hnone g m). apply (Permutation_in _ P). exact Ha.
Qed.

(** * Ranges *)

Section Ranges.

Lemma of_Z_add (a b : Z) : Num.of_Z (a + b) = Num.of_Z a + Num.of_Z b.
Proof.
  unfold Num.of_Z, Qcplus. apply Q2Qc_eq_iff. cbn [this Q2Qc].
  rewrite !Qred_correct, inject_Z_plus. reflexivity.
Qed.

Lemma of_Z_positive (z : Z) : (0 < z)%Z -> 0 < Num.of_Z z.
Proof.
  intros H. unfold Qclt, Num.of_Z. change 0 with (Q2Qc 0%Q).
  cbn [this Q2Qc]. rewrite !Qred_correct.
  unfold Qlt, inject_Z. simpl. lia.
Qed.

Lemma len_cons {A} (x : A) (l : list A) : Num.len (x :: l) = Num.len l + 1.
Proof.
  unfold Num.len. cbn [List.length]. rewrite Nat2Z.inj_succ, <- Z.add_1_r.
  rewrite of_Z_add. reflexivity.
Qed.

Lemma len_positive {A} (x : A) (l : list A) : 0 < Num.len (x :: l).
Proof. unfold Num.len. apply of_Z_positive. simpl. lia. Qed.

Lemma sum_in_range (lo hi : Qc) (l : list Qc) :
  (forall x, In x l -> lo <= x /\ x <= hi) ->
  lo * Num.len l <= Num.sum l /\ Num.sum l <= hi * Num.len l.
Proof.
  induction l as [|x l IH]; intros H.
  - unfold Num.len, Num.sum. simpl. change (Num.of_Z 0) with 0.
    rewrite !Qcmult_0_r. split; apply Qcle_refl.
  - rewrite sum_cons, len_cons.
    destruct (H x (or_introl eq_refl)) as [Hlo Hhi].
    destruct IH as [IHlo IHhi]; [intros y Hy; apply H; right; exact Hy|].
    split.
    + replace (lo * (Num.len l + 1)) with (lo + lo * Num.len l) by ring.
      apply Qcplus_le_compat; assumption.
    + replace (hi * (Num.len l + 1)) with (hi + hi * Num.len l) by ring.
      apply Qcplus_le_compat; assumption.
Qed.

Lemma quotient_in_range (lo hi s n : Qc) :
  0 < n -> lo * n <= s -> s <= hi * n -> lo <= s / n /\ s / n <= hi.
Proof.
  intros Hn Hlo Hhi. split.
  - apply (Qcmult_lt_0_le_reg_r _ _ n Hn). rewrite (div_mul_cancel s n Hn).
    exact Hlo.
  - apply (Qcmult_lt_0_le_reg_r _ _ n Hn). rewrite (div_mul_cancel s n Hn).
    exact Hhi.
Qed.

Lemma mean_or_zero_in_range (l : list Qc) :
  (forall x, In x l -> 0 <= x /\ x <= Num.of_Z 100) ->
  0 <= Num.mean_or_zero l /\ Num.mean_or_zero l <= Num.of_Z 100.
Proof.
  intros H. destruct l as [|x l].
  - simpl. split; [apply Qcle_refl|qc_le].
  - cbn [Num.mean_or_zero]. unfold Num.mean.
    destruct (sum_in_range 0 (Num.of_Z 100) (x :: l) H) as [Hlo Hhi].
    apply quotient_in_range; [apply len_positive|exact Hlo|exact Hhi].
Qed.

Lemma in_skipn {A} (n : nat) (l : list A) (x : A) : In x (skipn n l) -> In x l.
Proof.
  revert l. induction n as [|n IH]; intros l H; [exact H|].
  destruct l as [|y l]; [exact H|]. right. apply IH. exact H.
Qed.

Lemma half_in_range (x y : Qc) :
  0 <= x -> x <= Num.of_Z 100 -> 0 <= y -> y <= Num.of_Z 100 ->
  0 <= (x + y) / Num.of_Z 2 /\ (x + y) / Num.of_Z 2 <= Num.of_Z 100.
Proof.
  intros Hx0 Hx1 Hy0 Hy1.
  apply quotient_in_range.
  - qc_lt.
  - rewrite Qcmult_0_l. replace 0 with (0 + 0) by ring.
    apply Qcplus_le_compat; assumption.
  - replace (Num.of_Z 100 * Num.of_Z 2) with (Num.of_Z 100 + Num.of_Z 100).
    + apply Qcplus_le_compat; assumption.
    + apply Qc_is_canon. vm_compute. reflexivity.
Qed.

Lemma final_exam_replacement_in_range (self : Course.t) (name : string)
    (grades : list Qc) :
  grades_in_range self ->
  (forall x, In x grades -> 0 <= x /\ x <= Num.of_Z 100) ->
  forall x, In x (Course.final_exam_replacement self name grades) ->
            0 <= x /\ x <= Num.of_Z 100.
Proof.
  intros Hr Hg. unfold Course.final_exam_replacement.
  destruct ((name =? "Test")%string
            && Dict.mem String.eqb "Final" (Course.categories self)
            && negb (Course.final_policy self =? "No Replacement")%string);
    [|exact Hg].
  destruct (Dict.get String.eqb "Final" (Course.categories self)) as [final|] eqn:Ef;
    [|exact Hg].
  cbv zeta. rewrite map_float.
  destruct (GradeCategory.grades final) as [|final_grade later] eqn:Egf;
    [exact Hg|].
  assert (Hf : 0 <= final_grade /\ final_grade <= Num.of_Z 100).
  { apply (Hr "Final" final final_grade).
    - apply get_some_in. exact Ef.
    - rewrite Egf. left. reflexivity. }
  destruct (Course.final_policy self =? "Replace Lowest Test")%string.
  { destruct grades as [|g0 rest]; [exact Hg|].
    destruct (Num.ltb g0 final_grade); [|exact Hg].
    intros x [<- | Hx]; [exact Hf|]. apply Hg. right. exact Hx. }
  destruct (Course.final_policy self =? "Average with Lowest Test")%string;
    [|exact Hg].
  destruct grades as [|g0 rest]; [exact Hg|].
  intros x [<- | Hx].
  - destruct (Hg g0 (or_introl eq_refl)) as [H0 H1]. destruct Hf as [F0 F1].
    apply half_in_range; assumption.
  - apply Hg. right. exact Hx.
Qed.

Lemma category_average_range (self : Course.t) (name : string) :
  grades_in_range self ->
  0 <= Course.calculate_category_average self name
  /\ Course.calculate_category_average self name <= Num.of_Z 100.
Proof.
  intros Hr.
  destruct (Dict.get String.eqb name (Course.categories self)) as [c|] eqn:Eg.
  - rewrite (calculate_category_average_eq self name c Eg).
    apply mean_or_zero_in_range.
    apply final_exam_replacement_in_range; [exact Hr|].
    intros x Hx. unfold effective_grades in Hx. apply in_skipn in Hx.
    apply (Permutation_in _ (sorted_permutation _)) in Hx.
    apply (Hr name c x); [apply get_some_in; exact Eg|exact Hx].
  - unfold Course.calculate_category_average. rewrite Eg.
    split; [apply Qcle_refl|qc_le].
Qed.

End Ranges.

(** When every recorded grade lies in [0, 100], so does every category
    average, with or without a final-exam substitution, for a name the course
    has or not. *)
Theorem category_average_in_range (self : Course.t) (name : string)
    (Hgrades : grades_in_range self) :
  0 <= Course.calculate_category_average self name
  /\ Course.calculate_category_average self name <= Num.of_Z 100.
Proof.
  destruct (Dict.get String.eqb name (Course.categories self)) as [c|] eqn:Eg.
  - apply category_average_range. exact Hgrades.
  - unfold Course.calculate_category_average. rewrite Eg.
    split; [apply Qcle_refl|qc_le].
Qed.

(** * The handlers keep a course consistent *)

Section Handlers.

Import MainWindow.

Lemma mem_false_not_in {V} (k : string) (d : Dict.t string V) :
  Dict.mem String.eqb k d = false -> ~ In k (Dict.keys d).
Proof.
  unfold Dict.mem. intros H.
  apply (get_none_not_in String.eqb String.eqb_eq).
  destruct (Dict.get String.eqb k d); [discriminate|reflexivity].
Qed.

Lemma set_keys_present {V} (k : string) (v v' : V) (d : Dict.t string V) :
  Dict.get String.eqb k d = Some v' ->
  Dict.keys (Dict.set String.eqb k v d) = Dict.keys d.
Proof.
  induction d as [|[k' w] d IH]; simpl; [discriminate|].
  destruct (String.eqb k k') eqn:E; [reflexivity|].
  intros H. simpl. rewrite (IH H). reflexivity.
Qed.

Lemma in_set {V} (k : string) (v : V) (d : Dict.t string V) (n : string) (c : V) :
  In (n, c) (Dict.set String.eqb k v d) -> (n = k /\ c = v) \/ In (n, c) d.
Proof.
  induction d as [|[k' w] d IH]; simpl.
  - intros [H | []]. inversion H. left. split; reflexivity.
  - destruct (String.eqb k k') eqn:E.
    + apply String.eqb_eq in E. subst k'.
      intros [H | H]; [inversion H; left; split; reflexivity|right; right; exact H].
    + intros [H | H]; [right; left; exact H|].
      destruct (IH H) as [L | R]; [left; exact L|right; right; exact R].
Qed.

Lemma in_delitem {V} (k : string) (d : Dict.t string V) (item : string * V) :
  In item (delitem k d) -> In item d.
Proof.
  induction d as [|[k' w] d IH]; simpl; [intros []|].
  destruct (String.eqb k k').
  - intros H. right. exact H.
  - intros [H | H]; [left; exact H|right; apply IH; exact H].
Qed.

Lemma delitem_wf {V} (k : string) (d : Dict.t string V) :
  Dict.wf d -> Dict.wf (delitem k d).
Proof.
  unfold Dict.wf. induction d as [|[k' w] d IH]; simpl; intros ND; [exact ND|].
  inversion ND as [|? ? Hk ND']; subst.
  destruct (String.eqb k k'); [exact ND'|].
  simpl. constructor; [|apply IH; exact ND'].
  intros Hin. apply Hk. unfold Dict.keys in *. apply in_map_iff in Hin.
  destruct Hin as [[n c] [Hn Hc]]. simpl in Hn. subst n.
  apply in_delitem in Hc. change k' with (fst (k', c)). apply in_map. exact Hc.
Qed.

Lemma list_remove_in (x : Qc) (l l' : list Qc) :
  list_remove x l = Some l' -> forall y, In y l' -> In y l.
Proof.
  revert l'. induction l as [|z l IH]; simpl; intros l' H; [discriminate|].
  destruct (Num.eqb z x).
  - inversion H; subst. intros y Hy. right. exact Hy.
  - destruct (list_remove x l) as [r|]; [|discriminate].
    inversion H; subst. intros y [Hy | Hy]; [left; exact Hy|].
    right. apply (IH r eq_refl). exact Hy.
Qed.

Lemma list_remove_length (x : Qc) (l l' : list Qc) :
  list_remove x l = Some l' -> List.length l = S (List.length l').
Proof.
  revert l'. induction l as [|z l IH]; simpl; intros l' H; [discriminate|].
  destruct (Num.eqb z x).
  - inversion H; subst. reflexivity.
  - destruct (list_remove x l) as [r|]; [|discriminate].
    inversion H; subst. simpl. rewrite (IH r eq_refl). reflexivity.
Qed.

(** What [add_category] has checked when it edits the course. *)
Lemma add_category_updated course course' name w t d :
  add_category (Some course) name w t d = Updated course' ->
  exists weight total drops,
    w = Parsed weight
    /\ Num.ltb weight 0 = false
    /\ Num.ltb (Num.of_Z 100) weight = false
    /\ (drops <? 0)%Z = false
    /\ (total <=? drops)%Z = false
    /\ Dict.mem String.eqb name (Course.categories course) = false
    /\ course' = with_categories course
                   (Dict.set String.eqb name
                      (GradeCategory.init name weight total drops)
                      (Course.categories course)).
Proof.
  unfold add_category.
  destruct ((name =? "")%string || is_blank w || is_blank t); [discriminate|].
  destruct (read_float w) as [weight|] eqn:Ew; [|discriminate].
  destruct (read_int t) as [total|]; [|discriminate].
  destruct (if is_blank d then Some 0%Z else read_int d) as [drops|];
    [|discriminate].
  destruct (outside_0_100 weight) eqn:Eo; [discriminate|].
  destruct (total <? 0)%Z; [discriminate|].
  destruct (drops <? 0)%Z eqn:E4; [discriminate|].
  destruct (total <=? drops)%Z eqn:E5; [discriminate|].
  cbn [orb].
  destruct (Dict.mem String.eqb name (Course.categories course)) eqn:E6;
    [discriminate|].
  destruct weight as [weight| |negative]; try discriminate.
  intros H. inversion H; subst course'. clear H.
  exists weight, total, drops.
  cbn [outside_0_100] in Eo. apply orb_false_iff in Eo. destruct Eo as [E1 E2].
  destruct w; try discriminate. inversion Ew; subst.
  repeat (split; [first [reflexivity|assumption]|]). reflexivity.
Qed.

(** What [add_grade] has checked when it edits the course. *)
Lemma add_grade_updated course course' category g :
  add_grade (Some course) category g = Updated course' ->
  exists grade obj,
    g = Parsed grade
    /\ Num.ltb grade 0 = false
    /\ Num.ltb (Num.of_Z 100) grade = false
    /\ Dict.get String.eqb category (Course.categories course) = Some obj
    /\ (GradeCategory.total_assignments obj
        <=? Z.of_nat (List.length (GradeCategory.grades obj)))%Z = false
    /\ course' = with_categories course
                   (Dict.set String.eqb category
                      (with_grades obj (GradeCategory.grades obj ++ [grade]))
                      (Course.categories course)).
Proof.
  unfold add_grade.
  destruct (category =? "")%string; [discriminate|].
  destruct (is_blank g); [discriminate|].
  destruct (read_float g) as [grade|] eqn:Eg; [|discriminate].
  destruct (outside_0_100 grade) eqn:Eo; [discriminate|].
  destruct (Dict.get String.eqb category (Course.categories course))
    as [obj|] eqn:Ec; [|discriminate].
  destruct (GradeCategory.total_assignments obj
            <=? Z.of_nat (List.length (GradeCategory.grades obj)))%Z eqn:E3;
    [discriminate|].
  destruct grade as [grade| |negative]; try discriminate.
  intros H. inversion H; subst course'. clear H.
  exists grade, obj.
  cbn [outside_0_100] in Eo. apply orb_false_iff in Eo. destruct Eo as [E1 E2].
  destruct g; try discriminate. inversion Eg; subst.
  repeat (split; [first [reflexivity|assumption]|]). reflexivity.
Qed.

Lemma add_category_consistent course course' name w t d :
  consistent course ->
  add_category (Some course) name w t d = Updated course' ->
  consistent course'.
Proof.
  intros [Hwf Hc] H.
  destruct (add_category_updated _ _ _ _ _ _ H)
    as (weight & total & drops & _ & E1 & E2 & E4 & E5 & E6 & ->).
  clear H.
  apply mem_false_not_in in E6.
  unfold consistent, with_categories. cbn [Course.categories].
  rewrite (set_fresh String.eqb String.eqb_eq) by exact E6.
  split.
  - unfold Dict.wf, Dict.keys. rewrite map_app. simpl.
    apply NoDup_app_remove_l with (l := []). simpl.
    apply Permutation_NoDup with (l := name :: map fst (Course.categories course)).
    + apply Permutation_cons_append.
    + constructor; assumption.
  - intros n c Hin. apply in_app_or in Hin. destruct Hin as [Hin | [Hin | []]].
    + apply Hc. exact Hin.
    + inversion Hin; subst. unfold consistent_category, GradeCategory.init.
      cbn [GradeCategory.name GradeCategory.weight GradeCategory.drops
             GradeCategory.total_assignments GradeCategory.grades].
      unfold Num.float.
      apply ltb_ge in E1. apply ltb_ge in E2.
      apply Z.ltb_ge in E4. apply Z.leb_gt in E5.
      split; [reflexivity|]. split; [split; assumption|].
      split; [lia|]. split; [simpl; lia|]. intros g [].
Qed.

Lemma set_consistent course name obj obj' :
  consistent course ->
  Dict.get String.eqb name (Course.categories course) = Some obj ->
  consistent_category name obj' ->
  consistent (with_categories course
                (Dict.set String.eqb name obj' (Course.categories course))).
Proof.
  intros [Hwf Hc] Hget Hobj. unfold consistent, with_categories.
  cbn [Course.categories]. split.
  - unfold Dict.wf. rewrite (set_keys_present name obj' obj _ Hget). exact Hwf.
  - intros n c Hin. apply in_set in Hin.
    destruct Hin as [[-> ->] | Hin]; [exact Hobj|apply Hc; exact Hin].
Qed.

Lemma add_grade_consistent course course' category g :
  consistent course ->
  add_grade (Some course) category g = Updated course' ->
  consistent course'.
Proof.
  intros Hcons H.
  destruct (add_grade_updated _ _ _ _ H)
    as (grade & obj & _ & E1 & E2 & Eg & E3 & ->).
  clear H.
  apply (set_consistent course category obj _ Hcons Eg).
  destruct Hcons as [_ Hc].
  destruct (Hc category obj (get_some_in _ _ _ Eg)) as [Hn [Hw [Hd [Hl Hr]]]].
  unfold consistent_category, with_grades.
  cbn [GradeCategory.name GradeCategory.weight GradeCategory.drops
         GradeCategory.total_assignments GradeCategory.grades].
  apply Z.leb_gt in E3. apply ltb_ge in E1. apply ltb_ge in E2.
  split; [exact Hn|]. split; [exact Hw|]. split; [exact Hd|].
  split; [rewrite length_app; simpl; lia|].
  intros x Hx. apply in_app_or in Hx.
  destruct Hx as [Hx | [<- | []]]; [apply (Hr x Hx)|split; assumption].
Qed.

Lemma delete_grade_consistent course course' category grade :
  consistent course ->
  delete_grade (Some course) category grade = Updated course' ->
  consistent course'.
Proof.
  intros Hcons. unfold delete_grade.
  destruct (Dict.get String.eqb category (Course.categories course))
    as [obj|] eqn:Eg; [|discriminate].
  destruct (list_remove grade (GradeCategory.grades obj)) as [grades|] eqn:Er;
    [|discriminate].
  intros H. inversion H; subst course'. clear H.
  apply (set_consistent course category obj _ Hcons Eg).
  destruct Hcons as [_ Hc].
  destruct (Hc category obj (get_some_in _ _ _ Eg)) as [Hn [Hw [Hd [Hl Hr]]]].
  unfold consistent_category, with_grades.
  cbn [GradeCategory.name GradeCategory.weight GradeCategory.drops
         GradeCategory.total_assignments GradeCategory.grades].
  pose proof (list_remove_length _ _ _ Er) as Hlen.
  split; [exact Hn|]. split; [exact Hw|]. split; [exact Hd|].
  split; [lia|].
  intros x Hx. apply (Hr x). apply (list_remove_in _ _ _ Er). exact Hx.
Qed.

Lemma delete_category_consistent course course' name yes :
  consistent course ->
  delete_category (Some course) name yes = Updated course' ->
  consistent course'.
Proof.
  intros [Hwf Hc]. unfold delete_category.
  destruct (Dict.mem String.eqb name (Course.categories course)); [|discriminate].
  destruct yes; [|discriminate].
  intros H. inversion H; subst course'. clear H.
  unfold consistent, with_categories. cbn [Course.categories]. split.
  - apply delitem_wf. exact Hwf.
  - intros n c Hin. apply Hc. apply (in_delitem name). exact Hin.
Qed.

Lemma save_boundaries_categories course course' inputs :
  save_boundaries (Some course) inputs = Updated course' ->
  Course.categories course' = Course.categories course.
Proof.
  unfold save_boundaries.
  destruct (read_boundaries inputs []) as [m|b]; [discriminate|].
  destruct (descending_from b (sorted_descending (Dict.keys b))
              (Finite (Num.of_Z 101)));
    [|discriminate].
  destruct (finite_boundaries b); [|discriminate].
  intros H. inversion H. reflexivity.
Qed.

End Handlers.

(** Every course that the handlers [add_category], [add_grade],
    [delete_grade], [delete_category], [update_final_policy] and
    [save_boundaries] make out of a new [Course] is consistent: its category
    names are distinct and equal to the names stored in the categories,
    every weight lies in [0, 100], [0 <= drops < total_assignments], no
    category holds more grades than assignments, and every grade lies in
    [0, 100]. *)
Theorem handlers_keep_consistency (course : Course.t)
    (Hreachable : reachable course) :
  consistent course.
Proof.
  induction Hreachable as
    [name hours
    |course course' name w t d _ IH H
    |course course' category g _ IH H
    |course course' category grade _ IH H
    |course course' name yes _ IH H
    |course course' policy _ IH H
    |course course' inputs _ IH H].
  - split; [constructor|intros n c []].
  - exact (add_category_consistent _ _ _ _ _ _ IH H).
  - exact (add_grade_consistent _ _ _ _ IH H).
  - exact (delete_grade_consistent _ _ _ _ IH H).
  - exact (delete_category_consistent _ _ _ _ IH H).
  - unfold MainWindow.update_final_policy in H. inversion H; subst course'.
    exact IH.
  - destruct IH as [Hwf Hc]. unfold consistent.
    rewrite (save_boundaries_categories _ _ _ H). split; assumption.
Qed.

(** * The slots of the solver, category by category *)

Section Slots.

Variable course : Course.t.
Hypothesis Hwf : Dict.wf course.(Course.categories).
Hypothesis Htest :
  forall test, Dict.get String.eqb "Test" course.(Course.categories) = Some test ->
               test.(GradeCategory.total_assignments) <> 0%Z.

Local Abbreviation cats := (course.(Course.categories)).
Local Abbreviation weights :=
  (map (fun kv => (fst kv, (snd kv).(GradeCategory.weight) / Num.of_Z 100)) cats).
Local Abbreviation totals :=
  (map (fun kv => (fst kv, (snd kv).(GradeCategory.total_assignments))) cats).
Local Abbreviation processed :=
  (map (fun kv => (fst kv, kept_grades (snd kv))) cats).

Lemma mem_map {W} (f : GradeCategory.t -> W) (name : string) :
  Dict.mem String.eqb name (map (fun kv => (fst kv, f (snd kv))) cats)
  = Dict.mem String.eqb name cats.
Proof.
  unfold Dict.mem. rewrite (get_map String.eqb String.eqb_eq (fun _ => f)).
  destruct (Dict.get String.eqb name cats); reflexivity.
Qed.

Lemma truediv_ok (x : Qc) (n : Z) :
  n <> 0%Z -> GPACalculator.truediv x n = Ok (x / Num.of_Z n).
Proof.
  intros H. unfold GPACalculator.truediv.
  destruct (n =? 0)%Z eqn:E; [apply Z.eqb_eq in E; contradiction|reflexivity].
Qed.

Lemma final_slots_eq (text : string) (c : GradeCategory.t) :
  GPACalculator.final_slots text weights totals (slot_weight c)
  = Ok (match Dict.get String.eqb "Test" cats with
        | Some test =>
            let test_weight :=
              test.(GradeCategory.weight) / Num.of_Z 100
              / Num.of_Z test.(GradeCategory.total_assignments) in
            if (text =? "Replace Lowest Test")%string
            then [("Final", slot_weight c + test_weight)]
            else if (text =? "Average with Lowest Test")%string
            then [("Final", slot_weight c); ("Test", test_weight / Num.of_Z 2)]
            else [("Final", slot_weight c)]
        | None => [("Final", slot_weight c)]
        end).
Proof.
  unfold GPACalculator.final_slots.
  rewrite (mem_map (fun c => GradeCategory.weight c / Num.of_Z 100) "Test").
  rewrite (mem_map GradeCategory.total_assignments "Test").
  unfold Dict.mem.
  destruct (Dict.get String.eqb "Test" cats) as [test|] eqn:Et.
  - cbn [andb].
    rewrite (getitem_map course (fun c => GradeCategory.weight c / Num.of_Z 100)
               "Test" test Et).
    rewrite (getitem_map course GradeCategory.total_assignments "Test" test Et).
    cbn [bind]. rewrite (truediv_ok _ _ (Htest test eq_refl)). cbn [bind].
    destruct (text =? "Replace Lowest Test")%string; [reflexivity|].
    destruct (text =? "Average with Lowest Test")%string; reflexivity.
  - cbn [andb].
    destruct (text =? "Replace Lowest Test")%string; [reflexivity|].
    destruct (text =? "Average with Lowest Test")%string; reflexivity.
Qed.

Lemma remaining_step_eq (text : string) (apply_final_policy : bool)
    (acc : list (string * Qc)) (name : string) (c : GradeCategory.t) :
  Dict.get String.eqb name cats = Some c ->
  GPACalculator.remaining_step course text processed weights totals
    apply_final_policy acc
    (name, c.(GradeCategory.weight) / Num.of_Z 100)
  = Ok (acc ++ category_slots course text apply_final_policy (name, c)).
Proof.
  intros Hget. unfold GPACalculator.remaining_step, category_slots.
  rewrite (effective_total_of_get course name c Hget). cbn [bind].
  rewrite (getitem_map course kept_grades name c Hget). cbn [bind]. cbv zeta.
  fold (remaining_of c).
  destruct (0 <? remaining_of c)%Z eqn:Er;
    [|rewrite app_nil_r; reflexivity].
  assert (Hz : effective_total c <> 0%Z).
  { apply Z.ltb_lt in Er. unfold remaining_of in Er. lia. }
  rewrite (truediv_ok _ _ Hz). fold (slot_weight c).
  destruct ((name =? "Test")%string && apply_final_policy); [reflexivity|].
  destruct ((name =? "Final")%string && apply_final_policy); [|reflexivity].
  cbn [bind]. rewrite final_slots_eq. reflexivity.
Qed.

Lemma remaining_fold_eq (text : string) (apply_final_policy : bool)
    (l : Dict.t string GradeCategory.t) (acc : list (string * Qc)) :
  (forall name c, In (name, c) l -> Dict.get String.eqb name cats = Some c) ->
  foldM (GPACalculator.remaining_step course text processed weights totals
           apply_final_policy)
        (map (fun kv => (fst kv, (snd kv).(GradeCategory.weight) / Num.of_Z 100)) l)
        acc
  = Ok (acc ++ flat_map (category_slots course text apply_final_policy) l).
Proof.
  revert acc. induction l as [|[name c] l IH]; intros acc H.
  - simpl. rewrite app_nil_r. reflexivity.
  - cbn [map foldM fst snd flat_map].
    rewrite (remaining_step_eq text apply_final_policy acc name c
               (H name c (or_introl eq_refl))).
    cbn [bind]. rewrite IH by (intros n' c' Hin; apply H; right; exact Hin).
    rewrite <- app_assoc. reflexivity.
Qed.

Lemma solver_slots_eq (text : string) (apply_final_policy : bool) :
  solver_slots course text apply_final_policy
  = Ok (flat_map (category_slots course text apply_final_policy) cats).
Proof.
  unfold solver_slots. rewrite (process_drops_eq course Hwf). cbn [bind].
  unfold GPACalculator.remaining_slots.
  rewrite (total_assignments_of_map course Hwf), (weights_of_map course Hwf).
  rewrite remaining_fold_eq; [reflexivity|].
  intros name c Hin. apply (get_of_in course Hwf). exact Hin.
Qed.

End Slots.

Section SlotWeights.







End SlotWeights.


(** * What the solver returns and raises *)

Section SolverOutcome.

Lemma in_firstn {A} (n : nat) (l : list A) (x : A) : In x (firstn n l) -> In x l.
Proof.
  revert l. induction n as [|n IH]; intros l H; [destruct H|].
  destruct l as [|y l]; [destruct H|].
  destruct H as [H | H]; [left; exact H|right; apply IH; exact H].
Qed.

Lemma format_fold_in (grades : list Qc) (items : list (string * nat))
    (acc : Dict.t string (list Qc)) (idx : nat) :
  (forall cat gs, In (cat, gs) acc -> forall x, In x gs -> In x grades) ->
  forall cat gs,
    In (cat, gs)
       (fst (fold_left (GPACalculator.format_step grades) items (acc, idx))) ->
    forall x, In x gs -> In x grades.
Proof.
  revert acc idx. induction items as [|[c n] items IH]; intros acc idx Hacc.
  - exact Hacc.
  - cbn [fold_left]. unfold GPACalculator.format_step at 2. apply IH.
    intros cat gs Hin x Hx. apply in_set in Hin.
    destruct Hin as [[_ ->] | Hin].
    + apply in_firstn in Hx. apply in_skipn in Hx. exact Hx.
    + apply (Hacc cat gs Hin x Hx).
Qed.

Lemma format_results_in (g : GPACalculator.grouping) (grades : list Qc)
    (cat : string) (gs : list Qc) :
  In (cat, gs) (GPACalculator.format_results g grades) ->
  forall x, In x gs -> In x grades.
Proof.
  unfold GPACalculator.format_results. apply format_fold_in. intros ? ? [].
Qed.

Lemma existsb_false_all {A} (p : A -> bool) (l : list A) :
  existsb p l = false -> forall x, In x l -> p x = false.
Proof.
  induction l as [|y l IH]; simpl; intros H x Hx; [destruct Hx|].
  apply orb_false_iff in H. destruct H as [Hy Hl].
  destruct Hx as [<- | Hx]; [exact Hy|apply IH; assumption].
Qed.

End SolverOutcome.

(** Whatever the dictionaries, the target and the optimizer, every score the
    solver returns lies in [0, 100]. *)
Theorem recommended_grades_in_range (course : Course.t) (text : string)
    (minimize : list (string * Qc) -> list Qc -> Qc -> Qc -> option (list Qc))
    (current_grades : Dict.t string (list Qc)) (weights : Dict.t string Qc)
    (total_assignments : Dict.t string Z) (target_grade : Qc)
    (apply_final_policy : bool) (results : Dict.t string (list Qc))
    (Hresults :
       GPACalculator.find_minimum_balanced_grades course text minimize
         current_grades weights total_assignments target_grade
         apply_final_policy
       = Ok results) :
  forall category grades grade,
    In (category, grades) results -> In grade grades ->
    0 <= grade /\ grade <= Num.of_Z 100.
Proof.
  unfold GPACalculator.find_minimum_balanced_grades in Hresults.
  destruct (GPACalculator.process_drops course current_grades) as [pg|];
    [|discriminate].
  cbn [bind] in Hresults.
  destruct (GPACalculator.calculate_current_contribution course pg weights
              total_assignments) as [[[cc twu] np]|]; [|discriminate].
  cbn [bind] in Hresults.
  destruct (GPACalculator.remaining_slots course text pg weights
              total_assignments apply_final_policy) as [slots|]; [|discriminate].
  cbn [bind] in Hresults.
  destruct slots as [|[cat fw] rest].
  { inversion Hresults. intros ? ? ? []. }
  destruct ((List.length ((cat, fw) :: rest) =? 1)%nat && (cat =? "Final")%string).
  - unfold GPACalculator.only_final in Hresults.
    destruct (Num.eqb fw 0); [destruct np; discriminate|].
    destruct (Num.leb 0 ((target_grade - cc) / fw)) eqn:E1; [|discriminate].
    destruct (Num.leb ((target_grade - cc) / fw) (Num.of_Z 100)) eqn:E2;
      [|discriminate].
    inversion Hresults; subst results.
    intros category grades grade [H | []] Hg. inversion H; subst.
    destruct Hg as [<- | []].
    apply leb_le in E1. apply leb_le in E2. split; assumption.
  - destruct (minimize _ _ _ _) as [gs|]; [|discriminate].
    destruct (existsb (fun x => Num.ltb x 0) gs) eqn:E1; [discriminate|].
    destruct (existsb (fun x => Num.ltb (Num.of_Z 100) x) gs) eqn:E2;
      [discriminate|].
    inversion Hresults; subst results.
    intros category grades grade Hin Hg.
    pose proof (format_results_in _ _ _ _ Hin grade Hg) as Hgs.
    split.
    + apply ltb_ge. apply (existsb_false_all _ _ E1 grade Hgs).
    + apply ltb_ge. apply (existsb_false_all _ _ E2 grade Hgs).
Qed.

Lemma category_average_in_range_witness :
  0 <= Course.calculate_category_average Examples.homework "Homework"
  /\ Course.calculate_category_average Examples.homework "Homework"
     <= Num.of_Z 100.
Proof.
  apply (category_average_in_range Examples.homework "Homework").
  intros name c g [H | []] Hg. inversion H; subst c. simpl in Hg.
  destruct Hg as [<- | [<- | [<- | [<- | []]]]]; split; qc_le.
Defined.

Lemma handlers_keep_consistency_witness : consistent Examples.edited2.
Proof.
  apply (handlers_keep_consistency Examples.edited2).
  apply (reach_add_grade Examples.edited1 Examples.edited2 "Homework"
           (MainWindow.Parsed (Examples.q 90))).
  - apply (reach_add_category Examples.edited0 Examples.edited1 "Homework"
             (MainWindow.Parsed (Examples.q 40)) (MainWindow.Parsed 4%Z)
             (MainWindow.Parsed 1%Z)).
    + apply reach_new.
    + vm_compute. reflexivity.
  - vm_compute. reflexivity.
Defined.


Lemma recommended_grades_in_range_witness :
  0 <= Examples.q 80 /\ Examples.q 80 <= Num.of_Z 100.
Proof.
  apply (recommended_grades_in_range Examples.final_left "No Replacement"
           Examples.no_solution
           (GPACalculator.current_grades_of Examples.final_left)
           (GPACalculator.weights_of Examples.final_left)
           (GPACalculator.total_assignments_of Examples.final_left)
           (Examples.q 80) false [("Final", [Examples.q 80])]
           ltac:(qc_eq) "Final" [Examples.q 80] (Examples.q 80)).
  - left. reflexivity.
  - left. reflexivity.
Defined.

(** * Assignments to a dictionary *)

Section DictUpdates.

Context {K : Type} (eqb : K -> K -> bool).
Hypothesis eqb_spec : forall x y, eqb x y = true <-> x = y.

Lemma eqb_same (k : K) : eqb k k = true.
Proof. apply eqb_spec. reflexivity. Qed.

Lemma in_set_key {V} (k : K) (v : V) (d : Dict.t K V) (n : K) (c : V) :
  In (n, c) (Dict.set eqb k v d) -> (n = k /\ c = v) \/ In (n, c) d.
Proof.
  induction d as [|[k' w] d IH]; simpl.
  - intros [H | []]. inversion H. left. split; reflexivity.
  - destruct (eqb k k') eqn:E.
    + apply eqb_spec in E. subst k'.
      intros [H | H]; [inversion H; left; split; reflexivity|right; right; exact H].
    + intros [H | H]; [right; left; exact H|].
      destruct (IH H) as [L | R]; [left; exact L|right; right; exact R].
Qed.

Lemma set_wf {V} (k : K) (v : V) (d : Dict.t K V) :
  Dict.wf d -> Dict.wf (Dict.set eqb k v d).
Proof.
  unfold Dict.wf. induction d as [|[k' w] d IH]; simpl; intros ND.
  - constructor; [intros []|constructor].
  - inversion ND as [|? ? Hk ND']; subst.
    destruct (eqb k k') eqn:E; [exact ND|].
    simpl. constructor; [|apply IH; exact ND'].
    intros Hin. unfold Dict.keys in Hin. apply in_map_iff in Hin.
    destruct Hin as [[n c] [Hn Hc]]. simpl in Hn. subst n.
    apply in_set_key in Hc. destruct Hc as [[-> _] | Hc].
    + rewrite eqb_same in E. discriminate.
    + apply Hk. change k' with (fst (k', c)). apply in_map. exact Hc.
Qed.

Lemma get_set_same {V} (k : K) (v : V) (d : Dict.t K V) :
  Dict.get eqb k (Dict.set eqb k v d) = Some v.
Proof.
  induction d as [|[k' w] d IH]; simpl.
  - rewrite eqb_same. reflexivity.
  - destruct (eqb k k') eqn:E; simpl; rewrite E; [reflexivity|exact IH].
Qed.

Lemma get_set_other {V} (k k0 : K) (v : V) (d : Dict.t K V) :
  k0 <> k -> Dict.get eqb k0 (Dict.set eqb k v d) = Dict.get eqb k0 d.
Proof.
  intros Hne. induction d as [|[k' w] d IH]; simpl.
  - destruct (eqb k0 k) eqn:E; [|reflexivity].
    apply eqb_spec in E. contradiction.
  - destruct (eqb k k') eqn:E; simpl.
    + apply eqb_spec in E. subst k'.
      destruct (eqb k0 k) eqn:E0; [|reflexivity].
      apply eqb_spec in E0. contradiction.
    + destruct (eqb k0 k'); [reflexivity|exact IH].
Qed.

Lemma set_get_same {V} (k : K) (v : V) (d : Dict.t K V) :
  Dict.get eqb k d = Some v -> Dict.set eqb k v d = d.
Proof.
  induction d as [|[k' w] d IH]; simpl; [discriminate|].
  destruct (eqb k k') eqn:E.
  - intros H. inversion H. reflexivity.
  - intros H. rewrite (IH H). reflexivity.
Qed.

Lemma set_set {V} (k : K) (v w : V) (d : Dict.t K V) :
  Dict.set eqb k v (Dict.set eqb k w d) = Dict.set eqb k v d.
Proof.
  induction d as [|[k' u] d IH]; simpl.
  - rewrite eqb_same. reflexivity.
  - destruct (eqb k k') eqn:E; simpl; rewrite E; [reflexivity|].
    rewrite IH. reflexivity.
Qed.

End DictUpdates.

(** * Saving the grade boundaries *)

Section SaveBoundaries.

Import MainWindow.

Lemma read_float_finite (text : field Qc) (x : Qc) :
  read_float text = Some (Finite x) -> text = Parsed x.
Proof. destruct text; simpl; intros H; inversion H; reflexivity. Qed.

Lemma read_boundaries_entries (inputs : Dict.t Qc (field Qc))
    (acc new_boundaries : Dict.t Qc float_value) :
  read_boundaries inputs acc = inr new_boundaries ->
  forall gpa minimum,
    In (gpa, Finite minimum) new_boundaries ->
    In (gpa, Finite minimum) acc
    \/ (In (gpa, Parsed minimum) inputs
        /\ 0 <= minimum /\ minimum <= Num.of_Z 100).
Proof.
  revert acc. induction inputs as [|[g f] inputs IH]; intros acc H gpa minimum Hin.
  - simpl in H. inversion H; subst. left. exact Hin.
  - simpl in H. destruct (is_blank f); [discriminate|].
    destruct (read_float f) as [value|] eqn:Ef; [|discriminate].
    destruct (outside_0_100 value) eqn:Eo; [discriminate|].
    destruct (IH _ H gpa minimum Hin) as [Hacc | [Hi Hr]].
    + apply (in_set_key Num.eqb eqb_eq) in Hacc.
      destruct Hacc as [[-> <-] | Hacc]; [|left; exact Hacc].
      right. rewrite (read_float_finite f minimum Ef).
      split; [left; reflexivity|].
      cbn [outside_0_100] in Eo. apply orb_false_iff in Eo.
      destruct Eo as [E1 E2]. split; apply ltb_ge; assumption.
    + right. split; [right; exact Hi|exact Hr].
Qed.

Lemma read_boundaries_wf (inputs : Dict.t Qc (field Qc))
    (acc new_boundaries : Dict.t Qc float_value) :
  read_boundaries inputs acc = inr new_boundaries ->
  Dict.wf acc -> Dict.wf new_boundaries.
Proof.
  revert acc. induction inputs as [|[g f] inputs IH]; intros acc H Hwf.
  - simpl in H. inversion H; subst. exact Hwf.
  - simpl in H. destruct (is_blank f); [discriminate|].
    destruct (read_float f) as [value|]; [|discriminate].
    destruct (outside_0_100 value); [discriminate|].
    apply (IH _ H). apply (set_wf Num.eqb eqb_eq). exact Hwf.
Qed.

Lemma read_boundaries_keys (inputs : Dict.t Qc (field Qc))
    (acc new_boundaries : Dict.t Qc float_value) :
  read_boundaries inputs acc = inr new_boundaries ->
  forall gpa,
    (In gpa (Dict.keys inputs) \/ Dict.mem Num.eqb gpa acc = true) ->
    Dict.mem Num.eqb gpa new_boundaries = true.
Proof.
  revert acc. induction inputs as [|[g f] inputs IH]; intros acc H gpa Hin.
  - simpl in H. inversion H; subst. destruct Hin as [[] | Hin]. exact Hin.
  - simpl in H. destruct (is_blank f); [discriminate|].
    destruct (read_float f) as [value|]; [|discriminate].
    destruct (outside_0_100 value); [discriminate|].
    apply (IH _ H). unfold Dict.mem.
    destruct (Num.eqb gpa g) eqn:E.
    + apply eqb_eq in E. subst g. right.
      rewrite (get_set_same Num.eqb eqb_eq). reflexivity.
    + destruct Hin as [[Hg | Hin] | Hin].
      * simpl in Hg. subst g. rewrite (proj2 (eqb_eq gpa gpa) eq_refl) in E.
        discriminate.
      * left. exact Hin.
      * right. rewrite (get_set_other Num.eqb eqb_eq).
        -- exact Hin.
        -- intros ->. rewrite (proj2 (eqb_eq g g) eq_refl) in E. discriminate.
Qed.

(** Boundaries none of which is a NaN are finite values, entry by entry. *)
Lemma finite_boundaries_map (new_boundaries : Dict.t Qc float_value)
    (boundaries : Dict.t Qc Qc) :
  finite_boundaries new_boundaries = Some boundaries ->
  new_boundaries = map (fun kv => (fst kv, Finite (snd kv))) boundaries.
Proof.
  revert boundaries.
  induction new_boundaries as [|[gpa value] rest IH]; intros boundaries H.
  - simpl in H. inversion H. reflexivity.
  - simpl in H. destruct value as [x| |negative]; try discriminate.
    destruct (finite_boundaries rest) as [b|]; [|discriminate].
    inversion H; subst. simpl. rewrite (IH b eq_refl). reflexivity.
Qed.

Lemma sorted_snoc {A} (R : A -> A -> Prop) (l : list A) (x : A) :
  StronglySorted R l -> Forall (fun y => R y x) l -> StronglySorted R (l ++ [x]).
Proof.
  induction 1 as [|y l S IH Hy]; intros F; simpl.
  - constructor; constructor.
  - inversion F as [|? ? Ryx F']; subst.
    constructor; [apply IH; exact F'|].
    apply Forall_app. split; [exact Hy|constructor; [exact Ryx|constructor]].
Qed.

Lemma sorted_descending_sorted (l : list Qc) :
  StronglySorted (fun a b => b <= a) (sorted_descending l).
Proof.
  unfold sorted_descending.
  pose proof (sorted_ascending l) as S.
  induction S as [|x l' S IH Hx]; simpl; [constructor|].
  apply sorted_snoc; [exact IH|].
  rewrite Forall_forall in *. intros y Hy. apply in_rev in Hy. apply Hx. exact Hy.
Qed.

Lemma sorted_descending_in (l : list Qc) (x : Qc) :
  In x l -> In x (sorted_descending l).
Proof.
  intros H. unfold sorted_descending. apply in_rev. rewrite rev_involutive.
  apply (Permutation_in _ (Permutation_sym (sorted_permutation l))). exact H.
Qed.

Lemma descending_from_spec (boundaries : Dict.t Qc Qc) (keys : list Qc)
    (prev_value : Qc) :
  StronglySorted (fun a b => b <= a) keys ->
  descending_from (map (fun kv => (fst kv, Finite (snd kv))) boundaries) keys
    (Finite prev_value) = true ->
  (forall gpa value,
     In gpa keys -> Dict.get Num.eqb gpa boundaries = Some value ->
     value < prev_value)
  /\ (forall gpa1 value1 gpa2 value2,
        In gpa1 keys -> In gpa2 keys -> gpa2 < gpa1 ->
        Dict.get Num.eqb gpa1 boundaries = Some value1 ->
        Dict.get Num.eqb gpa2 boundaries = Some value2 ->
        value2 < value1).
Proof.
  intros S. revert prev_value.
  induction S as [|gpa rest S IH Hall]; intros prev_value H.
  - split; [intros ? ? []|intros ? ? ? ? []].
  - simpl in H.
    rewrite (get_map Num.eqb eqb_eq (fun _ x => Finite x)) in H.
    destruct (Dict.get Num.eqb gpa boundaries) as [value|] eqn:Eg;
      [|discriminate].
    cbn [float_geb] in H.
    destruct (Num.leb prev_value value) eqn:El; [discriminate|].
    assert (Hlt : value < prev_value).
    { apply ltb_lt. unfold Num.ltb. unfold Num.leb in El. rewrite El.
      reflexivity. }
    destruct (IH value H) as [IH1 IH2].
    rewrite Forall_forall in Hall.
    split.
    + intros g v [<- | Hg] Hv.
      * rewrite Eg in Hv. inversion Hv; subst. exact Hlt.
      * eapply Qclt_trans; [apply (IH1 g v Hg Hv)|exact Hlt].
    + intros g1 v1 g2 v2 [<- | H1] [<- | H2] Hg Hv1 Hv2.
      * exfalso. exact (Qclt_not_eq _ _ Hg eq_refl).
      * rewrite Eg in Hv1. inversion Hv1; subst. apply (IH1 g2 v2 H2 Hv2).
      * exfalso. apply (Qclt_not_le _ _ Hg). apply (Hall g1 H1).
      * apply (IH2 g1 v1 g2 v2 H1 H2 Hg Hv1 Hv2).
Qed.

End SaveBoundaries.

(** When [save_boundaries] accepts the fields and stores no NaN, the
    boundaries it stores have one entry for each field, every minimum was
    read from the field of its GPA point and lies in [0, 100], and the
    minimums descend strictly as the GPA points descend; the categories are
    left as they were.  (A field "nan" passes the range test and switches
    the order test off from its GPA point downwards: see [nan_is_stored].) *)
Theorem save_boundaries_sound (course course' : Course.t)
    (boundary_inputs : Dict.t Qc (MainWindow.field Qc))
    (Hsaved : MainWindow.save_boundaries (Some course) boundary_inputs
              = MainWindow.Updated course') :
  Dict.wf course'.(Course.grade_boundaries)
  /\ (forall gpa, In gpa (Dict.keys boundary_inputs) ->
                  Dict.mem Num.eqb gpa course'.(Course.grade_boundaries) = true)
  /\ (forall gpa minimum,
        In (gpa, minimum) course'.(Course.grade_boundaries) ->
        In (gpa, MainWindow.Parsed minimum) boundary_inputs
        /\ 0 <= minimum /\ minimum <= Num.of_Z 100)
  /\ descending_boundaries course'.(Course.grade_boundaries)
  /\ course'.(Course.categories) = course.(Course.categories).
Proof.
  unfold MainWindow.save_boundaries in Hsaved.
  destruct (MainWindow.read_boundaries boundary_inputs [])
    as [m|new_boundaries] eqn:Er; [discriminate|].
  destruct (MainWindow.descending_from new_boundaries
              (MainWindow.sorted_descending (Dict.keys new_boundaries))
              (MainWindow.Finite (Num.of_Z 101))) eqn:Ed; [|discriminate].
  destruct (MainWindow.finite_boundaries new_boundaries) as [boundaries|] eqn:Ef;
    [|discriminate].
  inversion Hsaved; subst course'. cbn [Course.grade_boundaries Course.categories].
  pose proof (finite_boundaries_map _ _ Ef) as El.
  assert (Hkeys : Dict.keys new_boundaries = Dict.keys boundaries).
  { rewrite El.
    apply (keys_map (fun _ x => MainWindow.Finite x) boundaries). }
  assert (Hwf : Dict.wf boundaries).
  { unfold Dict.wf. rewrite <- Hkeys.
    apply (read_boundaries_wf _ _ _ Er). constructor. }
  split; [exact Hwf|].
  split.
  { intros gpa Hin.
    pose proof (read_boundaries_keys _ _ _ Er gpa (or_introl Hin)) as Hm.
    unfold Dict.mem in *. rewrite El in Hm.
    rewrite (get_map Num.eqb eqb_eq (fun _ x => MainWindow.Finite x)) in Hm.
    destruct (Dict.get Num.eqb gpa boundaries); [reflexivity|discriminate]. }
  split.
  { intros gpa minimum Hin.
    assert (Hin' : In (gpa, MainWindow.Finite minimum) new_boundaries).
    { rewrite El.
      apply (in_map (fun kv => (fst kv, MainWindow.Finite (snd kv)))
               boundaries (gpa, minimum) Hin). }
    destruct (read_boundaries_entries _ _ _ Er gpa minimum Hin') as [[] | H].
    exact H. }
  split; [|reflexivity].
  rewrite Hkeys, El in Ed.
  destruct (descending_from_spec _ _ _
              (sorted_descending_sorted (Dict.keys boundaries)) Ed)
    as [_ Hd].
  intros gpa1 minimum1 gpa2 minimum2 H1 H2 Hlt.
  apply (Hd gpa1 minimum1 gpa2 minimum2).
  - apply sorted_descending_in. change gpa1 with (fst (gpa1, minimum1)).
    apply in_map. exact H1.
  - apply sorted_descending_in. change gpa2 with (fst (gpa2, minimum2)).
    apply in_map. exact H2.
  - exact Hlt.
  - apply (get_in Num.eqb eqb_eq); assumption.
  - apply (get_in Num.eqb eqb_eq); assumption.
Qed.

Lemma save_boundaries_sound_witness :
  let course' :=
    Course.mk "Math" (Examples.q 3) [] [(Examples.q 4, Examples.q 90);
                                        (Examples.q 3, Examples.q 80)]
      "" "No Replacement" in
  Dict.wf course'.(Course.grade_boundaries)
  /\ (forall gpa, In gpa (Dict.keys [(Examples.q 4, MainWindow.Parsed (Examples.q 90));
                                     (Examples.q 3, MainWindow.Parsed (Examples.q 80))]) ->
                  Dict.mem Num.eqb gpa course'.(Course.grade_boundaries) = true)
  /\ (forall gpa minimum,
        In (gpa, minimum) course'.(Course.grade_boundaries) ->
        In (gpa, MainWindow.Parsed minimum)
           [(Examples.q 4, MainWindow.Parsed (Examples.q 90));
            (Examples.q 3, MainWindow.Parsed (Examples.q 80))]
        /\ 0 <= minimum /\ minimum <= Num.of_Z 100)
  /\ descending_boundaries course'.(Course.grade_boundaries)
  /\ course'.(Course.categories) = Examples.edited0.(Course.categories).
Proof.
  apply (save_boundaries_sound Examples.edited0).
  vm_compute. reflexivity.
Defined.

(** The text "nan" goes through the tests of the handlers: as a boundary
    between 60 at 4.0 and 70 at 3.0, which are not in descending order, and
    as a grade. *)
Lemma nan_is_stored :
  MainWindow.save_boundaries (Some Examples.edited0)
    [(Examples.q 4, MainWindow.Parsed (Examples.q 60));
     (Examples.q 7 / Examples.q 2, MainWindow.ParsedNan);
     (Examples.q 3, MainWindow.Parsed (Examples.q 70))]
  = MainWindow.StoredNan
  /\ MainWindow.add_grade (Some Examples.edited1) "Homework"
       MainWindow.ParsedNan
     = MainWindow.StoredNan.
Proof. split; vm_compute; reflexivity. Qed.

(** * Undoing an edit *)

Section Undo.

Import MainWindow.

Lemma list_remove_last (x : Qc) (l : list Qc) :
  ~ In x l -> list_remove x (l ++ [x]) = Some l.
Proof.
  induction l as [|y l IH]; simpl; intros H.
  - rewrite (proj2 (eqb_eq x x) eq_refl). reflexivity.
  - destruct (Num.eqb y x) eqn:E.
    + apply eqb_eq in E. exfalso. apply H. left. exact E.
    + rewrite IH; [reflexivity|]. intros Hin. apply H. right. exact Hin.
Qed.

Lemma with_grades_same (c : GradeCategory.t) (grades : list Qc) :
  with_grades (with_grades c grades) c.(GradeCategory.grades) = c.
Proof. destruct c. reflexivity. Qed.

Lemma with_categories_same (course : Course.t)
    (categories : Dict.t string GradeCategory.t) :
  with_categories (with_categories course categories) course.(Course.categories)
  = course.
Proof. destruct course. reflexivity. Qed.

Lemma delitem_last {V} (k : string) (v : V) (d : Dict.t string V) :
  ~ In k (Dict.keys d) -> delitem k (d ++ [(k, v)]) = d.
Proof.
  induction d as [|[k' w] d IH]; simpl; intros H.
  - rewrite String.eqb_refl. reflexivity.
  - destruct (String.eqb k k') eqn:E.
    + apply String.eqb_eq in E. exfalso. apply H. left. symmetry. exact E.
    + rewrite IH; [reflexivity|]. intros Hin. apply H. right. exact Hin.
Qed.

End Undo.

(** Deleting a grade that [add_grade] has just recorded, in a category that
    did not hold that grade before, gives back the course as it was. *)
Theorem add_then_delete_grade (course course' : Course.t) (category : string)
    (grade : Qc)
    (Hadded : MainWindow.add_grade (Some course) category
                (MainWindow.Parsed grade)
              = MainWindow.Updated course')
    (Hnew : forall c,
        Dict.get String.eqb category course.(Course.categories) = Some c ->
        ~ In grade c.(GradeCategory.grades)) :
  MainWindow.delete_grade (Some course') category grade
  = MainWindow.Updated course.
Proof.
  destruct (add_grade_updated _ _ _ _ Hadded)
    as (g & c & Hg & _ & _ & Eg & _ & ->).
  inversion Hg; subst g. clear Hg Hadded.
  unfold MainWindow.delete_grade.
  cbn [MainWindow.with_categories Course.categories].
  rewrite (get_set_same String.eqb String.eqb_eq).
  cbn [MainWindow.with_grades GradeCategory.grades].
  rewrite (list_remove_last grade _ (Hnew c Eg)).
  rewrite (set_set String.eqb String.eqb_eq).
  change (MainWindow.with_grades
            (GradeCategory.mk (GradeCategory.name c) (GradeCategory.weight c)
               (GradeCategory.total_assignments c) (GradeCategory.drops c)
               (GradeCategory.grades c ++ [grade]))
            (GradeCategory.grades c))
    with (MainWindow.with_grades
            (MainWindow.with_grades c (GradeCategory.grades c ++ [grade]))
            (GradeCategory.grades c)).
  rewrite with_grades_same.
  rewrite (set_get_same String.eqb _ _ _ Eg).
  f_equal.
  change (Course.mk (Course.name course) (Course.credit_hours course)
            (Course.categories course) (Course.grade_boundaries course)
            (Course.semester course) (Course.final_policy course) = course).
  destruct course. reflexivity.
Qed.

Lemma add_then_delete_grade_witness :
  MainWindow.delete_grade (Some Examples.edited2) "Homework" (Examples.q 90)
  = MainWindow.Updated Examples.edited1.
Proof.
  apply (add_then_delete_grade Examples.edited1 Examples.edited2 "Homework"
           (Examples.q 90)).
  - vm_compute. reflexivity.
  - intros c H. vm_compute in H. inversion H; subst c. intros [].
Defined.

(** Deleting a category that [add_category] has just added gives back the
    course as it was. *)
Theorem add_then_delete_category (course course' : Course.t) (name : string)
    (weight_text : MainWindow.field Qc)
    (assignments_text drops_text : MainWindow.field Z)
    (Hadded : MainWindow.add_category (Some course) name weight_text
                assignments_text drops_text
              = MainWindow.Updated course') :
  MainWindow.delete_category (Some course') name true
  = MainWindow.Updated course.
Proof.
  destruct (add_category_updated _ _ _ _ _ _ Hadded)
    as (weight & total & drops & _ & _ & _ & _ & _ & Em & ->).
  clear Hadded.
  apply mem_false_not_in in Em.
  unfold MainWindow.delete_category.
  cbn [MainWindow.with_categories Course.categories].
  rewrite (set_fresh String.eqb String.eqb_eq _ _ _ Em).
  unfold Dict.mem.
  rewrite <- (set_fresh String.eqb String.eqb_eq _ _ _ Em).
  rewrite (get_set_same String.eqb String.eqb_eq).
  rewrite (set_fresh String.eqb String.eqb_eq _ _ _ Em).
  rewrite (delitem_last _ _ _ Em).
  f_equal. destruct course. reflexivity.
Qed.

Lemma add_then_delete_category_witness :
  MainWindow.delete_category (Some Examples.edited1) "Homework" true
  = MainWindow.Updated Examples.edited0.
Proof.
  apply (add_then_delete_category Examples.edited0 Examples.edited1 "Homework"
           (MainWindow.Parsed (Examples.q 40)) (MainWindow.Parsed 4%Z)
           (MainWindow.Parsed 1%Z)).
  vm_compute. reflexivity.
Defined.

(** * What the averages depend on *)

Section Dependence.

Import MainWindow.



Lemma final_exam_replacement_ext (self self' : Course.t) (name : string)
    (grades : list Qc) :
  self.(Course.final_policy) = self'.(Course.final_policy) ->
  final_grades_of self = final_grades_of self' ->
  Course.final_exam_replacement self name grades
  = Course.final_exam_replacement self' name grades.
Proof.
  unfold final_grades_of, Course.final_exam_replacement, Dict.mem.
  intros Hp Hf. rewrite <- Hp.
  destruct (name =? "Test")%string; [|reflexivity].
  destruct (Course.final_policy self =? "No Replacement")%string;
    [rewrite !andb_false_r; reflexivity|].
  destruct (Dict.get String.eqb "Final" (Course.categories self)) as [f|];
    destruct (Dict.get String.eqb "Final" (Course.categories self')) as [f'|];
    cbn [andb negb].
  - rewrite Hf. reflexivity.
  - rewrite Hf. reflexivity.
  - rewrite <- Hf. reflexivity.
  - reflexivity.
Qed.

Lemma category_average_congr (self self' : Course.t) (name : string)
    (c c' : GradeCategory.t) :
  Dict.get String.eqb name self.(Course.categories) = Some c ->
  Dict.get String.eqb name self'.(Course.categories) = Some c' ->
  c.(GradeCategory.drops) = c'.(GradeCategory.drops) ->
  Num.sorted c.(GradeCategory.grades) = Num.sorted c'.(GradeCategory.grades) ->
  self.(Course.final_policy) = self'.(Course.final_policy) ->
  final_grades_of self = final_grades_of self' ->
  Course.calculate_category_average self name
  = Course.calculate_category_average self' name.
Proof.
  intros Hg Hg' Hd Hs Hp Hf.
  rewrite (calculate_category_average_eq self name c Hg).
  rewrite (calculate_category_average_eq self' name c' Hg').
  unfold effective_grades. rewrite Hd, Hs.
  rewrite (final_exam_replacement_ext self self' name _ Hp Hf). reflexivity.
Qed.

Lemma category_average_missing (self : Course.t) (name : string) :
  Dict.get String.eqb name self.(Course.categories) = None ->
  Course.calculate_category_average self name = 0.
Proof.
  intros H. unfold Course.calculate_category_average. rewrite H. reflexivity.
Qed.

Lemma category_average_empty (self : Course.t) (name : string)
    (c : GradeCategory.t) :
  Dict.get String.eqb name self.(Course.categories) = Some c ->
  c.(GradeCategory.grades) = [] ->
  Course.calculate_category_average self name = 0.
Proof.
  intros H E. unfold Course.calculate_category_average. rewrite H, E.
  reflexivity.
Qed.

Lemma current_grade_congr (self self' : Course.t) :
  map (weighted_average_term self) (filter has_grades self.(Course.categories))
  = map (weighted_average_term self')
      (filter has_grades self'.(Course.categories)) ->
  map weight_term (filter has_grades self.(Course.categories))
  = map weight_term (filter has_grades self'.(Course.categories)) ->
  Course.calculate_current_grade self = Course.calculate_current_grade self'.
Proof.
  intros H1 H2. rewrite !calculate_current_grade_eq. cbv zeta.
  rewrite H1, H2. reflexivity.
Qed.


Lemma get_app_fresh {V} (k n : string) (v : V) (d : Dict.t string V) :
  Dict.get String.eqb n (d ++ [(k, v)])
  = match Dict.get String.eqb n d with
    | Some w => Some w
    | None => if String.eqb n k then Some v else None
    end.
Proof.
  induction d as [|[k' w] d IH]; simpl; [reflexivity|].
  destruct (String.eqb n k'); [reflexivity|exact IH].
Qed.


End Dependence.



(** A category that [add_category] has just added changes no category
    average and not the current grade: a category counts only once it has a
    grade. *)
Theorem new_category_keeps_grades (course course' : Course.t) (name : string)
    (weight_text : MainWindow.field Qc)
    (assignments_text drops_text : MainWindow.field Z)
    (Hadded : MainWindow.add_category (Some course) name weight_text
                assignments_text drops_text
              = MainWindow.Updated course') :
  (forall category_name,
     Course.calculate_category_average course' category_name
     = Course.calculate_category_average course category_name)
  /\ Course.calculate_current_grade course'
     = Course.calculate_current_grade course.
Proof.
  destruct (add_category_updated _ _ _ _ _ _ Hadded)
    as (weight & total & drops & _ & _ & _ & _ & _ & Em & ->).
  clear Hadded.
  pose proof (mem_false_not_in _ _ Em) as Hfresh.
  rewrite (set_fresh String.eqb String.eqb_eq _ _ _ Hfresh).
  set (new := GradeCategory.init name weight total drops).
  set (course' := MainWindow.with_categories course
                    (Course.categories course ++ [(name, new)])).
  assert (Hget : forall n,
             Dict.get String.eqb n course'.(Course.categories)
             = match Dict.get String.eqb n course.(Course.categories) with
               | Some w => Some w
               | None => if String.eqb n name then Some new else None
               end)
    by (intros n; apply get_app_fresh).
  assert (Hfinal : final_grades_of course' = final_grades_of course).
  { unfold final_grades_of. rewrite Hget.
    destruct (Dict.get String.eqb "Final" (Course.categories course));
      [reflexivity|].
    destruct (String.eqb "Final" name); reflexivity. }
  assert (Hall : forall n,
             Course.calculate_category_average course' n
             = Course.calculate_category_average course n).
  { intros n.
    destruct (Dict.get String.eqb n (Course.categories course)) as [c|] eqn:Eg.
    - apply (category_average_congr course' course n c c);
        try reflexivity; [rewrite Hget, Eg; reflexivity|exact Eg|exact Hfinal].
    - rewrite (category_average_missing course n Eg).
      destruct (String.eqb n name) eqn:E.
      + apply (category_average_empty course' n new); [|reflexivity].
        rewrite Hget, Eg, E. reflexivity.
      + apply category_average_missing. rewrite Hget, Eg, E. reflexivity. }
  split; [exact Hall|].
  apply current_grade_congr.
  - subst course'. cbn [MainWindow.with_categories Course.categories].
    rewrite filter_app. cbn [filter]. unfold has_grades at 2.
    cbn [snd new GradeCategory.init GradeCategory.grades].
    rewrite app_nil_r. apply map_ext. intros item.
    unfold weighted_average_term. rewrite Hall. reflexivity.
  - subst course'. cbn [MainWindow.with_categories Course.categories].
    rewrite filter_app. cbn [filter]. unfold has_grades at 2.
    cbn [snd new GradeCategory.init GradeCategory.grades].
    rewrite app_nil_r. reflexivity.
Qed.

Lemma new_category_keeps_grades_witness :
  (forall category_name,
     Course.calculate_category_average Examples.edited1 category_name
     = Course.calculate_category_average Examples.edited0 category_name)
  /\ Course.calculate_current_grade Examples.edited1
     = Course.calculate_current_grade Examples.edited0.
Proof.
  apply (new_category_keeps_grades Examples.edited0 Examples.edited1 "Homework"
           (MainWindow.Parsed (Examples.q 40)) (MainWindow.Parsed 4%Z)
           (MainWindow.Parsed 1%Z)).
  vm_compute. reflexivity.
Defined.

(** * The GPA table *)

Section GpaTable.

Import MainWindow.

Lemma sum_set_replace {V} (f : V -> Qc) (k : string) (e e' : V)
    (d : Dict.t string V) :
  Dict.get String.eqb k d = Some e ->
  Num.sum (map (fun kv => f (snd kv)) (Dict.set String.eqb k e' d))
  = Num.sum (map (fun kv => f (snd kv)) d) + f e' - f e.
Proof.
  induction d as [|[k' w] d IH]; simpl; [discriminate|].
  destruct (String.eqb k k').
  - intros H. inversion H; subst w. cbn [map snd]. rewrite !sum_cons. ring.
  - intros H. cbn [map snd]. rewrite !sum_cons, (IH H). ring.
Qed.

Lemma sum_single (x : Qc) : Num.sum [x] = x.
Proof. rewrite sum_cons. change (Num.sum []) with 0. ring. Qed.

Lemma mem_set (k s : string) {V} (v : V) (d : Dict.t string V) :
  Dict.mem String.eqb s d = true \/ s = k ->
  Dict.mem String.eqb s (Dict.set String.eqb k v d) = true.
Proof.
  intros H. unfold Dict.mem in *.
  destruct (String.eqb s k) eqn:E.
  - apply String.eqb_eq in E. subst s.
    rewrite (get_set_same String.eqb String.eqb_eq). reflexivity.
  - apply String.eqb_neq in E.
    rewrite (get_set_other String.eqb String.eqb_eq) by exact E.
    destruct H as [H | H]; [exact H|contradiction].
Qed.

Lemma gpa_step_collected (processed : Dict.t string Course.t)
    (acc : Dict.t string semester_entry * Qc * Qc) (item : string * Course.t) :
  gpa_collected processed acc ->
  gpa_collected (processed ++ [item]) (gpa_step acc item).
Proof.
  destruct acc as [[sd tp] th]. destruct item as [course_name course].
  intros (Hwf & Hmem & Hent & Htp & Hth).
  unfold gpa_step. cbv zeta.
  remember (Course.semester course) as sem eqn:Esem.
  remember (Course.get_gpa_points course (Course.calculate_current_grade course))
    as points eqn:Epoints.
  remember (if Dict.mem String.eqb sem sd then sd
            else Dict.set String.eqb sem (mk_entry [] 0 0) sd) as sd1 eqn:E1.
  assert (H1 : Dict.wf sd1
               /\ (forall s, Dict.mem String.eqb s sd = true ->
                             Dict.mem String.eqb s sd1 = true)
               /\ Dict.mem String.eqb sem sd1 = true
               /\ (forall s e, Dict.get String.eqb s sd1 = Some e ->
                     e.(entry_courses)
                     = map row_of (filter (in_semester s) processed)
                     /\ e.(entry_total_points)
                        = Num.sum (map row_points e.(entry_courses))
                     /\ e.(entry_total_hours)
                        = Num.sum (map row_credit_hours e.(entry_courses)))
               /\ tp = Num.sum (map (fun kv => (snd kv).(entry_total_points)) sd1)
               /\ th = Num.sum (map (fun kv => (snd kv).(entry_total_hours)) sd1)).
  { destruct (Dict.mem String.eqb sem sd) eqn:Em; subst sd1.
    - split; [exact Hwf|]. split; [intros s Hs; exact Hs|].
      split; [exact Em|]. split; [exact Hent|].
      split; assumption.
    - pose proof (mem_false_not_in _ _ Em) as Hfresh.
      split; [apply (set_wf String.eqb String.eqb_eq); exact Hwf|].
      split; [intros s Hs; apply mem_set; left; exact Hs|].
      split; [apply mem_set; right; reflexivity|].
      split.
      + intros s e Hg.
        destruct (String.eqb s sem) eqn:Es.
        * apply String.eqb_eq in Es. subst s.
          rewrite (get_set_same String.eqb String.eqb_eq) in Hg.
          inversion Hg; subst e. cbn [entry_courses entry_total_points
                                        entry_total_hours map].
          split; [|split; reflexivity].
          assert (Hnone : filter (in_semester sem) processed = []).
          { clear - Hmem Em.
            induction processed as [|x l IH]; [reflexivity|].
            cbn [filter]. destruct (in_semester sem x) eqn:Ex.
            - unfold in_semester in Ex. apply String.eqb_eq in Ex.
              rewrite <- Ex in Em.
              rewrite (Hmem x (or_introl eq_refl)) in Em. discriminate.
            - apply IH. intros y Hy. apply Hmem. right. exact Hy. }
          rewrite Hnone. reflexivity.
        * apply String.eqb_neq in Es.
          rewrite (get_set_other String.eqb String.eqb_eq) in Hg by exact Es.
          apply Hent. exact Hg.
      + rewrite (set_fresh String.eqb String.eqb_eq _ _ _ Hfresh).
        rewrite !map_app, !sum_app. cbn [map snd entry_total_points
                                           entry_total_hours].
        rewrite sum_single, <- Htp, <- Hth. split; ring. }
  clear E1 Hwf Hent Htp Hth.
  destruct H1 as (Hwf & Hkeep & Hsem & Hent & Htp & Hth).
  destruct (Dict.get String.eqb sem sd1) as [entry|] eqn:Eg;
    [|unfold Dict.mem in Hsem; rewrite Eg in Hsem; discriminate].
  destruct (Hent sem entry Eg) as (Hc & Hp & Hh).
  unfold gpa_collected.
  split; [apply (set_wf String.eqb String.eqb_eq); exact Hwf|].
  split.
  { intros x Hx. apply in_app_or in Hx. apply mem_set.
    destruct Hx as [Hx | [<- | []]].
    - left. apply Hkeep. apply Hmem. exact Hx.
    - right. cbn [snd]. symmetry. exact Esem. }
  split.
  { intros s e Hg. rewrite filter_app, map_app. cbn [filter].
    destruct (String.eqb s sem) eqn:Es.
    - apply String.eqb_eq in Es. subst s.
      rewrite (get_set_same String.eqb String.eqb_eq) in Hg.
      inversion Hg; subst e.
      cbn [entry_courses entry_total_points entry_total_hours].
      assert (Hin : in_semester sem (course_name, course) = true).
      { unfold in_semester. cbn [snd]. rewrite <- Esem.
        apply String.eqb_refl. }
      rewrite Hin. cbn [map].
      assert (Hrow : row_of (course_name, course)
                     = mk_row course_name (Course.credit_hours course)
                         (Course.calculate_current_grade course) points).
      { unfold row_of. cbn [fst snd]. rewrite Epoints. reflexivity. }
      rewrite Hrow, <- Hc.
      split; [reflexivity|].
      rewrite !map_app, !sum_app. cbn [map]. rewrite !sum_single.
      unfold row_points at 2. cbn [row_gpa_points row_credit_hours].
      rewrite Hp, Hh. split; reflexivity.
    - assert (Hout : in_semester s (course_name, course) = false).
      { unfold in_semester. cbn [snd]. rewrite <- Esem.
        rewrite String.eqb_sym. exact Es. }
      rewrite Hout. cbn [map]. rewrite app_nil_r.
      apply String.eqb_neq in Es.
      rewrite (get_set_other String.eqb String.eqb_eq) in Hg by exact Es.
      apply Hent. exact Hg. }
  rewrite (sum_set_replace entry_total_points sem entry _ sd1 Eg).
  rewrite (sum_set_replace entry_total_hours sem entry _ sd1 Eg).
  cbn [entry_total_points entry_total_hours].
  rewrite <- Htp, <- Hth. split; ring.
Qed.

Lemma gpa_fold_collected (rest processed : Dict.t string Course.t)
    (acc : Dict.t string semester_entry * Qc * Qc) :
  gpa_collected processed acc ->
  gpa_collected (processed ++ rest) (fold_left gpa_step rest acc).
Proof.
  revert processed acc. induction rest as [|item rest IH]; intros processed acc H.
  - rewrite app_nil_r. exact H.
  - cbn [fold_left].
    replace (processed ++ item :: rest) with ((processed ++ [item]) ++ rest)
      by (rewrite <- app_assoc; reflexivity).
    apply IH. apply gpa_step_collected. exact H.
Qed.

End GpaTable.

(** What [update_gpa] collects: the semesters are distinct and every course
    has its semester among them; the rows of a semester are the rows of the
    courses of that semester, in the order of [self.courses]; the totals of
    a semester are the sums over its rows; and the overall totals are the
    sums of the semester totals. *)
Theorem gpa_table_totals (courses : Dict.t string Course.t) :
  let '(semester_data, total_points, total_hours) :=
    MainWindow.gpa_totals courses in
  Dict.wf semester_data
  /\ (forall item, In item courses ->
        Dict.mem String.eqb (snd item).(Course.semester) semester_data = true)
  /\ (forall semester entry,
        Dict.get String.eqb semester semester_data = Some entry ->
        entry.(MainWindow.entry_courses)
        = map row_of (filter (in_semester semester) courses)
        /\ entry.(MainWindow.entry_total_points)
           = Num.sum (map row_points entry.(MainWindow.entry_courses))
        /\ entry.(MainWindow.entry_total_hours)
           = Num.sum (map MainWindow.row_credit_hours
                        entry.(MainWindow.entry_courses)))
  /\ total_points
     = Num.sum (map (fun kv => (snd kv).(MainWindow.entry_total_points))
                  semester_data)
  /\ total_hours
     = Num.sum (map (fun kv => (snd kv).(MainWindow.entry_total_hours))
                  semester_data).
Proof.
  pose proof (gpa_fold_collected courses [] ([], 0, 0)) as H.
  cbn [app] in H. unfold MainWindow.gpa_totals.
  apply H. unfold gpa_collected.
  split; [constructor|].
  split; [intros item []|].
  split; [intros semester entry Hg; discriminate|].
  split; reflexivity.
Qed.

(** * The recommendations, category by category *)

Section Recommendations.

Import GPACalculator.

Lemma group_step_same (name : string) (w : Qc) (cs : list string)
    (ws : list Qc) (ns : list nat) (cnt : nat) :
  group_step (mk_grouping cs ws ns (Some name) cnt) (name, w)
  = mk_grouping cs (ws ++ [w]) ns (Some name) (S cnt).
Proof. unfold group_step. simpl. rewrite String.eqb_refl. reflexivity. Qed.

Lemma group_step_other (name cur : string) (w : Qc) (cs : list string)
    (ws : list Qc) (ns : list nat) (cnt : nat) :
  (name =? cur)%string = false ->
  group_step (mk_grouping cs ws ns (Some cur) cnt) (name, w)
  = mk_grouping (cs ++ [cur]) (ws ++ [w]) (ns ++ [cnt]) (Some name) 1.
Proof. intros H. unfold group_step. simpl. rewrite H. reflexivity. Qed.

Lemma slot_blocks_cons (name : string) (w : Qc) (k : nat)
    (rest : list (string * Qc * nat)) :
  slot_blocks ((name, w, S k) :: rest)
  = (name, w) :: repeat (name, w) k ++ slot_blocks rest.
Proof. reflexivity. Qed.

Lemma group_block (name : string) (w : Qc) (j : nat) (cs : list string)
    (ws : list Qc) (ns : list nat) (cnt : nat) :
  fold_left group_step (repeat (name, w) j)
    (mk_grouping cs ws ns (Some name) cnt)
  = mk_grouping cs (ws ++ repeat w j) ns (Some name) (cnt + j).
Proof.
  revert ws cnt. induction j as [|j IH]; intros ws cnt.
  - simpl. rewrite app_nil_r, Nat.add_0_r. reflexivity.
  - cbn [repeat fold_left]. rewrite group_step_same.
    rewrite IH, <- app_assoc, Nat.add_succ_r. reflexivity.
Qed.

Lemma group_blocks (blocks : list (string * Qc * nat)) :
  forall (cs : list string) (ws : list Qc) (ns : list nat) (cur : string)
         (cnt : nat),
    NoDup (cur :: map (fun b => fst (fst b)) blocks) ->
    (forall b, In b blocks -> (0 < snd b)%nat) ->
    exists last,
      (fold_left group_step (slot_blocks blocks)
         (mk_grouping cs ws ns (Some cur) cnt)).(current_category)
      = Some last
      /\ (fold_left group_step (slot_blocks blocks)
            (mk_grouping cs ws ns (Some cur) cnt)).(categories_needing_grades)
         ++ [last]
         = cs ++ cur :: map (fun b => fst (fst b)) blocks
      /\ (fold_left group_step (slot_blocks blocks)
            (mk_grouping cs ws ns (Some cur) cnt)).(num_remaining)
         ++ [(fold_left group_step (slot_blocks blocks)
                (mk_grouping cs ws ns (Some cur) cnt)).(count)]
         = ns ++ cnt :: map snd blocks.
Proof.
  induction blocks as [|[[n w] k] rest IH]; intros cs ws ns cur cnt ND Hpos.
  - exists cur. simpl. repeat split.
  - destruct k as [|k];
      [exfalso; apply (Nat.lt_irrefl 0); apply (Hpos (n, w, 0%nat));
       left; reflexivity|].
    assert (Hne : (n =? cur)%string = false).
    { apply String.eqb_neq. intros ->. inversion ND as [|? ? Hin _]; subst.
      apply Hin. left. reflexivity. }
    assert (ND' : NoDup (n :: map (fun b => fst (fst b)) rest))
      by (inversion ND; assumption).
    rewrite slot_blocks_cons. cbn [fold_left].
    rewrite (group_step_other n cur w cs ws ns cnt Hne).
    rewrite fold_left_app, group_block.
    destruct (IH (cs ++ [cur]) ((ws ++ [w]) ++ repeat w k) (ns ++ [cnt]) n
                (1 + k)%nat ND')
      as [last [H1 [H2 H3]]].
    { intros b Hb. apply Hpos. right. exact Hb. }
    exists last. split; [exact H1|].
    rewrite H2, H3, <- !app_assoc. split; reflexivity.
Qed.

Lemma group_by_category_blocks (blocks : list (string * Qc * nat)) :
  blocks <> [] ->
  NoDup (map (fun b => fst (fst b)) blocks) ->
  (forall b, In b blocks -> (0 < snd b)%nat) ->
  (group_by_category (slot_blocks blocks)).(categories_needing_grades)
  = map (fun b => fst (fst b)) blocks
  /\ (group_by_category (slot_blocks blocks)).(num_remaining)
     = map snd blocks.
Proof.
  destruct blocks as [|[[n w] k] rest]; [congruence|].
  intros _ ND Hpos.
  destruct k as [|k];
    [exfalso; apply (Nat.lt_irrefl 0); apply (Hpos (n, w, 0%nat));
     left; reflexivity|].
  unfold group_by_category. rewrite slot_blocks_cons. cbn [fold_left].
  change (group_step (mk_grouping [] [] [] None 0) (n, w))
    with (mk_grouping [] ([] ++ [w]) [] (Some n) 1).
  rewrite fold_left_app, group_block.
  destruct (group_blocks rest [] (([] ++ [w]) ++ repeat w k) [] n (1 + k)%nat ND)
    as [last [H1 [H2 H3]]].
  { intros b Hb. apply Hpos. right. exact Hb. }
  cbv zeta. rewrite H1.
  cbn [categories_needing_grades num_remaining].
  rewrite H2, H3. split; reflexivity.
Qed.

Lemma format_fold_segments (grades : list Qc) (items : list (string * nat))
    (acc : Dict.t string (list Qc)) (idx : nat) :
  NoDup (map fst items) ->
  (forall k, In k (map fst items) -> ~ In k (Dict.keys acc)) ->
  fst (fold_left (format_step grades) items (acc, idx))
  = acc ++ segments grades idx items.
Proof.
  revert acc idx. induction items as [|[cat num] items IH];
    intros acc idx ND Hfresh.
  - simpl. rewrite app_nil_r. reflexivity.
  - cbn [fold_left segments]. unfold format_step at 2.
    inversion ND as [|? ? Hcat ND']; subst.
    rewrite (set_fresh String.eqb String.eqb_eq)
      by (apply Hfresh; left; reflexivity).
    rewrite IH.
    + rewrite <- app_assoc. reflexivity.
    + exact ND'.
    + intros k Hk Hin. unfold Dict.keys in Hin. rewrite map_app in Hin.
      apply in_app_or in Hin. destruct Hin as [Hin | [Hin | []]].
      * apply (Hfresh k); [right; exact Hk|exact Hin].
      * simpl in Hin. subst k. exact (Hcat Hk).
Qed.

Lemma segments_lengths (grades : list Qc) (items : list (string * nat))
    (idx : nat) :
  (idx + list_sum (map snd items) <= List.length grades)%nat ->
  map (fun kv => (fst kv, List.length (snd kv))) (segments grades idx items)
  = items.
Proof.
  revert idx. induction items as [|[cat num] items IH]; intros idx H;
    [reflexivity|].
  change (list_sum (map snd ((cat, num) :: items)))
    with (num + list_sum (map snd items))%nat in H.
  cbn [segments map fst snd].
  rewrite IH by lia.
  rewrite length_firstn, length_skipn.
  f_equal. f_equal. lia.
Qed.

Lemma slot_blocks_length (blocks : list (string * Qc * nat)) :
  List.length (slot_blocks blocks) = list_sum (map snd blocks).
Proof.
  induction blocks as [|[[n w] k] rest IH]; [reflexivity|].
  unfold slot_blocks in *. cbn [flat_map map snd list_sum fold_right].
  rewrite length_app, repeat_length, IH. reflexivity.
Qed.

Lemma slot_blocks_nil (blocks : list (string * Qc * nat)) :
  (forall b, In b blocks -> (0 < snd b)%nat) ->
  slot_blocks blocks = [] -> blocks = [].
Proof.
  destruct blocks as [|[[n w] k] rest]; [reflexivity|].
  intros Hpos H. exfalso.
  pose proof (Hpos (n, w, k) (or_introl eq_refl)) as Hk. cbn [snd] in Hk.
  destruct k as [|k]; [lia|]. discriminate.
Qed.

Lemma slot_blocks_single (blocks : list (string * Qc * nat))
    (slot : string * Qc) :
  (forall b, In b blocks -> (0 < snd b)%nat) ->
  slot_blocks blocks = [slot] -> blocks = [(slot, 1%nat)].
Proof.
  destruct blocks as [|[[n w] k] rest]; [discriminate|].
  intros Hpos H.
  pose proof (Hpos (n, w, k) (or_introl eq_refl)) as Hk. cbn [snd] in Hk.
  destruct k as [|k]; [lia|].
  unfold slot_blocks in H. cbn [flat_map fst snd repeat app] in H.
  fold (slot_blocks rest) in H.
  inversion H as [[Hslot Hrest]].
  apply app_eq_nil in Hrest. destruct Hrest as [Hk0 Hr].
  destruct k as [|k]; [|discriminate].
  rewrite (slot_blocks_nil rest); [reflexivity| |exact Hr].
  intros b Hb. apply Hpos. right. exact Hb.
Qed.

Lemma category_slots_blocks (course : Course.t) (text : string)
    (l : Dict.t string GradeCategory.t) :
  flat_map (category_slots course text false) l
  = slot_blocks
      (map (fun item => (fst item, slot_weight (snd item),
                         Z.to_nat (remaining_of (snd item))))
         (filter (fun item => (0 <? remaining_of (snd item))%Z) l)).
Proof.
  induction l as [|[name c] l IH]; [reflexivity|].
  cbn [flat_map filter snd]. rewrite IH. unfold category_slots at 1.
  rewrite !andb_false_r.
  destruct (0 <? remaining_of c)%Z; reflexivity.
Qed.

Lemma filter_keys_nodup {V} (p : string * V -> bool) (l : Dict.t string V) :
  NoDup (map fst l) -> NoDup (map fst (filter p l)).
Proof.
  induction l as [|[k v] l IH]; intros ND; [constructor|].
  inversion ND as [|? ? Hk ND']; subst. cbn [filter].
  destruct (p (k, v)); [|apply IH; exact ND'].
  cbn [map fst]. constructor; [|apply IH; exact ND'].
  intros Hin. apply Hk. apply in_map_iff in Hin.
  destruct Hin as [x [Hx Hf]]. apply filter_In in Hf.
  apply in_map_iff. exists x. split; [exact Hx|apply Hf].
Qed.

Lemma combine_map {A B C} (f : A -> B) (g : A -> C) (l : list A) :
  combine (map f l) (map g l) = map (fun x => (f x, g x)) l.
Proof.
  induction l as [|x l IH]; [reflexivity|]. simpl. rewrite IH. reflexivity.
Qed.

End Recommendations.

(** Without the final-exam policy, on a consistent course and with an
    optimizer that returns one score for each slot, a result of the solver
    names exactly the categories that have open slots, in the order of the
    course, and gives each as many scores as it has open slots. *)
Theorem recommendations_fill_open_slots (course : Course.t) (text : string)
    (minimize : list (string * Qc) -> list Qc -> Qc -> Qc -> option (list Qc))
    (target_grade : Qc) (results : Dict.t string (list Qc))
    (Hconsistent : consistent course)
    (Hshape : forall slots weights target contribution grades,
        minimize slots weights target contribution = Some grades ->
        List.length grades = List.length slots)
    (Hresults :
       GPACalculator.find_minimum_balanced_grades course text minimize
         (GPACalculator.current_grades_of course)
         (GPACalculator.weights_of course)
         (GPACalculator.total_assignments_of course) target_grade false
       = Ok results) :
  map (fun kv => (fst kv, List.length (snd kv))) results = open_slots course.
Proof.
  destruct Hconsistent as [Hwf Hc].
  assert (Htest : forall test,
             Dict.get String.eqb "Test" course.(Course.categories) = Some test ->
             test.(GradeCategory.total_assignments) <> 0%Z).
  { intros test Ht.
    destruct (Hc "Test" test (get_some_in _ _ _ Ht)) as [_ [_ [Hd _]]]. lia. }
  pose proof (solver_slots_eq course Hwf Htest text false) as Hs.
  unfold solver_slots in Hs.
  unfold GPACalculator.find_minimum_balanced_grades in Hresults.
  rewrite (process_drops_eq course Hwf) in *. cbn [bind] in *.
  destruct (GPACalculator.calculate_current_contribution course _ _ _)
    as [[[cc twu] np]|e]; [|discriminate].
  cbn [bind] in Hresults. rewrite Hs in Hresults. cbn [bind] in Hresults.
  rewrite category_slots_blocks in Hresults.
  set (open := filter (fun item => (0 <? remaining_of (snd item))%Z)
                 (Course.categories course)) in *.
  set (blocks := map (fun item => (fst item, slot_weight (snd item),
                                   Z.to_nat (remaining_of (snd item)))) open)
    in *.
  assert (Hopen : open_slots course
                  = map (fun b => (fst (fst b), snd b)) blocks).
  { unfold open_slots, blocks. fold open. rewrite map_map. reflexivity. }
  assert (Hpos : forall b, In b blocks -> (0 < snd b)%nat).
  { intros b Hb. unfold blocks in Hb. apply in_map_iff in Hb.
    destruct Hb as [item [<- Hitem]]. unfold open in Hitem.
    apply filter_In in Hitem. destruct Hitem as [_ Hr].
    apply Z.ltb_lt in Hr. cbn [snd]. lia. }
  assert (Hnd : NoDup (map (fun b => fst (fst b)) blocks)).
  { unfold blocks. rewrite map_map. cbn [fst].
    apply (filter_keys_nodup _ _ Hwf). }
  rewrite Hopen.
  destruct (slot_blocks blocks) as [|[cat fw] rest] eqn:Eb.
  - inversion Hresults; subst results.
    rewrite (slot_blocks_nil blocks Hpos Eb). reflexivity.
  - destruct ((List.length ((cat, fw) :: rest) =? 1)%nat
              && (cat =? "Final")%string) eqn:Econd.
    + apply andb_true_iff in Econd. destruct Econd as [Hlen Hcat].
      apply Nat.eqb_eq in Hlen. apply String.eqb_eq in Hcat.
      destruct rest; [|discriminate].
      rewrite (slot_blocks_single blocks (cat, fw) Hpos Eb).
      unfold GPACalculator.only_final in Hresults.
      destruct (Num.eqb fw 0); [destruct np; discriminate|].
      destruct (Num.leb 0 ((target_grade - cc) / fw)
                && Num.leb ((target_grade - cc) / fw) (Num.of_Z 100));
        [|discriminate].
      inversion Hresults; subst results. subst cat. reflexivity.
    + destruct (minimize _ _ _ _) as [grades|] eqn:Em; [|discriminate].
      destruct (existsb (fun x => Num.ltb x 0) grades
                || existsb (fun x => Num.ltb (Num.of_Z 100) x) grades);
        [discriminate|].
      inversion Hresults; subst results. clear Hresults.
      apply Hshape in Em. rewrite <- Eb in *.
      assert (Hne : blocks <> [])
        by (intros E; rewrite E in Eb; discriminate).
      destruct (group_by_category_blocks blocks Hne Hnd Hpos) as [Hg1 Hg2].
      unfold GPACalculator.format_results. rewrite Hg1, Hg2, combine_map.
      rewrite format_fold_segments.
      * cbn [app]. apply segments_lengths.
        rewrite map_map. cbn [snd].
        rewrite Em, slot_blocks_length. cbn [Nat.add]. apply Nat.le_refl.
      * rewrite map_map. cbn [fst]. exact Hnd.
      * intros k _ [].
Qed.

Lemma recommendations_fill_open_slots_witness :
  map (fun kv => (fst kv, List.length (snd kv)))
    [("Quiz", [Examples.q 95])]
  = open_slots Examples.quiz.
Proof.
  apply (recommendations_fill_open_slots Examples.quiz "No Replacement"
           (fun slots _ _ _ => Some (map (fun _ => Examples.q 95) slots))
           (Examples.q 90)).
  - split.
    + repeat constructor; simpl; intuition discriminate.
    + intros name c [H | []]. inversion H; subst c.
      split; [reflexivity|]. split; [split; qc_le|].
      split; [simpl; lia|]. split; [simpl; lia|].
      intros g [<- | []]. split; qc_le.
  - intros slots weights target contribution grades H.
    inversion H. apply length_map.
  - qc_eq.
Defined.

Lemma gpa_points_highest_reached_witness :
  exists minimum,
    In (Course.get_gpa_points Examples.homework (Examples.q 85), minimum)
       Examples.homework.(Course.grade_boundaries)
    /\ minimum <= Examples.q 85.
Proof.
  apply (proj1 (gpa_points_highest_reached Examples.homework (Examples.q 85))).
  exists (Examples.q 3), (Examples.q 80).
  split; [right; left; reflexivity|qc_le].
Defined.

(** * The range of the GPA rows *)

Section GpaRange.

Import MainWindow.

Variable top : Qc.
Hypothesis Htop : 0 <= top.

Lemma get_gpa_points_cases (self : Course.t) (p : Qc) :
  Course.get_gpa_points self p = 0
  \/ exists minimum,
       In (Course.get_gpa_points self p, minimum) self.(Course.grade_boundaries).
Proof.
  rewrite get_gpa_points_sorted.
  destruct (first_boundary_cases p
              (Course.sorted_reverse self.(Course.grade_boundaries)))
    as [H | [[gpa minimum] [Hin H]]]; [left; exact H|].
  right. exists minimum. rewrite H. cbn [fst].
  apply (Permutation_in _ (sorted_reverse_permutation _)). exact Hin.
Qed.

Lemma sums_in_range {A} (f h : A -> Qc) (l : list A) :
  (forall x, In x l -> 0 <= h x /\ 0 <= f x /\ f x <= top * h x) ->
  0 <= Num.sum (map h l)
  /\ 0 <= Num.sum (map f l)
  /\ Num.sum (map f l) <= top * Num.sum (map h l).
Proof.
  induction l as [|x l IH]; intros H.
  - cbn [map]. change (Num.sum []) with 0.
    split; [apply Qcle_refl|]. split; [apply Qcle_refl|].
    replace (top * 0) with 0 by ring. apply Qcle_refl.
  - destruct (H x (or_introl eq_refl)) as (Hh & Hf & Hfh).
    destruct IH as (IHh & IHf & IHfh);
      [intros y Hy; apply H; right; exact Hy|].
    cbn [map]. rewrite !sum_cons.
    split; [replace 0 with (0 + 0) by ring; apply Qcplus_le_compat; assumption|].
    split; [replace 0 with (0 + 0) by ring; apply Qcplus_le_compat; assumption|].
    replace (top * (h x + Num.sum (map h l)))
      with (top * h x + top * Num.sum (map h l)) by ring.
    apply Qcplus_le_compat; assumption.
Qed.

Lemma row_in_range (item : string * Course.t) :
  0 <= (snd item).(Course.credit_hours) ->
  (forall gpa minimum,
     In (gpa, minimum) (snd item).(Course.grade_boundaries) ->
     0 <= gpa /\ gpa <= top) ->
  0 <= row_credit_hours (row_of item)
  /\ 0 <= row_points (row_of item)
  /\ row_points (row_of item) <= top * row_credit_hours (row_of item).
Proof.
  intros Hh Hb. unfold row_points, row_of.
  cbn [row_credit_hours row_gpa_points].
  set (points := Course.get_gpa_points (snd item)
                   (Course.calculate_current_grade (snd item))).
  assert (Hp : 0 <= points /\ points <= top).
  { unfold points.
    destruct (get_gpa_points_cases (snd item)
                (Course.calculate_current_grade (snd item)))
      as [-> | [minimum Hin]].
    - split; [apply Qcle_refl|exact Htop].
    - apply (Hb _ minimum Hin). }
  destruct Hp as [Hp0 Hp1].
  split; [exact Hh|]. split.
  - replace 0 with (0 * Course.credit_hours (snd item)) by ring.
    apply Qcmult_le_compat_r; assumption.
  - apply Qcmult_le_compat_r; assumption.
Qed.

Lemma gpa_of_in_range (total_points total_hours g : Qc) :
  0 <= total_points -> total_points <= top * total_hours ->
  gpa_of total_points total_hours = Some g ->
  0 <= g /\ g <= top.
Proof.
  intros H0 H1 H. unfold gpa_of in H.
  destruct (Num.ltb 0 total_hours) eqn:E; [|discriminate].
  apply ltb_lt in E. inversion H; subst g.
  apply quotient_in_range; [exact E| |exact H1].
  replace (0 * total_hours) with 0 by ring. exact H0.
Qed.

End GpaRange.

(** When no course has negative credit hours and the GPA points of all
    boundaries lie in [0, top], the "Overall GPA" and every "Semester GPA"
    that [update_gpa] shows lie in [0, top]. *)
Theorem gpa_rows_in_range (courses : Dict.t string Course.t) (top : Qc)
    (Htop : 0 <= top)
    (Hhours : forall name course,
        In (name, course) courses -> 0 <= course.(Course.credit_hours))
    (Hpoints : forall name course gpa minimum,
        In (name, course) courses ->
        In (gpa, minimum) course.(Course.grade_boundaries) ->
        0 <= gpa /\ gpa <= top) :
  (forall g, MainWindow.overall_gpa courses = Some g -> 0 <= g /\ g <= top)
  /\ (forall semester entry g,
        Dict.get String.eqb semester (fst (fst (MainWindow.gpa_totals courses)))
        = Some entry ->
        MainWindow.semester_gpa entry = Some g ->
        0 <= g /\ g <= top).
Proof.
  pose proof (gpa_fold_collected courses [] ([], 0, 0)) as H.
  cbn [app] in H. unfold MainWindow.overall_gpa, MainWindow.gpa_totals.
  destruct (fold_left MainWindow.gpa_step courses ([], 0, 0))
    as [[sd tp] th].
  destruct H as (Hwf & _ & Hent & Htp & Hth).
  { split; [constructor|]. split; [intros item []|].
    split; [intros semester entry Hg; discriminate|]. split; reflexivity. }
  assert (Hentry : forall semester entry,
             Dict.get String.eqb semester sd = Some entry ->
             0 <= entry.(MainWindow.entry_total_hours)
             /\ 0 <= entry.(MainWindow.entry_total_points)
             /\ entry.(MainWindow.entry_total_points)
                <= top * entry.(MainWindow.entry_total_hours)).
  { intros semester entry Hg.
    destruct (Hent semester entry Hg) as (Hc & Hp & Hh).
    rewrite Hp, Hh. apply (sums_in_range top).
    intros row Hrow. rewrite Hc in Hrow. apply in_map_iff in Hrow.
    destruct Hrow as [[name course] [<- Hin]]. apply filter_In in Hin.
    destruct Hin as [Hin _].
    apply (row_in_range top Htop).
    - apply (Hhours name course Hin).
    - intros gpa minimum Hb. apply (Hpoints name course gpa minimum Hin Hb). }
  split.
  - intros g Hg.
    destruct (sums_in_range top
                (fun kv : string * MainWindow.semester_entry =>
                   (snd kv).(MainWindow.entry_total_points))
                (fun kv => (snd kv).(MainWindow.entry_total_hours)) sd)
      as (_ & H0 & H1).
    { intros [semester entry] Hin. cbn [snd].
      apply (Hentry semester).
      apply (get_in String.eqb String.eqb_eq); assumption. }
    rewrite <- Htp in H0, H1. rewrite <- Hth in H1.
    apply (gpa_of_in_range top tp th g H0 H1 Hg).
  - cbn [fst]. intros semester entry g Hget Hg.
    destruct (Hentry semester entry Hget) as (_ & H0 & H1).
    apply (gpa_of_in_range top _ _ g H0 H1 Hg).
Qed.

Lemma gpa_rows_in_range_witness :
  (forall g,
     MainWindow.overall_gpa [("Algebra", Examples.homework);
                             ("Logic", Examples.quiz)] = Some g ->
     0 <= g /\ g <= Examples.q 4)
  /\ (forall semester entry g,
        Dict.get String.eqb semester
          (fst (fst (MainWindow.gpa_totals [("Algebra", Examples.homework);
                                            ("Logic", Examples.quiz)])))
        = Some entry ->
        MainWindow.semester_gpa entry = Some g ->
        0 <= g /\ g <= Examples.q 4).
Proof.
  apply (gpa_rows_in_range [("Algebra", Examples.homework);
                            ("Logic", Examples.quiz)] (Examples.q 4)).
  - qc_le.
  - intros name course [H | [H | []]]; inversion H; subst; qc_le.
  - intros name course gpa minimum [H | [H | []]] Hb; inversion H; subst;
      destruct Hb as [Hb | [Hb | []]]; inversion Hb; subst; split; qc_le.
Defined.
